(** * agent-crx: the event-collection daemon, embedded in Rocq

    A shallow embedding of the parts of [src/daemon.ts] and
    [src/snapshot.ts] that carry the daemon's bookkeeping: the ring
    buffer, the query filters of the HTTP endpoints, the frequency
    annotation, the reference table, the in-page snapshot routine and the
    reconnection loop.  Definitions come first (one module per source
    component), the lemmas and theorems about them follow. *)

From Stdlib Require Import ZArith Lia List String Ascii.
From stdpp Require Import base numbers list gmap strings pretty.

Set Warnings "-register-all".

Local Open Scope Z_scope.

(* ===================================================================== *)
(** * Part I: the embedding                                               *)
(* ===================================================================== *)

(** ** JavaScript values used by the daemon *)

Module JS.

(** The numbers the daemon handles are integers (counts, indices, HTTP
    statuses, results of [parseInt]) or [NaN] (a failed [parseInt],
    [Number] of a non-numeric value). *)
Inductive number :=
| NaN
| Num (z : Z).

(** [ToBoolean] on a number: [NaN] and [0] are falsy. *)
Definition truthy (n : number) : bool :=
  match n with
  | NaN => false
  | Num z => negb (z =? 0)
  end.

(** [n > 0]; every comparison with [NaN] is false. *)
Definition gt0 (n : number) : bool :=
  match n with
  | NaN => false
  | Num z => 0 <? z
  end.

(** [a === b] on numbers; [NaN] equals nothing. *)
Definition strict_eq (a b : number) : bool :=
  match a, b with
  | Num x, Num y => x =? y
  | _, _ => false
  end.

(** ToBoolean on a string: only the empty string is falsy. *)
Definition truthy_string (s : string) : bool :=
  match s with
  | EmptyString => false
  | String _ _ => true
  end.

(** ToBoolean on [string | null]. *)
Definition truthy_opt (o : option string) : bool :=
  match o with
  | None => false
  | Some s => truthy_string s
  end.

Section Arrays.
Context {T : Type}.
(** What reading a hole, or reading out of range, produces. *)
Variable undefined : T.

(** [new Array(n)]: [n] holes. *)
Definition array_new (n : Z) : list T := replicate (Z.to_nat n) undefined.

(** [a[i]] *)
Definition array_get (a : list T) (i : Z) : T :=
  if decide (0 <= i) then default undefined (a !! Z.to_nat i) else undefined.

(** [a[i] = v]: in range it overwrites, past the end it extends the
    array with holes, a negative index leaves the elements alone. *)
Definition array_set (a : list T) (i : Z) (v : T) : list T :=
  if decide (i < 0) then a
  else if decide (i < Z.of_nat (length a)) then <[Z.to_nat i := v]> a
  else a ++ replicate (Z.to_nat i - length a)%nat undefined ++ [v].
End Arrays.

(** [a.slice(start)] for an integer [start]: a negative [start] counts
    from the end and is clamped at the beginning of the array. *)
Definition array_slice {T : Type} (a : list T) (start : Z) : list T :=
  let len := Z.of_nat (length a) in
  let k := if decide (start < 0) then Z.max (len + start) 0 else Z.min start len in
  drop (Z.to_nat k) a.

End JS.

(** ** Ring buffer ([class RingBuffer<T>], daemon.ts) *)

Module RingBuffer.
Section Def.
Context {T : Type}.
Variable undefined : T.

Record t := mk {
  items : list T;
  head : Z;
  count : Z;
  capacity : Z
}.

(** [constructor(capacity)], for a capacity that is a non-negative
    integer (any other makes [new Array] throw or [%] yield [NaN]). *)
Definition new (capacity : Z) : t :=
  {| items := JS.array_new undefined capacity;
     head := 0;
     count := 0;
     capacity := capacity |}.

(** [push(item)].  [%] is JavaScript's remainder, [Z.rem]. *)
Definition push (rb : t) (item : T) : t :=
  {| items := JS.array_set undefined (items rb) (head rb) item;
     head := Z.rem (head rb + 1) (capacity rb);
     count := if decide (count rb < capacity rb) then count rb + 1 else count rb;
     capacity := capacity rb |}.

(** The [for] loop of [query]: one pass over [i = 0 .. count-1],
    appending the items the filter keeps. *)
Definition scan (rb : t) (filter : option (T -> bool)) : list T :=
  let start := Z.rem (head rb - count rb + capacity rb) (capacity rb) in
  foldl (fun result i =>
           let item := JS.array_get undefined (items rb)
                         (Z.rem (start + i) (capacity rb)) in
           if match filter with
              | None => true
              | Some f => f item
              end
           then result ++ [item]
           else result)
        [] (seqZ 0 (count rb)).

(** [query(filter?, limit?)] *)
Definition query (rb : t) (filter : option (T -> bool))
           (limit : option JS.number) : list T :=
  let result := scan rb filter in
  match limit with
  | Some l =>
      if JS.truthy l && JS.gt0 l
      then match l with
           | JS.Num z => JS.array_slice result (- z)
           | JS.NaN => result
           end
      else result
  | None => result
  end.

(** [clear()] *)
Definition clear (rb : t) : t :=
  {| items := JS.array_new undefined (capacity rb);
     head := 0;
     count := 0;
     capacity := capacity rb |}.

(** [get size()] *)
Definition size (rb : t) : Z := count rb.

(** A buffer of capacity [c] after the pushes [xs], in order. *)
Definition pushed (c : Z) (xs : list T) : t := foldl push (new c) xs.

(** Representation invariant of a buffer of capacity [c] that has
    received the pushes [xs]: slot [k mod c] holds the [k]-th pushed
    item for each of the last [min n c] pushes. *)
Definition holds (c : Z) (xs : list T) (rb : t) : Prop :=
  let n := Z.of_nat (length xs) in
  capacity rb = c /\
  length (items rb) = Z.to_nat c /\
  head rb = n mod c /\
  count rb = Z.min n c /\
  forall k, Z.max 0 (n - c) <= k < n ->
    items rb !! Z.to_nat (k mod c) = xs !! Z.to_nat k.
End Def.

Arguments t : clear implicits.
End RingBuffer.

(** ** String operations of JavaScript used by the query engine

    Strings are byte strings: text in UTF-8.  [trim] and [parseInt] skip
    every white space character of JavaScript, in its UTF-8 form; the
    other operations below follow the JavaScript ones on ASCII input. *)

Module Str.

(** [a >= b] on strings: lexicographic by code unit. *)
Definition ge (a b : string) : bool := negb (Stdlib.Strings.String.ltb a b).

(** [s.split(sep)] for a one-character separator. *)
Fixpoint split (sep : ascii) (s : string) : list string :=
  match s with
  | EmptyString => [EmptyString]
  | String a s' =>
      if decide (a = sep) then EmptyString :: split sep s'
      else match split sep s' with
           | [] => [String a EmptyString]
           | w :: ws => String a w :: ws
           end
  end.

(** The white space and line terminators [trim] and [parseInt] skip.
    One byte: the tab, the line feed, the vertical tab, the form feed,
    the carriage return (9 to 13) and the space (32). *)
Definition whiteByte (a : ascii) : bool :=
  let c := N_of_ascii a in
  ((9 <=? c)%N && (c <=? 13)%N) || (c =? 32)%N.

(** Two bytes: the no-break space U+00A0 (194 160). *)
Definition white2 (a b : ascii) : bool :=
  (N_of_ascii a =? 194)%N && (N_of_ascii b =? 160)%N.

(** Three bytes: U+1680 (225 154 128); U+2000 to U+200A (226 128 128 to
    226 128 138); U+2028, U+2029 and U+202F (226 128 168, 169 and 175);
    U+205F (226 129 159); U+3000 (227 128 128); U+FEFF (239 187 191). *)
Definition white3 (a b c : ascii) : bool :=
  let x := N_of_ascii a in
  let y := N_of_ascii b in
  let z := N_of_ascii c in
  ((x =? 225)%N && (y =? 154)%N && (z =? 128)%N)
  || ((x =? 226)%N && (y =? 128)%N
      && (((128 <=? z)%N && (z <=? 138)%N) || (z =? 168)%N || (z =? 169)%N || (z =? 175)%N))
  || ((x =? 226)%N && (y =? 129)%N && (z =? 159)%N)
  || ((x =? 227)%N && (y =? 128)%N && (z =? 128)%N)
  || ((x =? 239)%N && (y =? 187)%N && (z =? 191)%N).

(** The no-break space. *)
Definition nbsp : string := String "194"%char (String "160"%char EmptyString).

(** [s.trimStart()] *)
Fixpoint trimStart (s : string) : string :=
  match s with
  | EmptyString => EmptyString
  | String a s1 =>
      if whiteByte a then trimStart s1
      else
        match s1 with
        | String b s2 =>
            if white2 a b then trimStart s2
            else
              match s2 with
              | String c s3 => if white3 a b c then trimStart s3 else s
              | EmptyString => s
              end
        | EmptyString => s
        end
  end.

(** The string is white space throughout. *)
Definition blank (s : string) : bool :=
  match trimStart s with
  | EmptyString => true
  | String _ _ => false
  end.

(** [s.trimEnd()]: the string up to where only white space follows. *)
Fixpoint trimEnd (s : string) : string :=
  match s with
  | EmptyString => EmptyString
  | String a s' => if blank s then EmptyString else String a (trimEnd s')
  end.

(** [s.trim()] *)
Definition trim (s : string) : string := trimEnd (trimStart s).

(** [s.endsWith(suffix)] *)
Definition endsWith (s suffix : string) : bool :=
  let ls := Stdlib.Strings.String.length s in
  let lt := Stdlib.Strings.String.length suffix in
  if decide (lt <= ls)%nat
  then bool_decide (Stdlib.Strings.String.substring (ls - lt) lt s = suffix)
  else false.

(** [s[0]]: the first character as a string, [undefined] on the empty
    string. *)
Definition first (s : string) : option string :=
  match s with
  | EmptyString => None
  | String a _ => Some (String a EmptyString)
  end.

Definition digit (a : ascii) : option Z := Z.of_nat <$> Ascii.is_nat a.

(** The longest prefix of decimal digits, read as a number; [None] when
    the string does not start with a digit. *)
Fixpoint digits (acc : option Z) (s : string) : option Z :=
  match s with
  | EmptyString => acc
  | String a s' =>
      match digit a with
      | Some d => digits (Some (10 * default 0 acc + d)) s'
      | None => acc
      end
  end.

(** [parseInt(s, 10)]: skip leading white space, read an optional sign,
    then the longest run of digits; [NaN] when there is none. *)
Definition parseInt (s : string) : JS.number :=
  let s1 := trimStart s in
  let '(sign, s2) :=
    match s1 with
    | String "-"%char r => (-1, r)
    | String "+"%char r => (1, r)
    | _ => (1, s1)
    end in
  match digits None s2 with
  | None => JS.NaN
  | Some n => JS.Num (sign * n)
  end.

(** [parseInt(x, 10)] of [string | undefined]: [undefined] is first
    converted to the string "undefined", which has no digits. *)
Definition parseInt_opt (o : option string) : JS.number :=
  match o with
  | None => JS.NaN
  | Some s => parseInt s
  end.

End Str.

(** ** Buffered events ([ExtEventWithoutSession], [BufferedEvent]) *)

Module Events.

Inductive source := Page | Extension | Unknown.

(** The tagged union; the constructor is the [type] discriminant. *)
Inductive payload :=
| Console (level text : string)
| Exception (text : string)
| Request (method url : string)
| Response (status : Z) (url : string)
| NetworkError (error resourceType url : string)
| Screenshot (path : string).

Record BufferedEvent := mkEvent {
  ts : string;
  label : option string;
  body : payload;
  src : source
}.

(** ["text" in e ? e.text : ""] *)
Definition text_or_empty (e : BufferedEvent) : string :=
  match body e with
  | Console _ text => text
  | Exception text => text
  | _ => EmptyString
  end.

Definition has_text (e : BufferedEvent) : bool :=
  match body e with
  | Console _ _ | Exception _ => true
  | _ => false
  end.

End Events.

(** ** Query engine: the filters of the HTTP endpoints *)

Module Query.
Import Events.

(** The filter of [GET /errors] before the optional time and source
    filters are conjoined. *)
Definition errorsFilter (e : BufferedEvent) : bool :=
  match body e with
  | Exception _ => true
  | NetworkError _ _ _ => true
  | Console level _ => bool_decide (level = "error")
  | Response status _ => bool_decide (400 <= status)
  | _ => false
  end.

(** The filter of [GET /errors/summary]. *)
Definition errorsSummaryFilter (e : BufferedEvent) : bool :=
  match body e with
  | Exception _ => true
  | NetworkError _ _ _ => true
  | Console level _ => bool_decide (level = "error")
  | Response status _ => bool_decide (400 <= status)
  | _ => false
  end.

(** The filter of [GET /inspect] (and of the [runInspect] helper). *)
Definition inspectFilter (e : BufferedEvent) : bool :=
  match body e with
  | Exception _ => true
  | NetworkError _ _ _ => true
  | Console level _ => bool_decide (level = "error")
  | Response status _ => bool_decide (400 <= status)
  | _ => false
  end.

(** [minutesFilter]: the cutoff is the ISO timestamp of
    [Date.now() - minutes * 60 * 1000], an input here. *)
Definition minutesFilter (cutoff : string) (e : BufferedEvent) : bool :=
  Str.ge (ts e) cutoff.

(** *** Frequency annotation ([addFrequency]) *)

(** An event with the optional [frequency] field of the response. *)
Record Annotated := mkAnnotated {
  event : BufferedEvent;
  frequency : option string
}.

Definition isRecentError (thirtySecsAgo : string) (e : BufferedEvent) : bool :=
  Str.ge (ts e) thirtySecsAgo &&
  match body e with
  | Console level _ => bool_decide (level = "error")
  | Exception _ => true
  | _ => false
  end.

(** The counting loop over [recentErrors]. *)
Definition countByText (recentErrors : list BufferedEvent) : gmap string Z :=
  foldl (fun counts e =>
           let key := text_or_empty e in
           <[key := default 0 (counts !! key) + 1]> counts)
        ∅ recentErrors.

(** [`repeated ${count}x in 30s`] *)
Definition frequencyTag (count : Z) : string :=
  "repeated " +:+ pretty count +:+ "x in 30s".

(** [addFrequency(events)]; [thirtySecsAgo] is the ISO timestamp of
    [Date.now() - 30_000], an input here. *)
Definition addFrequency (thirtySecsAgo : string) (events : list BufferedEvent)
  : list Annotated :=
  let recentErrors := List.filter (isRecentError thirtySecsAgo) events in
  let counts := countByText recentErrors in
  (fun e =>
     let key := text_or_empty e in
     match counts !! key with
     | Some count =>
         if negb (count =? 0) && (3 <=? count)
         then mkAnnotated e (Some (frequencyTag count))
         else mkAnnotated e None
     | None => mkAnnotated e None
     end) <$> events.

(** *** Status filter of [GET /network] *)

Definition networkBase (e : BufferedEvent) : bool :=
  match body e with
  | Request _ _ | Response _ _ | NetworkError _ _ _ => true
  | _ => false
  end.

(** The callback of [ranges.some(...)]. *)
Definition rangeMatches (status : Z) (r : string) : bool :=
  if Str.endsWith r "xx" then
    let prefix := Str.parseInt_opt (Str.first r) in
    JS.strict_eq (JS.Num (status / 100)) prefix
  else JS.strict_eq (JS.Num status) (Str.parseInt r).

Definition statusRanges (status : string) : list string :=
  Str.trim <$> Str.split ","%char status.

(** The filter of [GET /network] for the query parameter [status]
    ([q.get("status")], [null] when absent). *)
Definition networkFilter (status : option string) (e : BufferedEvent) : bool :=
  if JS.truthy_opt status then
    let ranges := statusRanges (default EmptyString status) in
    if negb (networkBase e) then false
    else match body e with
         | NetworkError _ _ _ => true
         | Response st _ => existsb (rangeMatches st) ranges
         | _ => false
         end
  else networkBase e.

End Query.

(** ** The page as the snapshot routine sees it

    An element carries what the routine reads from it; its identity is its
    position: the path of child indices from the root of its tree (the
    document, or the shadow root of a host element). *)

Module Dom.

Record ElemData := mkElem {
  tagName : string;                  (* [el.tagName], upper case in HTML *)
  attrs : list (string * string);    (* attributes, for [getAttribute] *)
  textContent : string;
  disabledProp : bool                (* [el.disabled === true] *)
}.

Inductive node :=
| Node (data : ElemData) (children : list node) (shadowRoot : option (list node)).

Definition data (n : node) : ElemData := let 'Node d _ _ := n in d.
Definition children (n : node) : list node := let 'Node _ c _ := n in c.
Definition shadowRoot (n : node) : option (list node) := let 'Node _ _ s := n in s.

(** [el.getAttribute(name)] *)
Fixpoint assoc (name : string) (l : list (string * string)) : option string :=
  match l with
  | [] => None
  | (k, v) :: l' => if decide (k = name) then Some v else assoc name l'
  end.

Definition getAttribute (n : node) (name : string) : option string :=
  assoc name (attrs (data n)).

(** The element at a path below a list of root children. *)
Fixpoint nodeAt (roots : list node) (p : list nat) : option node :=
  match p with
  | [] => None
  | i :: p' =>
      match roots !! i with
      | None => None
      | Some n => match p' with
                  | [] => Some n
                  | _ => nodeAt (children n) p'
                  end
      end
  end.

(** The document: the children of the document node (the [html] element). *)
Definition document := list node.

(** [document.documentElement] *)
Definition documentElement : list nat := [0%nat].

(** [document.body]: the first [body] or [frameset] child of the
    document element. *)
Definition body (doc : document) : option (list nat) :=
  match doc !! 0%nat with
  | None => None
  | Some html =>
      (fun '(i, _) => [0%nat; i]) <$>
        list_find (fun c => tagName (data c) = "BODY" \/ tagName (data c) = "FRAMESET")
                  (children html)
  end.

(** The children of the query root of an element: the document, or the
    shadow root of its host. *)
Definition rootChildren (doc : document) (shadowHost : option (list nat)) : list node :=
  match shadowHost with
  | None => doc
  | Some h => match nodeAt doc h with
              | Some host => default [] (shadowRoot host)
              | None => []
              end
  end.

End Dom.

(** ** Browser built-ins used by the in-page code *)

Module Css.

Definition dquote : string := String "034"%char EmptyString.
Definition backslash : string := String "092"%char EmptyString.

Definition hexDigit (n : N) : ascii :=
  if (n <? 10)%N then ascii_of_N (48 + n) else ascii_of_N (87 + n).

(** [c.toString(16)] for a code unit below 256. *)
Definition hex (c : N) : string :=
  if (c <? 16)%N then String (hexDigit c) EmptyString
  else String (hexDigit (c / 16)) (String (hexDigit (c mod 16)) EmptyString).

Definition asCodePoint (c : N) : string := backslash +:+ hex c +:+ " ".

Definition isDigit (c : N) : bool := (48 <=? c)%N && (c <=? 57)%N.

Definition isNameChar (c : N) : bool :=
  (128 <=? c)%N || (c =? 45)%N || (c =? 95)%N || isDigit c
  || ((65 <=? c)%N && (c <=? 90)%N) || ((97 <=? c)%N && (c <=? 122)%N).

(** One step of the serialisation of an identifier (CSSOM); [i] is the
    index of the character, [first] the first character of the whole
    string and [len] its length. *)
Definition escapeChar (i : nat) (first : N) (len : nat) (a : ascii) : string :=
  let c := N_of_ascii a in
  if (c =? 0)%N then String "239"%char (String "191"%char (String "189"%char EmptyString))
  else if ((1 <=? c)%N && (c <=? 31)%N) || (c =? 127)%N then asCodePoint c
  else if Nat.eqb i 0 && isDigit c then asCodePoint c
  else if Nat.eqb i 1 && isDigit c && (first =? 45)%N then asCodePoint c
  else if Nat.eqb i 0 && Nat.eqb len 1 && (c =? 45)%N then backslash +:+ String a EmptyString
  else if isNameChar c then String a EmptyString
  else backslash +:+ String a EmptyString.

Fixpoint escapeFrom (i : nat) (first : N) (len : nat) (s : string) : string :=
  match s with
  | EmptyString => EmptyString
  | String a s' => escapeChar i first len a +:+ escapeFrom (S i) first len s'
  end.

(** [CSS.escape(s)] *)
Definition escape (s : string) : string :=
  let first := match s with
               | EmptyString => 0%N
               | String a _ => N_of_ascii a
               end in
  escapeFrom 0 first (Stdlib.Strings.String.length s) s.

End Css.

(** ** The snapshot routine ([buildSnapshotExpression], snapshot.ts)

    The model is the in-page code the expression evaluates.  The sorted
    list of visible candidates comes from the browser (selector matching,
    layout, document order) and is an input, as is the result of
    [querySelectorAll] on the synthesized selectors. *)

Module Snapshot.
Import Dom.

Record SnapshotRef := mkRef {
  ref : Z;
  tag : string;
  role : option string;
  text : string;
  selector : string;
  type : option string;
  name : option string;
  href : option string;
  disabled : option bool
}.

(** An entry [{ el, shadowHost }] of [allCandidates]. *)
Record Candidate := mkCandidate {
  el : list nat;
  shadowHost : option (list nat)
}.

(** [x || undefined] on an attribute value. *)
Definition orUndefined (o : option string) : option string :=
  if JS.truthy_opt o then o else None.

Definition lowerChar (a : ascii) : ascii :=
  let c := N_of_ascii a in
  if (65 <=? c)%N && (c <=? 90)%N then ascii_of_N (c + 32) else a.

(** [s.toLowerCase()] *)
Fixpoint toLowerCase (s : string) : string :=
  match s with
  | EmptyString => EmptyString
  | String a s' => String (lowerChar a) (toLowerCase s')
  end.

(** [parts.join(sep)] *)
Fixpoint join (sep : string) (parts : list string) : string :=
  match parts with
  | [] => EmptyString
  | [x] => x
  | x :: rest => x +:+ sep +:+ join sep rest
  end.

(** [s.replace(/"/g, '\\"')] as the page runs it: every double quote
    gets a backslash in front. *)
Fixpoint escapeQuotes (s : string) : string :=
  match s with
  | EmptyString => EmptyString
  | String a s' =>
      if decide (a = "034"%char)
      then Css.backslash +:+ Css.dquote +:+ escapeQuotes s'
      else String a (escapeQuotes s')
  end.

Definition nthOfType (tag : string) (k : nat) : string :=
  tag +:+ ":nth-of-type(" +:+ pretty k +:+ ")".

Definition sameTag (cur : node) (c : node) : bool :=
  bool_decide (tagName (data c) = tagName (data cur)).

Section WithPage.
Variable doc : document.
(** [root.querySelectorAll(sel)]: the matching elements of the tree of
    [shadowHost] in document order, [None] when the call throws. *)
Variable querySelectorAll : option (list nat) -> string -> option (list (list nat)).

(** The [while] loop of [buildPath], walking up from the element at the
    reversed path [rp]; returns [parts] and [foundId]. *)
Fixpoint walkUp (host : option (list nat)) (rp : list nat) (parts : list string)
  : list string * bool :=
  match rp with
  | [] => (parts, false)
  | i :: rp' =>
      let p := rev rp in
      match nodeAt (rootChildren doc host) p with
      | None => (parts, false)
      | Some cur =>
          if bool_decide (host = None) &&
             (bool_decide (Some p = body doc) || bool_decide (p = documentElement))
          then (parts, false)
          else
            let curTag := toLowerCase (tagName (data cur)) in
            let curId := getAttribute cur "id" in
            if JS.truthy_opt curId
            then (("#" +:+ Css.escape (default EmptyString curId)) :: parts, true)
            else
              match rp' with
              | [] => (curTag :: parts, false)
              | _ :: _ =>
                  match nodeAt (rootChildren doc host) (rev rp') with
                  | None => (curTag :: parts, false)
                  | Some parent =>
                      let siblings := List.filter (sameTag cur) (children parent) in
                      if bool_decide (length siblings = 1%nat)
                      then walkUp host rp' (curTag :: parts)
                      else
                        let idx := S (length (List.filter (sameTag cur)
                                                (take i (children parent)))) in
                        walkUp host rp' (nthOfType curTag idx :: parts)
                  end
              end
      end
  end.

(** [buildPath(el, queryRoot)] *)
Definition buildPath (c : Candidate) : string :=
  let '(parts, foundId) := walkUp (shadowHost c) (rev (el c)) [] in
  let path := join " > " parts in
  if negb foundId && bool_decide (shadowHost c = None)
  then "body > " +:+ path
  else path.

(** [allEls.indexOf(el)] *)
Definition indexOf (p : list nat) (l : list (list nat)) : option nat :=
  fst <$> list_find (fun q => q = p) l.

(** The fallback of the uniqueness check; [None] when
    [querySelectorAll(tag)] throws, which nothing catches. *)
Definition globalNth (c : Candidate) (tag current : string) : option string :=
  allEls ← querySelectorAll (shadowHost c) tag;
  Some match indexOf (el c) allEls with
       | Some globalIdx => nthOfType tag (S globalIdx)
       | None => current
       end.

(** The selector inside the query root; [None] when the code throws. *)
Definition innerSelector (c : Candidate) (n : node) : option string :=
  let tag := toLowerCase (tagName (data n)) in
  let name := orUndefined (getAttribute n "name") in
  let id := getAttribute n "id" in
  let testId := getAttribute n "data-testid" in
  let ariaLabel := getAttribute n "aria-label" in
  if JS.truthy_opt id then Some ("#" +:+ Css.escape (default EmptyString id))
  else if JS.truthy_opt testId
  then Some ("[data-testid=" +:+ Css.dquote +:+ default EmptyString testId
             +:+ Css.dquote +:+ "]")
  else if JS.truthy_opt ariaLabel
  then Some ("[aria-label=" +:+ Css.dquote
             +:+ escapeQuotes (default EmptyString ariaLabel)
             +:+ Css.dquote +:+ "]")
  else if JS.truthy_opt name && bool_decide (tag = "input")
  then Some (tag +:+ "[name=" +:+ Css.dquote +:+ default EmptyString name
             +:+ Css.dquote +:+ "]")
  else
    let path := buildPath c in
    match querySelectorAll (shadowHost c) path with
    | Some matches =>
        if bool_decide (length matches <> 1%nat)
        then globalNth c tag path
        else Some path
    | None => globalNth c tag path
    end.

(** The host part of a shadow-qualified selector. *)
Definition hostSelector (host : node) : string :=
  let hostTag := toLowerCase (tagName (data host)) in
  let hostId := getAttribute host "id" in
  let hostTestId := getAttribute host "data-testid" in
  if JS.truthy_opt hostId then "#" +:+ Css.escape (default EmptyString hostId)
  else if JS.truthy_opt hostTestId
  then "[data-testid=" +:+ Css.dquote +:+ default EmptyString hostTestId
       +:+ Css.dquote +:+ "]"
  else hostTag.

Definition emptyNode : node := Node (mkElem EmptyString [] EmptyString false) [] None.

(** The body of the [for] loop up to [elements.push]: the descriptor
    of one candidate, with the ref it is given. *)
Definition describe (c : Candidate) (r : Z) : option SnapshotRef :=
  let n := default emptyNode (nodeAt (rootChildren doc (shadowHost c)) (el c)) in
  inner ← innerSelector c n;
  let sel :=
    match shadowHost c with
    | Some h =>
        hostSelector (default emptyNode (nodeAt doc h)) +:+ ">>>" +:+ inner
    | None => inner
    end in
  Some
  {| ref := r;
     tag := toLowerCase (tagName (data n));
     role := orUndefined (getAttribute n "role");
     text := Stdlib.Strings.String.substring 0 60 (Str.trim (textContent (data n)));
     selector := sel;
     type := orUndefined (getAttribute n "type");
     name := orUndefined (getAttribute n "name");
     href := orUndefined (getAttribute n "href");
     disabled :=
       if disabledProp (data n)
          || bool_decide (getAttribute n "aria-disabled" = Some "true")
       then Some true else None |}.

(** The [for] loop over [finalCandidates], with its counter [ref] and
    its [break]. *)
Fixpoint assignRefs (cands : list Candidate) (r : Z) (elements : list SnapshotRef)
  : option (list SnapshotRef) :=
  match cands with
  | [] => Some elements
  | c :: rest =>
      d ← describe c r;
      let elements' := elements ++ [d] in
      let r' := r + 1 in
      if decide (r' > 75) then Some elements' else assignRefs rest r' elements'
  end.

Definition isShadow (c : Candidate) : bool :=
  match shadowHost c with Some _ => true | None => false end.

(** [finalCandidates] from the sorted [allCandidates]. *)
Definition finalCandidates (allCandidates : list Candidate) : list Candidate :=
  let mainCandidates := List.filter (fun c => negb (isShadow c)) allCandidates in
  let shadowCandidates := List.filter isShadow allCandidates in
  let mainLimit := if decide (0 < length shadowCandidates)%nat then 50%nat else 75%nat in
  let shadowLimit := 25%nat in
  take mainLimit mainCandidates ++ take shadowLimit shadowCandidates.

(** [interactiveElements] of one snapshot; [None] when the routine
    throws. *)
Definition interactiveElements (allCandidates : list Candidate)
  : option (list SnapshotRef) :=
  assignRefs (finalCandidates allCandidates) 1 [].
End WithPage.

End Snapshot.

(** ** Reference table and the handlers that use it (daemon.ts) *)

Module Daemon.
Import Snapshot.

(** The fields of [DaemonState] the handlers below read or write. *)
Record State := mkState {
  client : bool;                      (* [state.client] is not [null] *)
  connected : bool;
  refMap : gmap Z SnapshotRef
}.

Record SnapshotResult := mkSnapshot {
  url : string;
  title : string;
  readyState : string;
  watchlist : list (string * string * bool);
  interactiveElements : list SnapshotRef
}.

(** What awaiting a protocol call gives: the promise rejects, or it
    resolves with a value. *)
Inductive Awaited (A : Type) :=
| Rejected (message : string)
| Resolved (a : A).
Arguments Rejected {A} _.
Arguments Resolved {A} _.

(** The result of [Runtime.evaluate] on the snapshot expression:
    [exceptionDetails], or [result.result?.value]. *)
Inductive SnapshotEval :=
| SnapshotThrew (description : string)
| SnapshotValue (value : option SnapshotResult).

(** The value the click and fill expressions return in the page:
    [{ error }], or [{ ok, tag, text }] for a click and
    [{ ok, tag, name }] for a fill ([detail] is the text or the name,
    [None] for an element without a name), or no value. *)
Inductive PageValue :=
| PageError (error : string)
| PageDone (tag : string) (detail : option string)
| PageUndefined.

(** Protocol calls a handler issues. *)
Inductive Call :=
| RuntimeEnable
| EvaluateSnapshot
| EvaluateClick (selector : string)
| EvaluateFill (selector value : string).

Inductive Response :=
| Json (status : Z) (body : string + (option string * option string * string))
| JsonSnapshot (snapshot : SnapshotResult).

Definition jsonError (status : Z) (error : string) : Response :=
  Json status (inl error).

(** [state.refMap.clear(); for (el of ...) state.refMap.set(el.ref, el)] *)
Definition replaceRefs (refMap : gmap Z SnapshotRef) (els : list SnapshotRef)
  : gmap Z SnapshotRef :=
  let cleared : gmap Z SnapshotRef := ∅ in
  foldl (fun m el => <[ref el := el]> m) cleared els.

(** [GET /snapshot], up to the reply (the extension lookup that follows
    does not touch the table). *)
Definition snapshotHandler (st : State) (eval : Awaited SnapshotEval)
  : State * list Call * Response :=
  if negb (client st) || negb (connected st)
  then (st, [], jsonError 500 "Not connected")
  else
    match eval with
    | Rejected message => (st, [RuntimeEnable; EvaluateSnapshot], jsonError 500 message)
    | Resolved (SnapshotThrew description) =>
        (st, [RuntimeEnable; EvaluateSnapshot], jsonError 500 description)
    | Resolved (SnapshotValue None) =>
        (mkState (client st) (connected st) ∅, [RuntimeEnable; EvaluateSnapshot],
         jsonError 500 "Cannot read properties of undefined (reading 'interactiveElements')")
    | Resolved (SnapshotValue (Some snapshot)) =>
        (mkState (client st) (connected st)
           (replaceRefs (refMap st) (interactiveElements snapshot)),
         [RuntimeEnable; EvaluateSnapshot],
         JsonSnapshot snapshot)
    end.

(** The value sent as [body.ref], by the two things the handlers do with
    it: [Number(body.ref)] is the key they look up ([NaN] standing for
    every result that is not an integer, none of which is a key), and
    the template literal of the error message prints the value as it
    was sent. *)
Record Sent := mkSent {
  asNumber : JS.number;
  asText : string
}.

(** The JSON number [z], an integer below 2^53 in size. *)
Definition sentNumber (z : Z) : Sent := mkSent (JS.Num z) (pretty z).

(** JSON [null]: [Number(null)] is 0 and the literal prints "null". *)
Definition sentNull : Sent := mkSent (JS.Num 0) "null".

(** The parsed request body of [POST /click] and [POST /fill]; a field
    is [None] when it is [undefined]. *)
Record Body := mkBody {
  bref : option Sent;
  bselector : option string;
  bvalue : option string
}.

(** [state.refMap.get(n)] *)
Definition getRef (refMap : gmap Z SnapshotRef) (n : JS.number) : option SnapshotRef :=
  match n with
  | JS.NaN => None
  | JS.Num z => refMap !! z
  end.

(** The selector a click or fill acts on, or the 400 reply. *)
Definition resolveTarget (st : State) (body : Body) : Response + string :=
  match bref body with
  | Some sent =>
      match getRef (refMap st) (asNumber sent) with
      | None =>
          inl (jsonError 400 ("Ref @" +:+ asText sent +:+ " not found. Run snapshot first."))
      | Some refEntry => inr (selector refEntry)
      end
  | None =>
      if JS.truthy_opt (bselector body)
      then inr (default EmptyString (bselector body))
      else inl (jsonError 400 "ref or selector required")
  end.

Definition reply (sel : string) (r : Awaited PageValue) : Response :=
  match r with
  | Rejected message => jsonError 500 message
  | Resolved (PageError error) =>
      if JS.truthy_string error then jsonError 400 error
      else Json 200 (inr (None, None, sel))
  | Resolved (PageDone tag detail) => Json 200 (inr (Some tag, detail, sel))
  | Resolved PageUndefined => Json 200 (inr (None, None, sel))
  end.

(** [POST /click] *)
Definition clickHandler (st : State) (body : Body) (eval : Awaited PageValue)
  : list Call * Response :=
  if negb (client st) || negb (connected st)
  then ([], jsonError 500 "Not connected")
  else
    match resolveTarget st body with
    | inl error => ([], error)
    | inr sel => ([RuntimeEnable; EvaluateClick sel], reply sel eval)
    end.

(** [POST /fill] *)
Definition fillHandler (st : State) (body : Body) (eval : Awaited PageValue)
  : list Call * Response :=
  if negb (client st) || negb (connected st)
  then ([], jsonError 500 "Not connected")
  else
    match resolveTarget st body with
    | inl error => ([], error)
    | inr sel =>
        match bvalue body with
        | None => ([], jsonError 400 "value required")
        | Some value => ([RuntimeEnable; EvaluateFill sel value], reply sel eval)
        end
    end.

(** The table of a daemon that has just started. *)
Definition initial : State := mkState false false ∅.

End Daemon.

(** ** Reconnection ([connectCDP], [scheduleReconnect], daemon.ts)

    The asynchronous code is a transition system over the callbacks of
    the event loop: a timer fires, an awaited protocol call settles, a
    client emits [disconnect]. *)

Module Reconnect.

(** Where a running [connectCDP] is suspended. *)
Inductive Phase :=
| Connecting    (* awaiting [findTargetTab] / [CDP(...)] *)
| Enabling.     (* awaiting [Runtime.enable] / [Network.enable] *)

Inductive Task :=
| Boot (ph : Phase)                 (* the [connectCDP] of [startDaemon] *)
| Timer (delay : Z)                 (* [setTimeout(attempt, delay)] is armed *)
| Attempt (ph : Phase) (delay : Z). (* [attempt] runs [connectCDP] *)

Record State := mkState {
  connected : bool;
  reconnecting : bool;
  client : bool;
  listeners : nat;        (* clients whose [disconnect] listener can still fire *)
  tasks : list Task;
  timers : list Z         (* the delays passed to [setTimeout], in order *)
}.

Definition maxDelay : Z := 10000.

(** [scheduleReconnect(state)] *)
Definition scheduleReconnect (st : State) : State :=
  if reconnecting st then st
  else
    let delay := 1000 in
    {| connected := connected st;
       reconnecting := true;
       client := client st;
       listeners := listeners st;
       tasks := tasks st ++ [Timer delay];
       timers := timers st ++ [delay] |}.

(** The [catch] of [attempt]. *)
Definition nextDelay (delay : Z) : Z := Z.min (delay * 2) maxDelay.

Inductive Event :=
| Disconnect              (* a client emits [disconnect] *)
| Fire (i : nat)          (* the timer of task [i] fires *)
| Fail (i : nat)          (* the call task [i] awaits rejects *)
| Opened (i : nat)        (* [CDP(...)] of task [i] resolves *)
| Enabled (i : nat).      (* the [enable] calls of task [i] resolve *)

Definition setTask (st : State) (i : nat) (t : Task) : State :=
  {| connected := connected st; reconnecting := reconnecting st;
     client := client st; listeners := listeners st;
     tasks := <[i := t]> (tasks st); timers := timers st |}.

Definition dropTask (st : State) (i : nat) : State :=
  {| connected := connected st; reconnecting := reconnecting st;
     client := client st; listeners := listeners st;
     tasks := delete i (tasks st); timers := timers st |}.

(** [connectCDP] after [CDP(...)] resolved: the four assignments. *)
Definition opened (st : State) : State :=
  {| connected := true; reconnecting := false; client := true;
     listeners := listeners st; tasks := tasks st; timers := timers st |}.

(** One callback of the event loop; [None] when it cannot occur. *)
Definition step (st : State) (ev : Event) : option State :=
  match ev with
  | Disconnect =>
      match listeners st with
      | O => None
      | S n =>
          Some (scheduleReconnect
                  {| connected := false; reconnecting := reconnecting st;
                     client := false; listeners := n;
                     tasks := tasks st; timers := timers st |})
      end
  | Fire i =>
      match tasks st !! i with
      | Some (Timer delay) => Some (setTask st i (Attempt Connecting delay))
      | _ => None
      end
  | Fail i =>
      match tasks st !! i with
      | Some (Attempt _ delay) =>
          let delay' := nextDelay delay in
          Some {| connected := connected st; reconnecting := reconnecting st;
                  client := client st; listeners := listeners st;
                  tasks := <[i := Timer delay']> (tasks st);
                  timers := timers st ++ [delay'] |}
      | Some (Boot _) => Some (scheduleReconnect (dropTask st i))
      | _ => None
      end
  | Opened i =>
      match tasks st !! i with
      | Some (Attempt Connecting delay) =>
          Some (setTask (opened st) i (Attempt Enabling delay))
      | Some (Boot Connecting) => Some (setTask (opened st) i (Boot Enabling))
      | _ => None
      end
  | Enabled i =>
      match tasks st !! i with
      | Some (Attempt Enabling _) | Some (Boot Enabling) =>
          let st' := dropTask st i in
          Some {| connected := connected st'; reconnecting := reconnecting st';
                  client := client st'; listeners := S (listeners st');
                  tasks := tasks st'; timers := timers st' |}
      | _ => None
      end
  end.

Fixpoint run (st : State) (evs : list Event) : option State :=
  match evs with
  | [] => Some st
  | ev :: evs' => match step st ev with
                  | Some st' => run st' evs'
                  | None => None
                  end
  end.

(** [startDaemon] has built the state and called [connectCDP]. *)
Definition initial : State :=
  {| connected := false; reconnecting := false; client := false;
     listeners := 0; tasks := [Boot Connecting]; timers := [] |}.

Inductive reachable : State -> Prop :=
| reachable_initial : reachable initial
| reachable_step st ev st' : reachable st -> step st ev = Some st' -> reachable st'.

(** The reconnection loops in flight: armed timers and running attempts. *)
Definition isLoop (t : Task) : bool :=
  match t with
  | Boot _ => false
  | Timer _ | Attempt _ _ => true
  end.

Definition loopsInFlight (st : State) : nat := length (List.filter isLoop (tasks st)).

(** One failing attempt of the loop at task 0: the timer fires and the
    connection fails, before or after [CDP(...)] resolved. *)
Definition failedAttempt (afterOpen : bool) : list Event :=
  if afterOpen then [Fire 0%nat; Opened 0%nat; Fail 0%nat]
  else [Fire 0%nat; Fail 0%nat].

Definition enabling (t : Task) : bool :=
  match t with
  | Boot Enabling | Attempt Enabling _ => true
  | _ => false
  end.

(** What every reachable state satisfies: one activity at a time (the
    boot connection, a reconnection loop, or a live client), and a
    connection that has been opened has reset the flags. *)
Definition invariant (st : State) : Prop :=
  (length (tasks st) + listeners st <= 1)%nat
  /\ (listeners st = 1%nat -> reconnecting st = false /\ connected st = true)
  /\ (forall t, tasks st = [t] -> enabling t = true ->
        reconnecting st = false /\ connected st = true).

End Reconnect.

(** ** Vocabulary of the specification

    Notions the specification uses to describe the code; none of them is
    part of the program. *)

Module Spec.
Import Events Query.

(** How many console-error and exception events of the last 30 seconds
    carry the text [text]. *)
Definition recentErrorsWithText
    (thirtySecsAgo : string) (events : list BufferedEvent) (text : string) : Z :=
  Z.of_nat (length (List.filter
    (fun e => isRecentError thirtySecsAgo e && bool_decide (text_or_empty e = text))
    events)).

(** The leading decimal digit of a non-negative integer. *)
Fixpoint leadingDigitFuel (fuel : nat) (z : Z) : Z :=
  match fuel with
  | O => z
  | S fuel' => if decide (z < 10) then z else leadingDigitFuel fuel' (z / 10)
  end.

Definition leadingDigit (z : Z) : Z := leadingDigitFuel (Z.to_nat z) z.

(** A plain numeric token: one or more decimal digits and nothing else. *)
Fixpoint allDigits (t : string) : bool :=
  match t with
  | EmptyString => true
  | String a t' => bool_decide (is_Some (Ascii.is_nat a)) && allDigits t'
  end.

Definition plainNumeric (t : string) : bool :=
  negb (bool_decide (t = EmptyString)) && allDigits t.

(** The number a string of decimal digits denotes. *)
Fixpoint decimalFrom (acc : Z) (t : string) : Z :=
  match t with
  | EmptyString => acc
  | String a t' => decimalFrom (10 * acc + Z.of_nat (default 0%nat (Ascii.is_nat a))) t'
  end.

Definition decimalValue (t : string) : Z := decimalFrom 0 t.

(** A status filter as it is written: tokens separated by commas, each
    with any number of spaces before and after it.  A token is made of
    visible characters other than the comma. *)
Definition tokenChar (a : ascii) : bool :=
  let c := N_of_ascii a in
  (33 <=? c)%N && (c <=? 126)%N && negb (c =? 44)%N.

Fixpoint isToken (t : string) : bool :=
  match t with
  | EmptyString => true
  | String a t' => tokenChar a && isToken t'
  end.

Fixpoint spaces (n : nat) : string :=
  match n with
  | O => EmptyString
  | S k => String " "%char (spaces k)
  end.

Record Piece := mkPiece {
  spacesBefore : nat;
  token : string;
  spacesAfter : nat
}.

Definition written (p : Piece) : string :=
  spaces (spacesBefore p) +:+ token p +:+ spaces (spacesAfter p).

Fixpoint commaSeparated (ws : list string) : string :=
  match ws with
  | [] => EmptyString
  | [w] => w
  | w :: rest => w +:+ "," +:+ commaSeparated rest
  end.

Definition filterString (ps : list Piece) : string :=
  commaSeparated (written <$> ps).

(** The descriptors of a list of candidates, numbered from [r] on;
    [None] when one of them throws. *)
Fixpoint describeAll (doc : Dom.document)
    (querySelectorAll : option (list nat) -> string -> option (list (list nat)))
    (cands : list Snapshot.Candidate) (r : Z) : option (list Snapshot.SnapshotRef) :=
  match cands with
  | [] => Some []
  | c :: rest =>
      d ← Snapshot.describe doc querySelectorAll c r;
      ds ← describeAll doc querySelectorAll rest (r + 1);
      Some (d :: ds)
  end.

(** The [k]-th delay of a reconnection loop: 1000 ms doubled [k] times,
    capped at 10000 ms. *)
Definition backoff (k : nat) : Z := Z.min (1000 * 2 ^ Z.of_nat k) 10000.












(** The entry a table built from [els] holds for [r]: the last element
    of [els] numbered [r]. *)
Definition entryFor (r : Z) (els : list Snapshot.SnapshotRef) : option Snapshot.SnapshotRef :=
  last (List.filter (fun e => bool_decide (Snapshot.ref e = r)) els).

End Spec.

(** ** Sample pages

    Two small pages on which the snapshot routine is run below, with the
    answers a browser gives to the [querySelectorAll] calls the routine
    makes on them. *)

Module Samples.
Import Dom Snapshot.

Definition elem (tag : string) (attrs : list (string * string)) (text : string)
    (kids : list node) : node :=
  Node (mkElem tag attrs text false) kids None.

(** [<html><head/><body><button id="go">Go</button>
    <ul><li onclick>One</li><li onclick>Two</li></ul></body></html>] *)
Definition listPage : document :=
  [elem "HTML" [] "GoOneTwo"
     [elem "HEAD" [] "" [];
      elem "BODY" [] "GoOneTwo"
        [elem "BUTTON" [("id", "go")] "Go" [];
         elem "UL" [] "OneTwo"
           [elem "LI" [("onclick", "one()")] "One" [];
            elem "LI" [("onclick", "two()")] "Two" []]]]].

Definition goButton : Candidate := mkCandidate [0; 1; 0]%nat None.
Definition firstItem : Candidate := mkCandidate [0; 1; 1; 0]%nat None.
Definition secondItem : Candidate := mkCandidate [0; 1; 1; 1]%nat None.

(** On [listPage] each of the two paths selects its own [li]. *)
Definition listPageQuery (host : option (list nat)) (sel : string)
  : option (list (list nat)) :=
  if decide (sel = "body > ul > li:nth-of-type(1)") then Some [[0; 1; 1; 0]%nat]
  else if decide (sel = "body > ul > li:nth-of-type(2)") then Some [[0; 1; 1; 1]%nat]
  else if decide (sel = "li") then Some [[0; 1; 1; 0]%nat; [0; 1; 1; 1]%nat]
  else Some [].

(** The shadow root of [<my-widget>], the only child of [body]:
    [<section><div><a href/><a href/></div><button/></section>
     <div><a href/><a href/></div> <button/> <button/>] *)
Definition widgetRoot : list node :=
  [elem "SECTION" [] ""
     [elem "DIV" [] ""
        [elem "A" [("href", "/1")] "" []; elem "A" [("href", "/2")] "" []];
      elem "BUTTON" [] "" []];
   elem "DIV" [] ""
     [elem "A" [("href", "/3")] "" []; elem "A" [("href", "/4")] "" []];
   elem "BUTTON" [] "" [];
   elem "BUTTON" [] "" []].

Definition widgetPage : document :=
  [elem "HTML" [] ""
     [elem "BODY" [] ""
        [Node (mkElem "MY-WIDGET" [] "" false) [] (Some widgetRoot)]]].

Definition widgetHost : list nat := [0; 0; 0]%nat.

(** The second of the two links of the top-level [div]. *)
Definition fourthLink : Candidate := mkCandidate [1; 1]%nat (Some widgetHost).

(** In the shadow root, [div > a:nth-of-type(2)] selects the second
    link of either [div], [button] the three buttons and [a] the four
    links, in tree order. *)
Definition widgetQuery (host : option (list nat)) (sel : string)
  : option (list (list nat)) :=
  if decide (host = Some widgetHost) then
    if decide (sel = "div > a:nth-of-type(2)") then Some [[0; 0; 1]%nat; [1; 1]%nat]
    else if decide (sel = "a")
    then Some [[0; 0; 0]%nat; [0; 0; 1]%nat; [1; 0]%nat; [1; 1]%nat]
    else if decide (sel = "button") then Some [[0; 1]%nat; [2]%nat; [3]%nat]
    else Some []
  else Some [].

End Samples.

(** ** HTTP router ([addRoute], [matchRoute], daemon.ts)

    [addRoute] turns a path into a regular expression: the path, in
    which every [:name] has become a group of one or more characters
    other than [/], then an optional [?] with the rest of the line, then
    the end of the input.  The model keeps the expression as a list of
    tokens and runs it the way a backtracking matcher does, greedy groups
    first. *)

Module Router.

Inductive Token :=
| Lit (a : ascii)     (* a character that stands for itself *)
| Group.              (* one or more characters other than [/], captured *)

(** [\w] *)
Definition wordChar (a : ascii) : bool :=
  let c := N_of_ascii a in
  ((48 <=? c)%N && (c <=? 57)%N) || ((65 <=? c)%N && (c <=? 90)%N)
  || ((97 <=? c)%N && (c <=? 122)%N) || (c =? 95)%N.

(** The characters a regular expression gives a meaning of their own; a
    path that contains one is outside this model. *)
Definition metaChar (a : ascii) : bool :=
  bool_decide (a ∈ ["\"; "^"; "$"; "."; "|"; "?"; "*"; "+"; "("; ")";
                    "["; "]"; "{"; "}"]%char).

Definition startsWithWord (s : string) : bool :=
  match s with
  | EmptyString => false
  | String a _ => wordChar a
  end.

(** [path.replace(/:(\w+)/g, ...)]: the tokens of the expression and the
    parameter names, in order.  [name] is the parameter name being read. *)
Fixpoint compile (name : option string) (s : string)
  : option (list Token * list string) :=
  match s with
  | EmptyString => Some ([], match name with Some n => [n] | None => [] end)
  | String a s' =>
      let other :=
        if bool_decide (a = ":"%char) && startsWithWord s'
        then '(ts, ns) ← compile (Some EmptyString) s'; Some (Group :: ts, ns)
        else if metaChar a then None
        else '(ts, ns) ← compile None s'; Some (Lit a :: ts, ns) in
      match name with
      | Some n =>
          if wordChar a then compile (Some (n +:+ String a EmptyString)) s'
          else '(ts, ns) ← other; Some (ts, n :: ns)
      | None => other
      end
  end.

(** The rest of the line: any characters but a line terminator. *)
Fixpoint oneLine (s : string) : bool :=
  match s with
  | EmptyString => true
  | String a s' => negb (bool_decide (a = "010"%char \/ a = "013"%char)) && oneLine s'
  end.

(** The end of the expression: nothing, or [?] and the rest of the line,
    up to the end of the input. *)
Definition matchTail (s : string) : bool :=
  match s with
  | EmptyString => true
  | String a s' => bool_decide (a = "?"%char) && oneLine s'
  end.

(** A group followed by the rest of the expression [rest]: it takes as
    many characters as it can and gives them back one by one until [rest]
    matches; [taken] is what it has taken so far. *)
Fixpoint grab (rest : string -> option (list string)) (taken : string) (s : string)
  : option (list string) :=
  let here :=
    if bool_decide (taken = EmptyString) then None
    else cs ← rest s; Some (taken :: cs) in
  match s with
  | EmptyString => here
  | String b s' =>
      if bool_decide (b = "/"%char) then here
      else match grab rest (taken +:+ String b EmptyString) s' with
           | Some r => Some r
           | None => here
           end
  end.

(** The expression run on [s] from its first character: the texts of the
    groups of the first match in backtracking order, [None] when there is
    no match. *)
Fixpoint matchTokens (ts : list Token) : string -> option (list string) :=
  match ts with
  | [] => fun s => if matchTail s then Some [] else None
  | Lit a :: ts' =>
      fun s =>
        match s with
        | EmptyString => None
        | String b s' => if bool_decide (a = b) then matchTokens ts' s' else None
        end
  | Group :: ts' => grab (matchTokens ts') EmptyString
  end.

Section Routes.
Context {H : Type}.

Record Route := mkRoute {
  method : string;
  tokens : list Token;
  paramNames : list string;
  handler : H
}.

(** [addRoute(method, path, handler)]; [None] for a path outside the
    model. *)
Definition addRoute (routes : list Route) (method path : string) (handler : H)
  : option (list Route) :=
  '(ts, ns) ← compile None path;
  Some (routes ++ [mkRoute method ts ns handler]).

(** [paramNames.forEach((name, i) => params[name] = match[i + 1])] *)
Definition bindParams (names captures : list string) : list (string * string) :=
  zip names captures.

(** [matchRoute(method, url)] *)
Fixpoint matchRoute (routes : list Route) (m url : string)
  : option (H * list (string * string)) :=
  match routes with
  | [] => None
  | route :: rest =>
      if negb (bool_decide (method route = m)) then matchRoute rest m url
      else match matchTokens (tokens route) url with
           | Some captures => Some (handler route, bindParams (paramNames route) captures)
           | None => matchRoute rest m url
           end
  end.
End Routes.

Arguments Route : clear implicits.

(** The handlers of [registerEndpoints], in the order it registers them. *)
Inductive Endpoint :=
| Status | Errors | ErrorsSummary | Console | Network | Screenshot | Extensions
| ExtensionErrors | ReloadExt | ReloadPage | Navigate | Eval | Clear | Snapshot
| Inspect | Click | Fill.

Definition registered : list (string * string * Endpoint) :=
  [("GET", "/status", Status);
   ("GET", "/errors", Errors);
   ("GET", "/errors/summary", ErrorsSummary);
   ("GET", "/console", Console);
   ("GET", "/network", Network);
   ("GET", "/screenshot", Screenshot);
   ("GET", "/extensions", Extensions);
   ("GET", "/extension/:id/errors", ExtensionErrors);
   ("POST", "/reload-ext/:id", ReloadExt);
   ("POST", "/reload-page", ReloadPage);
   ("POST", "/navigate", Navigate);
   ("POST", "/eval", Eval);
   ("POST", "/clear", Clear);
   ("GET", "/snapshot", Snapshot);
   ("GET", "/inspect", Inspect);
   ("POST", "/click", Click);
   ("POST", "/fill", Fill)].

(** The [routes] array once [registerEndpoints] has run. *)
Definition registerEndpoints : option (list (Route Endpoint)) :=
  foldl (fun routes '(m, p, h) => rs ← routes; addRoute rs m p h) (Some []) registered.

Definition daemonRoutes : list (Route Endpoint) := default [] registerEndpoints.

(** The reply of the server when no route matches. *)
Definition dispatch (m url : string) : Endpoint + (Z * string) :=
  match matchRoute daemonRoutes m url with
  | Some (h, _) => inl h
  | None => inr (404, "not found")
  end.

(** The literal tokens of a string. *)
Fixpoint lits (s : string) : list Token :=
  match s with
  | EmptyString => []
  | String a s' => Lit a :: lits s'
  end.

(** [s] has no [/]. *)
Fixpoint noSlash (s : string) : bool :=
  match s with
  | EmptyString => true
  | String a s' => negb (bool_decide (a = "/"%char)) && noSlash s'
  end.

(** A path made of characters that stand for themselves, without
    parameter. *)
Fixpoint plainPath (s : string) : bool :=
  match s with
  | EmptyString => true
  | String a s' => negb (metaChar a) && negb (bool_decide (a = ":"%char)) && plainPath s'
  end.

End Router.

(** ** Event normaliser (the callbacks of [connectCDP], [serializeArgs],
    [detectSource], daemon.ts) *)

Module Normalizer.
Import Events.

(** [s.includes(pat)] *)
Fixpoint includes (s pat : string) : bool :=
  Stdlib.Strings.String.prefix pat s
  || match s with
     | EmptyString => false
     | String _ s' => includes s' pat
     end.

Record Frame := mkFrame { url : string }.

(** [stackTrace?: { callFrames?: Array<{ url }> }] *)
Record StackTrace := mkStack { callFrames : option (list Frame) }.

(** The [for] loop of [detectSource], with its early [return]. *)
Fixpoint scanFrames (frames : list Frame) : source :=
  match frames with
  | [] => Page
  | frame :: rest =>
      if includes (url frame) "chrome-extension://" then Extension
      else scanFrames rest
  end.

(** [detectSource(stackTrace)] *)
Definition detectSource (stackTrace : option StackTrace) : source :=
  match stackTrace with
  | None => Unknown
  | Some st =>
      match callFrames st with
      | None => Unknown
      | Some frames => scanFrames frames
      end
  end.

(** The [value] of a console argument: absent, [null], a string, or
    anything else with what [String(...)] makes of it. *)
Inductive Val :=
| VUndefined
| VNull
| VString (s : string)
| VOther (shown : string).

(** [String(v)] *)
Definition toStr (v : Val) : string :=
  match v with
  | VUndefined => "undefined"
  | VNull => "null"
  | VString s => s
  | VOther shown => shown
  end.

(** How [Array.prototype.join] renders an element. *)
Definition joined (v : Val) : string :=
  match v with
  | VUndefined | VNull => EmptyString
  | _ => toStr v
  end.

Record ConsoleArg := mkArg {
  atype : string;
  value : Val;
  description : option string;
  preview : option (option (list (string * string)))   (* [preview?.properties] *)
}.

(** The callback of [args.map] in [serializeArgs]. *)
Definition serializeArg (arg : ConsoleArg) : Val :=
  if bool_decide (atype arg = "string") then value arg
  else if bool_decide (atype arg = "number") || bool_decide (atype arg = "boolean")
  then VString (toStr (value arg))
  else if bool_decide (atype arg = "undefined") then VString "undefined"
  else
    match (if bool_decide (atype arg = "object")
           then mjoin (preview arg) else None) with
    | Some properties =>
        let props := Snapshot.join ", " ((fun p => fst p +:+ ": " +:+ snd p) <$> properties) in
        VString ("{ " +:+ props +:+ " }")
    | None =>
        match description arg with
        | Some d => VString d
        | None =>
            VString (toStr match value arg with
                           | VUndefined | VNull => VString (atype arg)
                           | v => v
                           end)
        end
    end.

(** [serializeArgs(args)] *)
Definition serializeArgs (args : list ConsoleArg) : string :=
  Snapshot.join " " (joined <$> (serializeArg <$> args)).

Record Counts := mkCounts { console : Z; network : Z; exception : Z }.

(** What the callbacks share: the buffer and the counters of the daemon
    state, and the [requestUrls] map of the connection. *)
Record Collector := mkCollector {
  buffer : RingBuffer.t BufferedEvent;
  eventCounts : Counts;
  requestUrls : gmap string string
}.

(** The events the protocol client delivers. *)
Inductive Callback :=
| ConsoleAPICalled (type : string) (args : list ConsoleArg) (stackTrace : option StackTrace)
| ExceptionThrown (text description : option string) (stackTrace : option StackTrace)
| RequestWillBeSent (requestId method url : string)
| ResponseReceived (requestId : string) (status : Z) (url : string)
| LoadingFailed (requestId errorText type : string).

(** The event a callback builds; [now] is [now()]. *)
Definition eventOf (st : Collector) (now : string) (cb : Callback) : BufferedEvent :=
  match cb with
  | ConsoleAPICalled type args stackTrace =>
      let text := serializeArgs args in
      let level := if bool_decide (type = "warning") then "warn" else type in
      mkEvent now None (Console level text) (detectSource stackTrace)
  | ExceptionThrown text description stackTrace =>
      let text' :=
        match description with
        | Some d => d
        | None => default "Unknown exception" text
        end in
      mkEvent now None (Exception text') (detectSource stackTrace)
  | RequestWillBeSent _ method url => mkEvent now None (Request method url) Unknown
  | ResponseReceived _ status url => mkEvent now None (Response status url) Unknown
  | LoadingFailed requestId errorText type =>
      let url := default EmptyString (requestUrls st !! requestId) in
      mkEvent now None (NetworkError errorText type url) Unknown
  end.

Section Handlers.
(** What reading an empty slot of the buffer gives. *)
Variable undefined : BufferedEvent.

(** One callback: the map is updated, the event is pushed, one counter
    goes up. *)
Definition handle (st : Collector) (now : string) (cb : Callback) : Collector :=
  let ev := eventOf st now cb in
  let counts := eventCounts st in
  match cb with
  | ConsoleAPICalled _ _ _ =>
      mkCollector (RingBuffer.push undefined (buffer st) ev)
        (mkCounts (console counts + 1) (network counts) (exception counts))
        (requestUrls st)
  | ExceptionThrown _ _ _ =>
      mkCollector (RingBuffer.push undefined (buffer st) ev)
        (mkCounts (console counts) (network counts) (exception counts + 1))
        (requestUrls st)
  | RequestWillBeSent requestId _ url =>
      mkCollector (RingBuffer.push undefined (buffer st) ev)
        (mkCounts (console counts) (network counts + 1) (exception counts))
        (<[requestId := url]> (requestUrls st))
  | ResponseReceived requestId _ _ =>
      mkCollector (RingBuffer.push undefined (buffer st) ev)
        (mkCounts (console counts) (network counts + 1) (exception counts))
        (delete requestId (requestUrls st))
  | LoadingFailed requestId _ _ =>
      mkCollector (RingBuffer.push undefined (buffer st) ev)
        (mkCounts (console counts) (network counts + 1) (exception counts))
        (delete requestId (requestUrls st))
  end.

(** [POST /clear] *)
Definition clearHandler (st : Collector) : Collector :=
  mkCollector (RingBuffer.clear undefined (buffer st)) (mkCounts 0 0 0) (requestUrls st).

(** A later [connectCDP] registers callbacks that share a new, empty
    [requestUrls]. *)
Definition reconnected (st : Collector) : Collector :=
  mkCollector (buffer st) (eventCounts st) ∅.

Inductive Step :=
| Called (now : string) (cb : Callback)
| Cleared
| Reconnected.

Definition step (st : Collector) (s : Step) : Collector :=
  match s with
  | Called now cb => handle st now cb
  | Cleared => clearHandler st
  | Reconnected => reconnected st
  end.

(** The state [startDaemon] builds, for a buffer of [capacity] slots
    (10000 in the daemon). *)
Definition fresh (capacity : Z) : Collector :=
  mkCollector (RingBuffer.new undefined capacity) (mkCounts 0 0 0) ∅.

Definition run (capacity : Z) (steps : list Step) : Collector :=
  foldl step (fresh capacity) steps.
End Handlers.

Definition total (c : Counts) : Z := console c + network c + exception c.

(** The URL on record for a request after a history of steps: that of its
    last [requestWillBeSent], unless a response, a failure or a
    reconnection came after it. *)
Definition pendingAfter (id : string) (pending : option string) (s : Step)
  : option string :=
  match s with
  | Called _ (RequestWillBeSent requestId _ url) =>
      if bool_decide (requestId = id) then Some url else pending
  | Called _ (ResponseReceived requestId _ _) =>
      if bool_decide (requestId = id) then None else pending
  | Called _ (LoadingFailed requestId _ _) =>
      if bool_decide (requestId = id) then None else pending
  | Called _ _ => pending
  | Cleared => pending
  | Reconnected => None
  end.

Definition pendingUrl (steps : list Step) (id : string) : option string :=
  foldl (pendingAfter id) None steps.

(** What the normaliser guarantees of an event. *)
Definition wellShaped (e : BufferedEvent) : Prop :=
  label e = None
  /\ match body e with
     | Console level _ => level <> "warning"
     | Exception _ => True
     | Request _ _ | Response _ _ | NetworkError _ _ _ => src e = Unknown
     | Screenshot _ => False
     end.

End Normalizer.

(** A step that leaves the URL on record for [id] alone. *)
Definition quietFor (id : string) (s : Normalizer.Step) : bool :=
  match s with
  | Normalizer.Called _ (Normalizer.RequestWillBeSent requestId _ _)
  | Normalizer.Called _ (Normalizer.ResponseReceived requestId _ _)
  | Normalizer.Called _ (Normalizer.LoadingFailed requestId _ _) =>
      negb (bool_decide (requestId = id))
  | Normalizer.Called _ _ => true
  | Normalizer.Cleared => true
  | Normalizer.Reconnected => false
  end.

(** What the callbacks keep true of the buffer: it is the ring buffer of
    the events pushed since the last clear, the counters count them, and
    each of them is well shaped. *)
Definition collecting (c : Z) (st : Normalizer.Collector) : Prop :=
  exists xs,
    RingBuffer.holds c xs (Normalizer.buffer st)
    /\ Z.of_nat (length xs) = Normalizer.total (Normalizer.eventCounts st)
    /\ 0 <= Normalizer.console (Normalizer.eventCounts st) /\ 0 <= Normalizer.network (Normalizer.eventCounts st)
    /\ 0 <= Normalizer.exception (Normalizer.eventCounts st)
    /\ Forall Normalizer.wellShaped xs.

(** ** Sample protocol traffic *)

Module Traffic.
Import Events Normalizer.

(** The content of a buffer slot that was never written. *)
Definition hole : BufferedEvent := mkEvent EmptyString None (Screenshot EmptyString) Unknown.

(** A request that fails while another one is answered. *)
Definition failing : list Step :=
  [Called "2026-01-01T00:00:01.000Z" (RequestWillBeSent "7" "GET" "https://example.com/a");
   Called "2026-01-01T00:00:02.000Z" (RequestWillBeSent "8" "GET" "https://example.com/b");
   Called "2026-01-01T00:00:03.000Z"
     (ConsoleAPICalled "warning" [mkArg "string" (VString "slow") None None] None);
   Called "2026-01-01T00:00:04.000Z" (ResponseReceived "8" 200 "https://example.com/b")].

(** Three errors and a successful response in between. *)
Definition mixed : list BufferedEvent :=
  [mkEvent "2026-01-01T00:00:01.000Z" None (Exception "TypeError: x is undefined") Page;
   mkEvent "2026-01-01T00:00:02.000Z" None (Response 200 "https://example.com/a") Unknown;
   mkEvent "2026-01-01T00:00:03.000Z" None (Response 404 "https://example.com/b") Unknown;
   mkEvent "2026-01-01T00:00:04.000Z" None (Console "error" "failed to load") Extension].

(** A buffer of capacity 8 after these four events. *)
Definition mixedBuffer : RingBuffer.t BufferedEvent :=
  foldl (RingBuffer.push hole) (RingBuffer.new hole 8) mixed.

End Traffic.

(** ** The error endpoints ([GET /errors], [GET /errors/summary],
    [GET /inspect], daemon.ts) *)

Module Endpoints.
Import Events Query.

(** [q.get(k) ? parseInt(q.get(k)!, 10) : undefined] *)
Definition intParam (p : option string) : option JS.number :=
  if JS.truthy_opt p then Some (Str.parseInt (default EmptyString p)) else None.

(** The value of the [source] field. *)
Definition sourceName (s : source) : string :=
  match s with
  | Page => "page"
  | Extension => "extension"
  | Unknown => "unknown"
  end.

Section WithBuffer.
Variable undefined : BufferedEvent.
(** The ISO timestamp of [Date.now() - minutes * 60 * 1000]. *)
Variable cutoffFor : Z -> string.

(** The filter [GET /errors] passes to [query]. *)
Definition errorsQueryFilter (minutes : option JS.number) (source : option string)
  : BufferedEvent -> bool :=
  let filter := errorsFilter in
  let filter :=
    match minutes with
    | Some (JS.Num m) =>
        if JS.truthy (JS.Num m)
        then fun e => filter e && minutesFilter (cutoffFor m) e
        else filter
    | _ => filter
    end in
  if JS.truthy_opt source
  then fun e => filter e && bool_decide (sourceName (src e) = default EmptyString source)
  else filter.

(** [GET /errors]; the parameters are those of the query string, [null]
    when absent. *)
Definition errorsHandler (thirtySecsAgo : string) (rb : RingBuffer.t BufferedEvent)
    (last minutes source : option string) : list Annotated :=
  let events :=
    RingBuffer.query undefined rb
      (Some (errorsQueryFilter (intParam minutes) source)) (intParam last) in
  addFrequency thirtySecsAgo events.

Definition isConsoleError (e : BufferedEvent) : bool :=
  match body e with
  | Console level _ => bool_decide (level = "error")
  | _ => false
  end.

Definition isException (e : BufferedEvent) : bool :=
  match body e with
  | Exception _ => true
  | _ => false
  end.

Definition isFailedRequest (e : BufferedEvent) : bool :=
  match body e with
  | Response status _ => bool_decide (400 <= status)
  | NetworkError _ _ _ => true
  | _ => false
  end.

(** [`${n} ${noun}${n > 1 ? "s" : ""}`] *)
Definition counted (n : Z) (noun : string) : string :=
  pretty n +:+ " " +:+ noun +:+ (if decide (1 < n) then "s" else EmptyString).

(** The [parts] of the summary. *)
Definition summaryParts (consoleErrors exceptions failedRequests : Z) : list string :=
  (if decide (0 < consoleErrors) then [counted consoleErrors "error"] else [])
  ++ (if decide (0 < exceptions) then [counted exceptions "exception"] else [])
  ++ (if decide (0 < failedRequests) then [counted failedRequests "failed request"] else []).

(** [GET /errors/summary]: the [summary] and the [total]. *)
Definition summaryHandler (rb : RingBuffer.t BufferedEvent) : string * Z :=
  let errors := RingBuffer.query undefined rb (Some errorsSummaryFilter) None in
  let consoleErrors := Z.of_nat (length (List.filter isConsoleError errors)) in
  let exceptions := Z.of_nat (length (List.filter isException errors)) in
  let failedRequests := Z.of_nat (length (List.filter isFailedRequest errors)) in
  let parts := summaryParts consoleErrors exceptions failedRequests in
  (if decide (0 < length parts)%nat then Snapshot.join ", " parts else "no errors",
   Z.of_nat (length errors)).

(** An entry of [recentErrors]. *)
Record RecentError := mkRecent {
  rtype : string;
  rtext : option string;
  rstatus : option Z;
  rerror : option string;
  rurl : option string
}.

(** The callback of [allErrors.slice(-5).map]. *)
Definition recentError (e : BufferedEvent) : RecentError :=
  match body e with
  | Console _ text => mkRecent "console" (Some text) None None None
  | Exception text => mkRecent "exception" (Some text) None None None
  | Response status url => mkRecent "response" None (Some status) None (Some url)
  | NetworkError error _ url => mkRecent "network_error" None None (Some error) (Some url)
  | Request _ _ => mkRecent "request" None None None None
  | Screenshot _ => mkRecent "screenshot" None None None None
  end.

(** The error counts and the recent errors of [GET /inspect]. *)
Definition inspectErrors (rb : RingBuffer.t BufferedEvent)
  : (Z * Z * Z) * list RecentError :=
  let allErrors := RingBuffer.query undefined rb (Some inspectFilter) None in
  ((Z.of_nat (length (List.filter isConsoleError allErrors)),
    Z.of_nat (length (List.filter isException allErrors)),
    Z.of_nat (length (List.filter isFailedRequest allErrors))),
   recentError <$> JS.array_slice allErrors (-5)).
End WithBuffer.

End Endpoints.

(** ** Resolving a selector in the page ([resolveSelectorExpr],
    [buildClickExpression], [buildFillExpression], daemon.ts) *)

Module Resolve.

(** [s.split(sep)] for a separator of one character or more: the pieces
    between the occurrences of [sep], found from left to right.  [skip]
    counts the characters of the occurrence just found that are still to
    be passed over. *)
Fixpoint split (sep : string) (skip : nat) (s : string) : list string :=
  match s with
  | EmptyString => [EmptyString]
  | String a s' =>
      match skip with
      | S k => split sep k s'
      | O =>
          if Stdlib.Strings.String.prefix sep s
          then EmptyString :: split sep (Stdlib.Strings.String.length sep - 1) s'
          else match split sep 0 s' with
               | [] => [String a EmptyString]
               | w :: ws => String a w :: ws
               end
      end
  end.

(** An element of a destructured array, converted to a string where it
    is used as a selector. *)
Definition part (parts : list string) (i : nat) : string := nth i parts "undefined".

Section WithPage.
Variable Element : Type.
(** [document.querySelector(sel)] (root [None]) and
    [host.shadowRoot.querySelector(sel)] (root [Some host]): the element
    or [null]; [None] when the call throws. *)
Variable querySelector : option Element -> string -> option (option Element).
(** [host.shadowRoot] is not [null]. *)
Variable hasShadowRoot : Element -> bool.

(** [resolve()] of the click and fill expressions. *)
Definition resolve (sel : string) : option (option Element) :=
  if Normalizer.includes sel ">>>"
  then
    let parts := split ">>>" 0 sel in
    let hostSel := part parts 0 in
    let innerSel := part parts 1 in
    host ← querySelector None hostSel;
    match host with
    | None => Some None
    | Some h =>
        if hasShadowRoot h then querySelector (Some h) innerSel else Some None
    end
  else querySelector None sel.
End WithPage.

End Resolve.

(** ** Reloading an extension ([POST /reload-ext/:id], daemon.ts) *)

Module ReloadExt.

Record RuntimeError := mkError { message : string; occurrences : Z }.

Record ExtensionInfo := mkExt {
  id : string;
  name : string;
  version : string;
  enabled : bool;
  errorCount : Z;
  runtimeErrors : list RuntimeError
}.

(** [new Set(array)]: the distinct elements in the order of their first
    occurrence. *)
Definition setAdd (s : list string) (x : string) : list string :=
  if bool_decide (x ∈ s) then s else s ++ [x].

Definition setOf (l : list string) : list string := foldl setAdd [] l.

(** [set.has(x)] *)
Definition has (s : list string) (x : string) : bool := bool_decide (x ∈ s).

(** [exts.find((e) => e.id === id)] *)
Definition findExt (exts : list ExtensionInfo) (pid : string) : option ExtensionInfo :=
  List.find (fun e => bool_decide (id e = pid)) exts.

Record Diff := mkDiff {
  newErrors : list string;
  resolvedErrors : list string;
  unchanged : Z
}.

Definition messagesOf (ext : option ExtensionInfo) : list string :=
  match ext with
  | Some e => message <$> runtimeErrors e
  | None => []
  end.

Definition diff (extBefore : ExtensionInfo) (extAfter : option ExtensionInfo) : Diff :=
  let beforeErrors := setOf (message <$> runtimeErrors extBefore) in
  let afterErrors := setOf (messagesOf extAfter) in
  {| newErrors := List.filter (fun e => negb (has beforeErrors e)) afterErrors;
     resolvedErrors := List.filter (fun e => negb (has afterErrors e)) beforeErrors;
     unchanged := Z.of_nat (length (List.filter (fun e => has beforeErrors e) afterErrors)) |}.

(** The protocol evaluations the handler issues on the extensions page. *)
Inductive Call := QueryExtensions | Reload (pid : string).

Inductive Reply :=
| NotFound (error : string)                                   (* status 404 *)
| Reloaded (name version : string) (errorCount : Z) (d : Diff).

(** The handler on the path where the evaluations succeed: [exts] and
    [afterExts] are the values of the two extension queries. *)
Definition reloadExt (pid : string) (exts afterExts : list ExtensionInfo)
  : list Call * Reply :=
  match findExt exts pid with
  | None => ([QueryExtensions], NotFound ("Extension " +:+ pid +:+ " not found"))
  | Some extBefore =>
      let extAfter := findExt afterExts pid in
      ([QueryExtensions; Reload pid; QueryExtensions],
       Reloaded (default (name extBefore) (name <$> extAfter))
                (default (version extBefore) (version <$> extAfter))
                (default 0 (errorCount <$> extAfter))
                (diff extBefore extAfter))
  end.

(** What the handler the router selects for a request replies. *)
Definition serve (method url : string) (exts afterExts : list ExtensionInfo)
  : option (list Call * Reply) :=
  match Router.matchRoute Router.daemonRoutes method url with
  | Some (Router.ReloadExt, params) =>
      match params with
      | [(_, pid)] => Some (reloadExt pid exts afterExts)
      | _ => None
      end
  | _ => None
  end.

End ReloadExt.

(** ** Connecting with retries ([cdpConnect], daemon.ts) *)

Module Connect.

Inductive Outcome (C : Type) :=
| Opened (c : C)
| Refused (err : string).
Arguments Opened {C} _.
Arguments Refused {C} _.

Inductive Result (C : Type) :=
| Returned (c : C)
| Thrown (err : string).
Arguments Returned {C} _.
Arguments Thrown {C} _.

(** What a run did: the loop counters at which [CDP(...)] was called,
    the sleeps taken (in ms), and how it ended. *)
Record Run (C : Type) := mkRun {
  attempts : list Z;
  sleeps : list Z;
  result : Result C
}.
Arguments mkRun {C} _ _ _.
Arguments attempts {C} _.
Arguments sleeps {C} _.
Arguments result {C} _.

Section Retry.
Variable C : Type.
(** The outcome of the call [CDP({ target, port })] made with loop
    counter [i]. *)
Variable attempt : Z -> Outcome C.

(** The [for] loop from counter [i] on; [fuel] bounds the iterations. *)
Fixpoint loop (retries : Z) (fuel : nat) (i : Z) : option (Run C) :=
  if i <? retries
  then
    match fuel with
    | O => None
    | S fuel' =>
        match attempt i with
        | Opened c => Some (mkRun [i] [] (Returned c))
        | Refused err =>
            if i =? retries - 1
            then Some (mkRun [i] [] (Thrown err))
            else
              r ← loop retries fuel' (i + 1);
              Some (mkRun (i :: attempts r) (200 * (i + 1) :: sleeps r) (result r))
        end
    end
  else Some (mkRun [] [] (Thrown "CDP connection failed")).

Definition cdpConnect (retries : Z) : option (Run C) :=
  loop retries (Z.to_nat retries) 0.
End Retry.

End Connect.

(** ** Finding the configuration file ([findConfigFile], config.ts) *)

Module Config.

Definition CONFIG_FILENAMES : list string := ["agent-crx.json"; "agent-crx.config.json"].

Section WithFiles.
(** A resolved directory is the list of its components, innermost first;
    the root directory is [[]].  [existsSync dir name] tells whether the
    file [name] exists in [dir]. *)
Variable existsSync : list string -> string -> bool.

(** The inner [for] loop with its [return]. *)
Definition candidateIn (dir : list string) : option string :=
  List.find (existsSync dir) CONFIG_FILENAMES.

(** The [while (dir !== root)] loop; [dirname] drops the innermost
    component. *)
Fixpoint findConfigFile (dir : list string) : option (list string * string) :=
  match dir with
  | [] => None
  | _ :: parent =>
      match candidateIn dir with
      | Some filename => Some (dir, filename)
      | None => findConfigFile parent
      end
  end.
End WithFiles.

End Config.

(** ** Text output ([formatSnapshot], [formatElementRef], snapshot.ts;
    [formatInspect], inspect.ts) *)

Module Format.
Import Snapshot.

Record ExtInfo := mkExtInfo {
  extName : string;
  extVersion : string;
  extErrorCount : Z
}.

Definition newline : string := String "010"%char EmptyString.

(** [el.href.length > 60 ? el.href.slice(0, 57) + "..." : el.href] *)
Definition shownHref (href : string) : string :=
  if decide (60 < Stdlib.Strings.String.length href)%nat
  then Stdlib.Strings.String.substring 0 57 href +:+ "..."
  else href.

(** [formatElementRef] *)
Definition formatElementRef (el : SnapshotRef) : string :=
  let parts := [if JS.truthy_opt (role el) then default EmptyString (role el) else tag el] in
  let parts :=
    if JS.truthy_opt (type el) && bool_decide (tag el = "input")
    then parts ++ ["[" +:+ default EmptyString (type el) +:+ "]"] else parts in
  let parts :=
    if bool_decide (disabled el = Some true) then parts ++ ["(disabled)"] else parts in
  let parts :=
    if JS.truthy_string (text el)
    then parts ++ [Css.dquote +:+ text el +:+ Css.dquote]
    else if JS.truthy_opt (href el)
    then parts ++ [shownHref (default EmptyString (href el))]
    else parts in
  join " " parts.

Definition extensionLine (ext : ExtInfo) : string :=
  let errors :=
    if decide (0 < extErrorCount ext)
    then ", " +:+ pretty (extErrorCount ext) +:+ " error"
         +:+ (if decide (1 < extErrorCount ext) then "s" else EmptyString)
    else EmptyString in
  "Extension: " +:+ extName ext +:+ " v" +:+ extVersion ext +:+ " (loaded" +:+ errors +:+ ")".

Definition watchLine (w : string * string * bool) : string :=
  let '(wlabel, wselector, found) := w in
  "  [" +:+ (if found then "OK" else "MISSING") +:+ "] " +:+ wlabel +:+ ": " +:+ wselector.

(** The [lines] of [formatSnapshot]. *)
Definition snapshotLines (result : Daemon.SnapshotResult) (extInfo : option ExtInfo)
  : list string :=
  let lines := ["URL: " +:+ Daemon.url result; "Title: " +:+ Daemon.title result] in
  let lines :=
    match extInfo with
    | Some ext => lines ++ [extensionLine ext]
    | None => lines
    end in
  let lines :=
    if decide (0 < length (Daemon.watchlist result))%nat
    then lines ++ [EmptyString; "DOM watchlist:"] ++ (watchLine <$> Daemon.watchlist result)
    else lines in
  let lines :=
    if decide (0 < length (Daemon.interactiveElements result))%nat
    then lines
         ++ [EmptyString;
             "Interactive elements ("
             +:+ pretty (Z.of_nat (length (Daemon.interactiveElements result))) +:+ "):"]
         ++ ((fun el => "  @" +:+ pretty (ref el) +:+ " " +:+ formatElementRef el)
               <$> Daemon.interactiveElements result)
    else lines in
  lines.

Definition formatSnapshot (result : Daemon.SnapshotResult) (extInfo : option ExtInfo)
  : string :=
  join newline (snapshotLines result extInfo).

Record InspectResult := mkInspect {
  iurl : string;
  ititle : string;
  ireadyState : string;
  iextension : option ExtInfo;
  ierrors : Z * Z * Z;                     (* console, exceptions, failedRequests *)
  irecentErrors : list Endpoints.RecentError;
  iscreenshotPath : option string;
  iwatchlist : list (string * string * bool);
  iinteractiveElements : list SnapshotRef
}.

(** The [msg] of a recent error. *)
Definition recentMessage (e : Endpoints.RecentError) : string :=
  match Endpoints.rtext e with
  | Some t => t
  | None =>
      if JS.truthy_opt (Endpoints.rerror e)
      then default EmptyString (Endpoints.rerror e)
           +:+ (if JS.truthy_opt (Endpoints.rurl e)
                then " " +:+ default EmptyString (Endpoints.rurl e)
                else EmptyString)
      else
        match Endpoints.rstatus e with
        | Some s =>
            if negb (s =? 0)
            then pretty s +:+ " " +:+ default "undefined" (Endpoints.rurl e)
            else "unknown"
        | None => "unknown"
        end
  end.

Definition recentLine (e : Endpoints.RecentError) : string :=
  "  [" +:+ Endpoints.rtype e +:+ "] " +:+ recentMessage e.

(** The element line of [formatInspect], written out in its loop. *)
Definition inspectElementLine (el : SnapshotRef) : string :=
  let parts := [tag el] in
  let parts :=
    if JS.truthy_opt (role el) then <[0%nat := default EmptyString (role el)]> parts
    else parts in
  let parts :=
    if JS.truthy_opt (type el) && bool_decide (tag el = "input")
    then parts ++ ["[" +:+ default EmptyString (type el) +:+ "]"] else parts in
  let parts :=
    if bool_decide (disabled el = Some true) then parts ++ ["(disabled)"] else parts in
  let parts :=
    if JS.truthy_string (text el)
    then parts ++ [Css.dquote +:+ text el +:+ Css.dquote]
    else if JS.truthy_opt (href el)
    then parts ++ [(let h := default EmptyString (href el) in
                    if decide (60 < Stdlib.Strings.String.length h)%nat
                    then Stdlib.Strings.String.substring 0 57 h +:+ "..."
                    else h)]
    else parts in
  "  @" +:+ pretty (ref el) +:+ " " +:+ join " " parts.

(** The lines [formatInspect] puts between the header and the
    watchlist. *)
Definition errorLines (result : InspectResult) : list string :=
  let '(c, x, f) := ierrors result in
  let lines :=
    ["Errors: " +:+ pretty c +:+ " console, " +:+ pretty x +:+ " exceptions, "
     +:+ pretty f +:+ " failed requests"] in
  let lines :=
    if decide (0 < length (irecentErrors result))%nat
    then lines ++ [EmptyString; "Recent errors:"] ++ (recentLine <$> irecentErrors result)
    else lines in
  match iscreenshotPath result with
  | Some p => if JS.truthy_string p then lines ++ ["Screenshot: " +:+ p] else lines
  | None => lines
  end.

(** The [lines] of [formatInspect]. *)
Definition inspectLines (result : InspectResult) : list string :=
  let lines := ["URL: " +:+ iurl result; "Title: " +:+ ititle result] in
  let lines :=
    match iextension result with
    | Some ext => lines ++ [extensionLine ext]
    | None => lines
    end in
  let lines := lines ++ errorLines result in
  let lines :=
    if decide (0 < length (iwatchlist result))%nat
    then lines ++ [EmptyString; "DOM watchlist:"] ++ (watchLine <$> iwatchlist result)
    else lines in
  let lines :=
    if decide (0 < length (iinteractiveElements result))%nat
    then lines
         ++ [EmptyString;
             "Interactive elements ("
             +:+ pretty (Z.of_nat (length (iinteractiveElements result))) +:+ "):"]
         ++ (inspectElementLine <$> iinteractiveElements result)
    else lines in
  lines.

Definition formatInspect (result : InspectResult) : string :=
  join newline (inspectLines result).

(** The snapshot part of an inspect result. *)
Definition snapshotOf (result : InspectResult) : Daemon.SnapshotResult :=
  Daemon.mkSnapshot (iurl result) (ititle result) (ireadyState result)
    (iwatchlist result) (iinteractiveElements result).

End Format.

(** ** [GET /console] (daemon.ts) *)

Module ConsoleEndpoint.
Import Events Query Endpoints.

Section WithBuffer.
Variable undefined : BufferedEvent.
Variable cutoffFor : Z -> string.

Definition baseFilter (e : BufferedEvent) : bool :=
  match body e with
  | Console _ _ | Exception _ => true
  | _ => false
  end.

(** The filter [GET /console] passes to [query]. *)
Definition consoleFilter (pattern : option string) (minutes : option JS.number)
    (source : option string) : BufferedEvent -> bool :=
  let filter := baseFilter in
  let filter :=
    if JS.truthy_opt pattern
    then fun e => filter e && has_text e
                  && Normalizer.includes (text_or_empty e) (default EmptyString pattern)
    else filter in
  let filter :=
    match minutes with
    | Some (JS.Num m) =>
        if JS.truthy (JS.Num m)
        then fun e => filter e && minutesFilter (cutoffFor m) e
        else filter
    | _ => filter
    end in
  if JS.truthy_opt source
  then fun e => filter e && bool_decide (sourceName (src e) = default EmptyString source)
  else filter.

(** [GET /console] *)
Definition consoleHandler (rb : RingBuffer.t BufferedEvent)
    (pattern last minutes source : option string) : list BufferedEvent :=
  RingBuffer.query undefined rb
    (Some (consoleFilter pattern (intParam minutes) source)) (intParam last).
End WithBuffer.

End ConsoleEndpoint.

(* ===================================================================== *)
(** * Part II: properties                                                 *)
(* ===================================================================== *)

(** ** Strings *)

Section StringFacts.

Lemma append_assoc (s1 s2 s3 : string) : (s1 +:+ s2) +:+ s3 = s1 +:+ (s2 +:+ s3).
Proof.
  induction s1 as [|a s1 IH]; [done|].
  change (String a ((s1 +:+ s2) +:+ s3) = String a (s1 +:+ (s2 +:+ s3))).
  by rewrite IH.
Qed.

Lemma append_empty_r (s : string) : s +:+ "" = s.
Proof.
  induction s as [|a s IH]; [done|].
  change (String a (s +:+ "") = String a s). by rewrite IH.
Qed.

(** A character below 128 that is not white space starts no white
    space character: [trimStart] leaves the string as it is. *)
Lemma trimStart_plain (a : ascii) (s : string) :
  (N_of_ascii a <? 128)%N = true -> Str.whiteByte a = false ->
  Str.trimStart (String a s) = String a s.
Proof.
  intros Ha Hw.
  assert (forall b, Str.white2 a b = false) as H2.
  { intros b. unfold Str.white2.
    destruct (N_of_ascii a =? 194)%N eqn:E; [|done].
    apply N.eqb_eq in E. rewrite E in Ha. discriminate Ha. }
  assert (forall b c, Str.white3 a b c = false) as H3.
  { intros b c. unfold Str.white3.
    destruct (N_of_ascii a =? 225)%N eqn:E1;
      [apply N.eqb_eq in E1; rewrite E1 in Ha; discriminate Ha|].
    destruct (N_of_ascii a =? 226)%N eqn:E2;
      [apply N.eqb_eq in E2; rewrite E2 in Ha; discriminate Ha|].
    destruct (N_of_ascii a =? 227)%N eqn:E3;
      [apply N.eqb_eq in E3; rewrite E3 in Ha; discriminate Ha|].
    destruct (N_of_ascii a =? 239)%N eqn:E4;
      [apply N.eqb_eq in E4; rewrite E4 in Ha; discriminate Ha|].
    done. }
  simpl. rewrite Hw. destruct s as [|b [|c s]]; [done| |].
  - by rewrite H2.
  - by rewrite H2, H3.
Qed.

End StringFacts.

(** ** Ring buffer *)

Section RingBufferFacts.
Context {T : Type}.
Variable undefined : T.

Abbreviation rb_push := (RingBuffer.push undefined).
Abbreviation rb_query := (RingBuffer.query undefined).
Abbreviation rb_scan := (RingBuffer.scan undefined).
Abbreviation rb_pushed := (RingBuffer.pushed undefined).
Abbreviation holds := RingBuffer.holds.

(** The loop of [query] is a map over the index range followed by the
    filter. *)
Lemma scan_unfold (rb : RingBuffer.t T) (filter : option (T -> bool)) :
  rb_scan rb filter =
  List.filter (fun x => match filter with None => true | Some f => f x end)
    ((fun i => JS.array_get undefined (RingBuffer.items rb)
                 (Z.rem (Z.rem (RingBuffer.head rb - RingBuffer.count rb
                                + RingBuffer.capacity rb) (RingBuffer.capacity rb) + i)
                        (RingBuffer.capacity rb)))
       <$> seqZ 0 (RingBuffer.count rb)).
Proof.
  unfold RingBuffer.scan.
  generalize (seqZ 0 (RingBuffer.count rb)) as l.
  set (g := fun i : Z => JS.array_get undefined _ _).
  set (p := fun x : T => match filter with None => true | Some f => f x end).
  assert (forall l acc,
    foldl (fun result i => if p (g i) then result ++ [g i] else result) acc l
    = acc ++ List.filter p (g <$> l)) as H.
  { induction l as [|i l IH]; intros acc; simpl.
    - by rewrite app_nil_r.
    - rewrite IH. destruct (p (g i)); simpl; [by rewrite <- app_assoc | done]. }
  intros l. apply (H l []).
Qed.

Lemma holds_new (c : Z) : 1 <= c -> holds c [] (RingBuffer.new undefined c).
Proof.
  intros Hc. unfold RingBuffer.holds, RingBuffer.new, JS.array_new; simpl.
  rewrite length_replicate, Z.mod_0_l by lia.
  repeat split; try lia.
Qed.

Lemma mod_slots_differ (c n k : Z) :
  1 <= c -> n - c < k < n -> k mod c <> n mod c.
Proof.
  intros Hc Hk Heq.
  pose proof (Z.div_mod k c ltac:(lia)) as Hk'.
  pose proof (Z.div_mod n c ltac:(lia)) as Hn'.
  rewrite Heq in Hk'.
  assert (n - k = c * (n / c - k / c)) as Hd by lia.
  assert (0 < n / c - k / c < 1) by nia.
  lia.
Qed.

Lemma holds_push (c : Z) (xs : list T) (rb : RingBuffer.t T) (x : T) :
  1 <= c -> holds c xs rb -> holds c (xs ++ [x]) (rb_push rb x).
Proof.
  intros Hc (Hcap & Hlen & Hhead & Hcount & Hslots).
  unfold RingBuffer.holds, RingBuffer.push; simpl.
  rewrite length_app; simpl.
  remember (Z.of_nat (length xs)) as n eqn:Hn in *.
  replace (Z.of_nat (length xs + 1)) with (n + 1) by lia.
  pose proof (Z.mod_pos_bound n c ltac:(lia)) as Hb.
  assert (JS.array_set undefined (RingBuffer.items rb) (RingBuffer.head rb) x
          = <[Z.to_nat (n mod c) := x]> (RingBuffer.items rb)) as Hset.
  { unfold JS.array_set. rewrite Hhead.
    destruct (decide (n mod c < 0)); [lia|].
    destruct (decide (n mod c < Z.of_nat (length (RingBuffer.items rb)))); [done|lia]. }
  rewrite Hset, Hcap, Hhead, Hcount.
  split; [done|]. split; [by rewrite length_insert|].
  split.
  { rewrite Z.rem_mod_nonneg by lia. by rewrite Zplus_mod_idemp_l. }
  split.
  { destruct (decide (Z.min n c < c)); lia. }
  intros k Hk.
  destruct (decide (k = n)) as [->|Hne].
  - rewrite list_lookup_insert_eq by lia.
    rewrite lookup_app_r by lia.
    replace (Z.to_nat n - length xs)%nat with 0%nat by lia. done.
  - rewrite list_lookup_insert_ne.
    + rewrite lookup_app_l by lia. apply Hslots. lia.
    + intros Heq. apply (mod_slots_differ c n k); [lia|lia|].
      pose proof (Z.mod_pos_bound k c ltac:(lia)). lia.
Qed.

Lemma holds_pushed (c : Z) (xs : list T) :
  1 <= c -> holds c xs (rb_pushed c xs).
Proof.
  intros Hc. unfold RingBuffer.pushed.
  induction xs as [|x xs IH] using rev_ind.
  - by apply holds_new.
  - rewrite foldl_app; simpl. by apply holds_push.
Qed.

(** What the loop reads under the invariant: the last [min n c] pushes. *)
Lemma holds_scan (c : Z) (xs : list T) (rb : RingBuffer.t T) :
  1 <= c -> holds c xs rb ->
  rb_scan rb None = drop (length xs - Z.to_nat c) xs.
Proof.
  intros Hc (Hcap & Hlen & Hhead & Hcount & Hslots).
  rewrite scan_unfold.
  remember (Z.of_nat (length xs)) as n eqn:Hn in *.
  rewrite Hcap, Hhead, Hcount.
  match goal with |- List.filter ?p ?l = _ =>
    assert (List.filter p l = l) as -> by (induction l; simpl; congruence) end.
  pose proof (Z.mod_pos_bound n c ltac:(lia)) as Hb.
  apply list_eq. intros j.
  rewrite list_lookup_fmap, lookup_drop.
  destruct (decide (Z.of_nat j < Z.min n c)) as [Hj|Hj].
  - rewrite lookup_seqZ_lt by lia. simpl.
    set (k := n - Z.min n c + Z.of_nat j).
    assert (Z.rem (Z.rem (n mod c - Z.min n c + c) c + (0 + Z.of_nat j)) c = k mod c) as ->.
    { rewrite (Z.rem_mod_nonneg (n mod c - Z.min n c + c) c) by lia.
      pose proof (Z.mod_pos_bound (n mod c - Z.min n c + c) c ltac:(lia)).
      rewrite Z.rem_mod_nonneg by lia.
      rewrite Zplus_mod_idemp_l.
      replace (n mod c - Z.min n c + c + (0 + Z.of_nat j))
        with (n mod c + (k - n + c)) by (unfold k; lia).
      rewrite Zplus_mod_idemp_l.
      replace (n + (k - n + c)) with (k + 1 * c) by lia.
      by rewrite Z.mod_add by lia. }
    pose proof (Z.mod_pos_bound k c ltac:(lia)).
    unfold JS.array_get. destruct (decide (0 <= k mod c)); [|lia].
    rewrite Hslots by (unfold k; lia).
    replace (length xs - Z.to_nat c + j)%nat with (Z.to_nat k) by (unfold k; lia).
    destruct (xs !! Z.to_nat k) eqn:E; [done|].
    apply lookup_ge_None in E. unfold k in E. lia.
  - rewrite lookup_seqZ_ge by lia. simpl.
    symmetry. apply lookup_ge_None. lia.
Qed.

Lemma scan_filter (rb : RingBuffer.t T) (f : T -> bool) :
  rb_scan rb (Some f) = List.filter f (rb_scan rb None).
Proof.
  rewrite !scan_unfold.
  match goal with |- _ = List.filter f (List.filter ?p ?l) =>
    assert (List.filter p l = l) as -> by (induction l; simpl; congruence) end.
  done.
Qed.

Lemma slice_last (l : list T) (z : Z) :
  0 < z -> JS.array_slice l (- z) = drop (length l - Z.to_nat z) l.
Proof.
  intros Hz. unfold JS.array_slice.
  destruct (decide (- z < 0)); [|lia].
  f_equal. lia.
Qed.

(** C1. For every capacity [c >= 1] and every sequence [xs] of [n]
    pushed items, [query()] returns the last [min n c] pushed items in
    insertion order, oldest first; the buffer never holds more than [c]
    slots; [push] is total, and on a full buffer it drops the oldest
    item and appends the new one. *)
Theorem ring_buffer_keeps_most_recent (c : Z) (xs : list T) :
  1 <= c ->
  let rb := rb_pushed c xs in
  let n := length xs in
  rb_query rb None None = drop (n - Z.to_nat c) xs
  /\ length (rb_query rb None None) = Nat.min n (Z.to_nat c)
  /\ length (RingBuffer.items rb) = Z.to_nat c
  /\ RingBuffer.size rb = Z.min (Z.of_nat n) c
  /\ forall x, (Z.to_nat c <= n)%nat ->
       rb_query (rb_push rb x) None None = drop 1 (rb_query rb None None) ++ [x].
Proof.
  intros Hc rb n.
  pose proof (holds_pushed c xs Hc) as Hrb. fold rb in Hrb.
  assert (rb_query rb None None = drop (n - Z.to_nat c) xs) as Hq.
  { unfold RingBuffer.query. by apply holds_scan. }
  split; [done|]. split.
  { rewrite Hq, length_drop. unfold n. lia. }
  destruct Hrb as (Hcap & Hlen & Hhead & Hcount & Hslots).
  split; [done|]. split; [done|].
  intros x Hfull.
  pose proof (holds_pushed c (xs ++ [x]) Hc) as Hrb'.
  unfold RingBuffer.pushed in Hrb'. rewrite foldl_app in Hrb'. simpl in Hrb'.
  fold (rb_pushed c xs) in Hrb'. fold rb in Hrb'.
  unfold RingBuffer.query at 1. rewrite (holds_scan c (xs ++ [x])) by done.
  rewrite Hq, length_app, drop_drop; simpl.
  rewrite drop_app_le by (unfold n in *; lia).
  do 2 f_equal. unfold n in *. lia.
Qed.

(** C2. For every filter [f] and every positive limit, [query(f, limit)]
    returns the last [limit] items, oldest first, of the held items that
    satisfy [f] (all of them when there are fewer than [limit]). *)
Theorem query_limit_takes_last_matches
    (rb : RingBuffer.t T) (f : T -> bool) (limit : Z) :
  0 < limit ->
  let matching := List.filter f (rb_query rb None None) in
  rb_query rb (Some f) None = matching
  /\ rb_query rb (Some f) (Some (JS.Num limit))
     = drop (length matching - Z.to_nat limit) matching
  /\ length (rb_query rb (Some f) (Some (JS.Num limit)))
     = Nat.min (length matching) (Z.to_nat limit).
Proof.
  intros Hl matching.
  assert (rb_query rb (Some f) (Some (JS.Num limit))
          = drop (length matching - Z.to_nat limit) matching) as Hq.
  { unfold RingBuffer.query; simpl.
    destruct (limit =? 0) eqn:E0; [lia|].
    destruct (0 <? limit) eqn:E1; [|lia]. simpl.
    rewrite slice_last by done. by rewrite scan_filter. }
  split; [apply scan_filter|]. split; [done|].
  rewrite Hq, length_drop. lia.
Qed.

(** C10. A limit that is not strictly positive (zero, negative) is
    ignored: the query returns every matching item, exactly as when no
    limit is passed.  The same holds for a [NaN] limit. *)
Theorem query_nonpositive_limit_ignored
    (rb : RingBuffer.t T) (filter : option (T -> bool)) (limit : Z) :
  limit <= 0 ->
  rb_query rb filter (Some (JS.Num limit)) = rb_query rb filter None
  /\ rb_query rb filter (Some JS.NaN) = rb_query rb filter None.
Proof.
  intros Hl. unfold RingBuffer.query; simpl.
  destruct (0 <? limit) eqn:E; [lia|].
  by rewrite andb_false_r.
Qed.

End RingBufferFacts.

(** The cases of [test/ring-buffer.test.ts], run on the model. *)

Example test_wraps_around_at_capacity :
  RingBuffer.query 0 (RingBuffer.pushed 0 3 [1; 2; 3; 4]) None None = [2; 3; 4]
  /\ RingBuffer.size (RingBuffer.pushed 0 3 [1; 2; 3; 4]) = 3.
Proof. split; reflexivity. Qed.

Example test_query_with_filter_and_limit :
  RingBuffer.query 0 (RingBuffer.pushed 0 10 [1; 2; 3; 4; 5; 6; 7; 8; 9; 10])
    (Some Z.even) (Some (JS.Num 2)) = [8; 10]
  /\ RingBuffer.query 0 (RingBuffer.pushed 0 10 [1; 2; 3; 4; 5; 6])
       None (Some (JS.Num 3)) = [4; 5; 6].
Proof. split; reflexivity. Qed.

Example test_works_after_clear_and_refill :
  let rb := RingBuffer.clear 0 (RingBuffer.pushed 0 3 [1; 2]) in
  RingBuffer.query 0 rb None None = []
  /\ RingBuffer.query 0 (RingBuffer.push 0 (RingBuffer.push 0 rb 10) 20) None None
     = [10; 20].
Proof. split; reflexivity. Qed.

Example test_capacity_of_one :
  RingBuffer.query "" (RingBuffer.pushed "" 1 ["a"; "b"]) None None = ["b"].
Proof. reflexivity. Qed.

Example test_large_overflow :
  RingBuffer.query 0 (RingBuffer.pushed 0 3 (seqZ 0 100)) None None = [97; 98; 99].
Proof. vm_compute. reflexivity. Qed.

Lemma ring_buffer_keeps_most_recent_witness :
  1 <= 3 /\
  RingBuffer.query 0 (RingBuffer.pushed 0 3 [1; 2; 3; 4]) None None = [2; 3; 4].
Proof.
  split; [lia|].
  exact (proj1 (ring_buffer_keeps_most_recent 0 3 [1; 2; 3; 4] ltac:(lia))).
Defined.

Lemma query_limit_takes_last_matches_witness :
  0 < 2 /\
  RingBuffer.query 0 (RingBuffer.pushed 0 10 [1; 2; 3; 4; 5; 6; 7; 8; 9; 10])
    (Some Z.even) (Some (JS.Num 2)) = [8; 10].
Proof.
  split; [lia|].
  exact (proj1 (proj2 (query_limit_takes_last_matches 0
           (RingBuffer.pushed 0 10 [1; 2; 3; 4; 5; 6; 7; 8; 9; 10])
           Z.even 2 ltac:(lia)))).
Defined.

Lemma query_nonpositive_limit_ignored_witness :
  0 <= 0 /\
  RingBuffer.query 0 (RingBuffer.pushed 0 3 [1; 2; 3; 4]) (Some Z.even) (Some (JS.Num 0))
  = [2; 4].
Proof.
  split; [lia|].
  exact (proj1 (query_nonpositive_limit_ignored 0
           (RingBuffer.pushed 0 3 [1; 2; 3; 4]) (Some Z.even) 0 ltac:(lia))).
Defined.

(** ** Error classification *)

Section ErrorClassification.
Import Events Query.

(** C4. The predicate used by [/errors], [/errors/summary] and
    [/inspect] holds exactly for exceptions, network errors, console
    events of level "error" and responses with status at least 400; a
    404 response is an error, a 200 response is not. *)
Theorem error_classification (e : BufferedEvent) :
  (errorsFilter e = true <->
     (exists text, body e = Exception text)
     \/ (exists error resourceType url, body e = NetworkError error resourceType url)
     \/ (exists text, body e = Console "error" text)
     \/ (exists status url, body e = Response status url /\ 400 <= status))
  /\ errorsSummaryFilter e = errorsFilter e
  /\ inspectFilter e = errorsFilter e
  /\ (forall url, body e = Response 404 url -> errorsFilter e = true)
  /\ (forall url, body e = Response 200 url -> errorsFilter e = false).
Proof.
  split; [|split; [done|split; [done|split]]].
  - unfold errorsFilter. destruct (body e) as [lvl t|t|m u|st u|er rt u|p].
    + rewrite bool_decide_eq_true. split.
      * intros ->. right; right; left. by eexists.
      * intros [(? & ?)|[(? & ? & ? & ?)|[(? & ?)|(? & ? & ? & ?)]]]; congruence.
    + split; [|done]. intros _. left. by eexists.
    + split; [done|].
      intros [(? & ?)|[(? & ? & ? & ?)|[(? & ?)|(? & ? & ? & ?)]]]; congruence.
    + rewrite bool_decide_eq_true. split.
      * intros Hst. do 3 right. by exists st, u.
      * intros [(? & ?)|[(? & ? & ? & ?)|[(? & ?)|(? & ? & ? & ?)]]]; congruence.
    + split; [|done]. intros _. right; left. by do 3 eexists.
    + split; [done|].
      intros [(? & ?)|[(? & ? & ? & ?)|[(? & ?)|(? & ? & ? & ?)]]]; congruence.
  - intros url H. unfold errorsFilter. by rewrite H.
  - intros url H. unfold errorsFilter. by rewrite H.
Qed.

End ErrorClassification.

Lemma error_classification_witness :
  Query.errorsFilter
    (Events.mkEvent "2026-01-01T00:00:00.000Z" None
       (Events.Response 404 "https://example.com/missing") Events.Unknown) = true.
Proof.
  exact (proj1 (proj2 (proj2 (proj2 (error_classification
           (Events.mkEvent "2026-01-01T00:00:00.000Z" None
              (Events.Response 404 "https://example.com/missing") Events.Unknown)))))
         "https://example.com/missing" eq_refl).
Defined.

(** ** Frequency annotation *)

Section Frequency.
Import Events Query Spec.

Lemma filter_filter_and {A} (p q : A -> bool) (l : list A) :
  List.filter q (List.filter p l) = List.filter (fun x => p x && q x) l.
Proof.
  induction l as [|x l IH]; simpl; [done|].
  destruct (p x); simpl; [destruct (q x)|]; by rewrite ?IH.
Qed.

Lemma countByText_fold (l : list BufferedEvent) (m : gmap string Z) (k : string) :
  foldl (fun counts e =>
           let key := text_or_empty e in
           <[key := default 0 (counts !! key) + 1]> counts) m l !! k
  = let n := Z.of_nat (length (List.filter
               (fun e => bool_decide (text_or_empty e = k)) l)) in
    if decide (n = 0) then m !! k else Some (default 0 (m !! k) + n).
Proof.
  revert m. induction l as [|e l IH]; intros m; simpl; [done|].
  rewrite IH. simpl.
  destruct (decide (text_or_empty e = k)) as [->|Hne].
  - rewrite bool_decide_eq_true_2 by done. simpl.
    rewrite lookup_insert_eq. simpl.
    repeat case_decide; try lia; f_equal; lia.
  - rewrite bool_decide_eq_false_2 by done.
    by rewrite lookup_insert_ne.
Qed.

Lemma countByText_lookup (l : list BufferedEvent) (k : string) :
  countByText l !! k
  = let n := Z.of_nat (length (List.filter
               (fun e => bool_decide (text_or_empty e = k)) l)) in
    if decide (n = 0) then None else Some n.
Proof.
  unfold countByText. rewrite countByText_fold. simpl.
  rewrite lookup_empty. simpl. by case_decide.
Qed.

(** The annotation of any event, by its text key. *)
Lemma addFrequency_lookup (thirtySecsAgo : string) (events : list BufferedEvent)
    (i : nat) (e : BufferedEvent) :
  events !! i = Some e ->
  addFrequency thirtySecsAgo events !! i =
  let n := recentErrorsWithText thirtySecsAgo events (text_or_empty e) in
  Some (mkAnnotated e (if decide (3 <= n) then Some (frequencyTag n) else None)).
Proof.
  intros Hi. unfold addFrequency.
  rewrite list_lookup_fmap, Hi. simpl. f_equal.
  rewrite countByText_lookup. simpl.
  rewrite filter_filter_and. fold (recentErrorsWithText thirtySecsAgo events (text_or_empty e)).
  set (n := recentErrorsWithText _ _ _).
  destruct (decide (n = 0)) as [Hn|Hn].
  - destruct (decide (3 <= n)); [lia|done].
  - destruct (n =? 0) eqn:E0; [lia|]. simpl.
    destruct (decide (3 <= n)); destruct (3 <=? n) eqn:E3; try lia; done.
Qed.

(** C3 (amended). [addFrequency] returns the input events in the input
    order, each with or without a tag (nothing is dropped); an event
    that carries a text is tagged exactly when its text is the text of
    three or more console-error or exception events of the last 30
    seconds, whatever its own age, type or level, and the tag is
    "repeated <count>x in 30s" with that count. *)
Theorem addFrequency_tags_by_text
    (thirtySecsAgo : string) (events : list BufferedEvent) :
  event <$> addFrequency thirtySecsAgo events = events
  /\ forall i e, events !! i = Some e -> has_text e = true ->
       let n := recentErrorsWithText thirtySecsAgo events (text_or_empty e) in
       addFrequency thirtySecsAgo events !! i
       = Some (mkAnnotated e (if decide (3 <= n) then Some (frequencyTag n) else None)).
Proof.
  split.
  - apply list_eq. intros i. rewrite list_lookup_fmap.
    destruct (events !! i) as [e|] eqn:Hi.
    + by rewrite (addFrequency_lookup _ _ _ _ Hi).
    + unfold addFrequency. by rewrite list_lookup_fmap, Hi.
  - intros i e Hi _. by apply addFrequency_lookup.
Qed.

End Frequency.

Lemma addFrequency_tags_by_text_witness :
  let e1 := Events.mkEvent "2026-01-01T00:00:31.000Z" None
              (Events.Console "error" "boom") Events.Page in
  let e2 := Events.mkEvent "2026-01-01T00:00:32.000Z" None
              (Events.Exception "boom") Events.Page in
  let e3 := Events.mkEvent "2026-01-01T00:00:33.000Z" None
              (Events.Console "error" "boom") Events.Page in
  let e4 := Events.mkEvent "2026-01-01T00:00:34.000Z" None
              (Events.Console "error" "other") Events.Page in
  Query.addFrequency "2026-01-01T00:00:30.000Z" [e1; e2; e3; e4] !! 3%nat
  = Some (Query.mkAnnotated e4 None)
  /\ Query.addFrequency "2026-01-01T00:00:30.000Z" [e1; e2; e3; e4] !! 0%nat
  = Some (Query.mkAnnotated e1 (Some "repeated 3x in 30s")).
Proof.
  intros e1 e2 e3 e4. split.
  - exact (proj2 (addFrequency_tags_by_text "2026-01-01T00:00:30.000Z" [e1; e2; e3; e4])
             3%nat e4 eq_refl eq_refl).
  - exact (proj2 (addFrequency_tags_by_text "2026-01-01T00:00:30.000Z" [e1; e2; e3; e4])
             0%nat e1 eq_refl eq_refl).
Defined.

(** C3, as stated, fails: an event older than 30 seconds is tagged as soon
    as three recent console-error or exception events carry its text.
    Here the first event is 30 seconds older than the cutoff. *)
Lemma addFrequency_tags_event_outside_window :
  let old := Events.mkEvent "2026-01-01T00:00:00.000Z" None
               (Events.Console "error" "boom") Events.Page in
  let e1 := Events.mkEvent "2026-01-01T00:00:31.000Z" None
              (Events.Console "error" "boom") Events.Page in
  let e2 := Events.mkEvent "2026-01-01T00:00:32.000Z" None
              (Events.Console "error" "boom") Events.Page in
  let e3 := Events.mkEvent "2026-01-01T00:00:33.000Z" None
              (Events.Console "error" "boom") Events.Page in
  Query.isRecentError "2026-01-01T00:00:30.000Z" old = false
  /\ Query.addFrequency "2026-01-01T00:00:30.000Z" [old; e1; e2; e3] !! 0%nat
     = Some (Query.mkAnnotated old (Some "repeated 3x in 30s")).
Proof. vm_compute. split; reflexivity. Qed.

(** ** Status filter of the network endpoint *)

Section StatusFilter.
Import Events Query Spec.

Lemma endsWith_wildcard (a : ascii) : Str.endsWith (String a "xx") "xx" = true.
Proof. reflexivity. Qed.

Lemma parseInt_digit (a : ascii) (n : nat) :
  Ascii.is_nat a = Some n -> Str.parseInt (String a "") = JS.Num (Z.of_nat n).
Proof.
  destruct a as [[] [] [] [] [] [] [] []]; intros H;
    try discriminate H; injection H as <-; reflexivity.
Qed.

Lemma rangeMatches_wildcard (a : ascii) (n : nat) (st : Z) :
  Ascii.is_nat a = Some n ->
  rangeMatches st (String a "xx") = (st / 100 =? Z.of_nat n).
Proof.
  intros Ha. unfold rangeMatches. rewrite endsWith_wildcard.
  simpl Str.first. simpl Str.parseInt_opt. by rewrite (parseInt_digit a n Ha).
Qed.

Lemma leadingDigit_three_digits (st : Z) :
  100 <= st <= 999 -> leadingDigit st = st / 100.
Proof.
  intros Hst. unfold leadingDigit.
  destruct (Z.to_nat st) as [|[|[|fuel]]] eqn:E; try lia.
  simpl.
  assert (st / 10 / 10 = st / 100) as Hd by (rewrite Z.div_div by lia; done).
  assert (10 <= st / 10 <= 99) by (Z.div_mod_to_equations; lia).
  assert (1 <= st / 100 <= 9) by (Z.div_mod_to_equations; lia).
  repeat case_decide; lia.
Qed.

Lemma digit_char_plain (a : ascii) :
  is_Some (Ascii.is_nat a) ->
  (forall s, Str.trimStart (String a s) = String a s)
  /\ a <> "-"%char /\ a <> "+"%char /\ a <> "x"%char.
Proof.
  intros Hd. split.
  - intros s. apply trimStart_plain;
      destruct a as [[] [] [] [] [] [] [] []]; destruct Hd as [n H];
      try discriminate H; reflexivity.
  - destruct a as [[] [] [] [] [] [] [] []]; destruct Hd as [n H];
      try discriminate H; repeat split; done.
Qed.

Lemma digits_allDigits (t : string) (acc : option Z) :
  allDigits t = true ->
  Str.digits acc t
  = if decide (t = "") then acc else Some (decimalFrom (default 0 acc) t).
Proof.
  revert acc. induction t as [|a t IH]; intros acc Hd; simpl; [done|].
  simpl in Hd. apply andb_true_iff in Hd as [Ha Ht].
  apply bool_decide_eq_true in Ha as [n Hn].
  unfold Str.digit. rewrite Hn. simpl.
  rewrite IH by done. by destruct (decide (t = "")) as [->|].
Qed.

Lemma parseInt_plain (t : string) :
  plainNumeric t = true -> Str.parseInt t = JS.Num (decimalValue t).
Proof.
  unfold plainNumeric. intros [Hne Hd]%andb_true_iff.
  destruct t as [|a t]; [done|].
  pose proof Hd as Hd'. simpl in Hd'. apply andb_true_iff in Hd' as [Ha _].
  apply bool_decide_eq_true in Ha.
  destruct (digit_char_plain a Ha) as (Hsp & Hminus & Hplus & _).
  unfold Str.parseInt. rewrite Hsp.
  assert ((let '(sign, s2) :=
             match String a t with
             | String "-"%char r => (-1, r)
             | String "+"%char r => (1, r)
             | _ => (1, String a t)
             end in
           match Str.digits None s2 with
           | Some n => JS.Num (sign * n)
           | None => JS.NaN
           end)
          = match Str.digits None (String a t) with
            | Some n => JS.Num (1 * n)
            | None => JS.NaN
            end) as ->.
  { destruct a as [[] [] [] [] [] [] [] []]; done. }
  rewrite digits_allDigits by done.
  destruct (decide (String a t = "")); [done|].
  unfold decimalValue. simpl default. f_equal. lia.
Qed.

Lemma substring_allDigits (t : string) (n m : nat) :
  allDigits t = true -> allDigits (Stdlib.Strings.String.substring n m t) = true.
Proof.
  revert n m. induction t as [|a t IH]; intros n m Hd.
  - by destruct n, m.
  - simpl in Hd. apply andb_true_iff in Hd as [Ha Ht].
    destruct n as [|n]; [destruct m as [|m]|]; simpl; [done| |by apply IH].
    rewrite Ha. by apply IH.
Qed.

Lemma endsWith_plain (t : string) :
  allDigits t = true -> Str.endsWith t "xx" = false.
Proof.
  intros Hd. unfold Str.endsWith.
  case_decide; [|done].
  apply bool_decide_eq_false. intros Heq.
  pose proof (substring_allDigits t
    (Stdlib.Strings.String.length t - Stdlib.Strings.String.length "xx")
    (Stdlib.Strings.String.length "xx") Hd) as Hs.
  rewrite Heq in Hs. discriminate Hs.
Qed.

Lemma rangeMatches_plain (t : string) (st : Z) :
  plainNumeric t = true -> rangeMatches st t = (st =? decimalValue t).
Proof.
  intros Hp. unfold rangeMatches.
  pose proof Hp as [_ Hd]%andb_true_iff.
  by rewrite endsWith_plain, parseInt_plain.
Qed.

Lemma trimStart_spaces (n : nat) (s : string) :
  Str.trimStart (spaces n +:+ s) = Str.trimStart s.
Proof.
  induction n as [|n IH]; [done|].
  change (spaces (S n) +:+ s) with (String " " (spaces n +:+ s)). exact IH.
Qed.

Lemma tokenChar_plain (a : ascii) :
  tokenChar a = true ->
  (forall s, Str.trimStart (String a s) = String a s) /\ a <> ","%char.
Proof.
  intros Ha. split.
  - intros s. apply trimStart_plain;
      destruct a as [[] [] [] [] [] [] [] []]; try discriminate Ha; reflexivity.
  - destruct a as [[] [] [] [] [] [] [] []]; try discriminate Ha; done.
Qed.

Lemma trimStart_token (t s : string) :
  isToken t = true ->
  Str.trimStart (t +:+ s) = if decide (t = "") then Str.trimStart s else t +:+ s.
Proof.
  intros Ht. destruct t as [|a t]; [done|].
  simpl in Ht. apply andb_true_iff in Ht as [Ha _].
  change (String a t +:+ s) with (String a (t +:+ s)).
  by rewrite (proj1 (tokenChar_plain a Ha)).
Qed.

Lemma trimStart_blank (n : nat) : Str.trimStart (spaces n) = "".
Proof. induction n as [|n IH]; [done|]. exact IH. Qed.

Lemma trimEnd_token (t : string) (n : nat) :
  isToken t = true -> Str.trimEnd (t +:+ spaces n) = t.
Proof.
  induction t as [|a t IH]; intros Ht.
  - change ("" +:+ spaces n) with (spaces n).
    destruct n as [|n]; [done|].
    change (Str.trimEnd (spaces (S n)))
      with (if Str.blank (spaces (S n)) then "" else String " " (Str.trimEnd (spaces n))).
    unfold Str.blank. by rewrite trimStart_blank.
  - simpl in Ht. apply andb_true_iff in Ht as [Ha Ht].
    change (String a t +:+ spaces n) with (String a (t +:+ spaces n)).
    change (Str.trimEnd (String a (t +:+ spaces n)))
      with (if Str.blank (String a (t +:+ spaces n)) then ""
            else String a (Str.trimEnd (t +:+ spaces n))).
    unfold Str.blank. rewrite (proj1 (tokenChar_plain a Ha)).
    by rewrite (IH Ht).
Qed.

(** Trimming a written piece gives back its token. *)
Lemma trim_written (p : Piece) :
  isToken (token p) = true -> Str.trim (written p) = token p.
Proof.
  intros Ht. unfold written, Str.trim.
  rewrite trimStart_spaces, (trimStart_token _ _ Ht).
  destruct (decide (token p = "")) as [->|Hne].
  - by rewrite trimStart_blank.
  - by apply trimEnd_token.
Qed.

Lemma written_no_comma (p : Piece) :
  isToken (token p) = true -> forall u v, written p <> u +:+ String "," v.
Proof.
  intros Ht. unfold written.
  assert (forall s, (forall u v, s <> u +:+ String "," v) ->
            forall n u v, spaces n +:+ s <> u +:+ String "," v) as Hsp.
  { intros s Hs n. induction n as [|n IH]; intros u v; [apply Hs|].
    change (spaces (S n) +:+ s) with (String " " (spaces n +:+ s)).
    destruct u as [|b u]; [discriminate|].
    change (String b u +:+ String "," v) with (String b (u +:+ String "," v)).
    intros [= _ H]. by apply IH in H. }
  apply Hsp. clear Hsp.
  induction (token p) as [|b t IH]; intros u v.
  - change ("" +:+ spaces (spacesAfter p)) with (spaces (spacesAfter p)).
    revert u. induction (spacesAfter p) as [|n IHn]; intros u.
    + by destruct u.
    + destruct u as [|c u]; [discriminate|].
      change (String c u +:+ String "," v) with (String c (u +:+ String "," v)).
      simpl. intros [= _ H]. by apply IHn in H.
  - simpl in Ht. apply andb_true_iff in Ht as [Hb Ht'].
    change (String b t +:+ spaces (spacesAfter p))
      with (String b (t +:+ spaces (spacesAfter p))).
    destruct u as [|c u].
    + change ("" +:+ String "," v) with (String "," v). intros [= -> _].
      by destruct (tokenChar_plain _ Hb).
    + change (String c u +:+ String "," v) with (String c (u +:+ String "," v)).
      intros [= _ H]. by apply (IH Ht') in H.
Qed.

Lemma split_no_comma (w : string) :
  (forall u v, w <> u +:+ String "," v) -> Str.split "," w = [w].
Proof.
  induction w as [|a w IH]; intros Hw; [done|].
  simpl. destruct (decide (a = ","%char)) as [->|Hne].
  { exfalso. by apply (Hw "" w). }
  rewrite IH; [done|].
  intros u v ->. by apply (Hw (String a u) v).
Qed.

Lemma split_append (w rest : string) :
  (forall u v, w <> u +:+ String "," v) ->
  Str.split "," (w +:+ "," +:+ rest) = w :: Str.split "," rest.
Proof.
  induction w as [|a w IH]; intros Hw.
  - change ("" +:+ "," +:+ rest) with (String "," rest). done.
  - change (String a w +:+ "," +:+ rest) with (String a (w +:+ "," +:+ rest)).
    simpl. destruct (decide (a = ","%char)) as [->|Hne].
    { exfalso. by apply (Hw "" w). }
    rewrite IH; [done|].
    intros u v ->. by apply (Hw (String a u) v).
Qed.

(** The daemon's tokens of a written filter are the tokens written. *)
Lemma statusRanges_filterString (ps : list Piece) :
  ps <> [] -> Forall (fun p => isToken (token p) = true) ps ->
  statusRanges (filterString ps) = token <$> ps.
Proof.
  intros Hne Hall. unfold statusRanges, filterString.
  induction Hall as [|p ps Hp Hall IH]; [done|].
  destruct ps as [|q ps].
  - simpl. rewrite split_no_comma; [|by apply written_no_comma].
    simpl. by rewrite trim_written.
  - change (commaSeparated (written <$> p :: q :: ps))
      with (written p +:+ "," +:+ commaSeparated (written <$> q :: ps)).
    rewrite split_append; [|by apply written_no_comma].
    rewrite fmap_cons, trim_written by done.
    rewrite IH by done. done.
Qed.

(** C5 (amended). A token [Nxx] matches a response exactly when
    [floor(status / 100)] is [N]; for a status from 100 to 999 that is
    when its leading digit is [N], and [4xx] matches exactly 400..499.
    A plain numeric token matches exactly the status it denotes; [404]
    matches only 404.  With a status filter active a [network_error]
    always passes.  For a filter written as tokens separated by commas,
    with any spaces around them, a response passes iff one of the
    tokens matches its status. *)
Theorem status_filter_tokens :
  (forall (a : ascii) (n : nat) (st : Z),
      Ascii.is_nat a = Some n ->
      (rangeMatches st (String a "xx") = true <-> st / 100 = Z.of_nat n)
      /\ (100 <= st <= 999 ->
          (rangeMatches st (String a "xx") = true <-> leadingDigit st = Z.of_nat n)))
  /\ (forall st, rangeMatches st "4xx" = true <-> 400 <= st <= 499)
  /\ (forall t st, plainNumeric t = true ->
        (rangeMatches st t = true <-> st = decimalValue t))
  /\ (forall st, rangeMatches st "404" = true <-> st = 404)
  /\ (forall filter e error resourceType url,
        filter <> "" -> body e = NetworkError error resourceType url ->
        networkFilter (Some filter) e = true)
  /\ (forall ps e st url,
        Forall (fun p => isToken (token p) = true) ps ->
        filterString ps <> "" -> body e = Response st url ->
        (networkFilter (Some (filterString ps)) e = true <->
         exists p, p ∈ ps /\ rangeMatches st (token p) = true))
  /\ (forall e st url,
        body e = Response st url ->
        (networkFilter (Some "4xx") e = true <-> 400 <= st <= 499)
        /\ (networkFilter (Some "404") e = true <-> st = 404)).
Proof.
  assert (forall f e st u,
            f <> "" -> body e = Response st u ->
            (networkFilter (Some f) e = true <->
             exists r, r ∈ statusRanges f /\ rangeMatches st r = true)) as Hresp.
  { intros f e st u Hf Hb. unfold networkFilter, networkBase. rewrite Hb.
    destruct f as [|c f]; [done|]. simpl JS.truthy_opt. cbv iota. simpl negb. cbv iota.
    simpl default. rewrite existsb_exists.
    split; intros (r & Hin & Hr); exists r; (split; [|done]);
      by apply list_elem_of_In. }
  assert (forall st, rangeMatches st "4xx" = true <-> 400 <= st <= 499) as H4xx.
  { intros st. rewrite (rangeMatches_wildcard "4" 4 st eq_refl), Z.eqb_eq.
    change (Z.of_nat 4) with 4. split.
    - intros H. split.
      + pose proof (Z.mul_div_le st 100 ltac:(lia)). lia.
      + pose proof (Z.mod_pos_bound st 100 ltac:(lia)).
        pose proof (Z.div_mod st 100 ltac:(lia)). lia.
    - intros [Hlo Hhi]. symmetry. apply (Z.div_unique st 100 4 (st - 400)); lia. }
  assert (forall st, rangeMatches st "404" = true <-> st = 404) as H404.
  { intros st. by rewrite (rangeMatches_plain "404" st eq_refl), Z.eqb_eq. }
  assert (forall t e st u,
            statusRanges t = [t] -> t <> "" -> body e = Response st u ->
            (networkFilter (Some t) e = true <-> rangeMatches st t = true)) as Hone.
  { intros t e st u Ht Hne Hb. rewrite (Hresp t e st u Hne Hb), Ht. split.
    - intros (r & Hin & Hr). apply list_elem_of_singleton in Hin. by subst r.
    - intros Hr. exists t. split; [by apply list_elem_of_singleton|done]. }
  split; [|split; [|split; [|split; [|split; [|split]]]]].
  - intros a n st Ha. rewrite (rangeMatches_wildcard a n st Ha), Z.eqb_eq.
    split; [done|]. intros Hst. by rewrite leadingDigit_three_digits.
  - exact H4xx.
  - intros t st Hp. by rewrite (rangeMatches_plain t st Hp), Z.eqb_eq.
  - exact H404.
  - intros f e er rt u Hf Hb. unfold networkFilter, networkBase. rewrite Hb.
    destruct f; [done|]. done.
  - intros ps e st u Hall Hne Hb.
    assert (ps <> []) as Hps by (intros ->; by apply Hne).
    rewrite (Hresp _ e st u Hne Hb), (statusRanges_filterString ps Hps Hall).
    split.
    + intros (r & Hin & Hr). apply list_elem_of_fmap in Hin as (p & -> & Hin).
      by exists p.
    + intros (p & Hin & Hr). exists (token p). split; [|done].
      apply list_elem_of_fmap. by exists p.
  - intros e st u Hb. split.
    + by rewrite (Hone "4xx" e st u eq_refl ltac:(done) Hb), H4xx.
    + by rewrite (Hone "404" e st u eq_refl ltac:(done) Hb), H404.
Qed.

End StatusFilter.

Lemma status_filter_tokens_witness :
  let ps := [Spec.mkPiece 0 "4xx" 0; Spec.mkPiece 1 "503" 0] in
  let response := fun st =>
    Events.mkEvent "2026-01-01T00:00:00.000Z" None
      (Events.Response st "https://example.com/a") Events.Unknown in
  Spec.filterString ps = "4xx, 503"
  /\ Forall (fun p => Spec.isToken (Spec.token p) = true) ps
  /\ Query.networkFilter (Some "4xx, 503") (response 404) = true
  /\ Query.networkFilter (Some "4xx, 503") (response 503) = true
  /\ Query.networkFilter (Some "4xx, 503") (response 500) = false.
Proof.
  intros ps response.
  assert (Forall (fun p => Spec.isToken (Spec.token p) = true) ps) as Hall.
  { repeat constructor. }
  destruct status_filter_tokens as (_ & H4xx & _ & _ & _ & Hwritten & _).
  pose proof (fun st => Hwritten ps (response st) st "https://example.com/a" Hall
                          ltac:(discriminate) eq_refl) as Hiff.
  split; [reflexivity|]. split; [exact Hall|]. split; [|split].
  - apply (Hiff 404). exists (Spec.mkPiece 0 "4xx" 0). split.
    + apply elem_of_cons. by left.
    + apply H4xx. lia.
  - apply (Hiff 503). exists (Spec.mkPiece 1 "503" 0). split.
    + apply elem_of_cons. right. apply elem_of_cons. by left.
    + reflexivity.
  - apply not_true_is_false. intros Hpass. apply (Hiff 500) in Hpass.
    destruct Hpass as (p & Hin & Hr).
    apply elem_of_cons in Hin as [->|Hin]; [discriminate Hr|].
    apply elem_of_cons in Hin as [->|Hin]; [discriminate Hr|].
    by apply elem_of_nil in Hin.
Defined.

(** C5, as stated, fails outside the three-digit statuses: the leading
    digit of 1000 is 1 and [1xx] does not match it; the leading digit of
    45 is 4 and [0xx] matches it. *)
Lemma status_filter_not_leading_digit :
  let response := fun st =>
    Events.mkEvent "2026-01-01T00:00:00.000Z" None
      (Events.Response st "https://example.com/a") Events.Unknown in
  Spec.leadingDigit 1000 = 1
  /\ Query.networkFilter (Some "1xx") (response 1000) = false
  /\ Spec.leadingDigit 45 = 4
  /\ Query.networkFilter (Some "0xx") (response 45) = true.
Proof. vm_compute. repeat split; reflexivity. Qed.

(** ** Reference table *)

Section RefTable.
Import Snapshot Daemon Spec.

Lemma replaceRefs_fold (els : list SnapshotRef) (m : gmap Z SnapshotRef) (r : Z) :
  foldl (fun m el => <[ref el := el]> m) m els !! r
  = match entryFor r els with
    | Some e => Some e
    | None => m !! r
    end.
Proof.
  unfold entryFor. revert m.
  induction els as [|e els IH]; intros m; simpl; [done|].
  rewrite IH. destruct (decide (ref e = r)) as [Heq|Hne].
  - rewrite bool_decide_eq_true_2 by done.
    rewrite last_cons.
    destruct (last (List.filter _ els)); [done|].
    by rewrite <- Heq, lookup_insert_eq.
  - rewrite bool_decide_eq_false_2 by done.
    destruct (last (List.filter _ els)); [done|].
    by rewrite lookup_insert_ne.
Qed.

Lemma replaceRefs_lookup (old : gmap Z SnapshotRef) (els : list SnapshotRef) (r : Z) :
  replaceRefs old els !! r = entryFor r els.
Proof.
  unfold replaceRefs. rewrite replaceRefs_fold, lookup_empty.
  by destruct (entryFor r els).
Qed.

Lemma entryFor_Some (r : Z) (els : list SnapshotRef) (e : SnapshotRef) :
  entryFor r els = Some e -> e ∈ els /\ ref e = r.
Proof.
  unfold entryFor. intros Hl.
  apply last_Some_elem_of in Hl.
  apply list_elem_of_In, filter_In in Hl as [Hin Hr].
  split; [by apply list_elem_of_In|by apply bool_decide_eq_true in Hr].
Qed.

Lemma entryFor_None (r : Z) (els : list SnapshotRef) :
  entryFor r els = None <-> r ∉ ref <$> els.
Proof.
  unfold entryFor. rewrite last_None. split.
  - intros Hnil Hin. apply list_elem_of_fmap in Hin as (e & -> & Hin).
    assert (In e (List.filter (fun e0 => bool_decide (ref e0 = ref e)) els)) as Hf.
    { apply filter_In. split; [by apply list_elem_of_In|by apply bool_decide_eq_true]. }
    rewrite Hnil in Hf. done.
  - intros Hnot.
    destruct (List.filter _ els) as [|e l] eqn:E; [done|].
    exfalso. apply Hnot.
    assert (In e (List.filter (fun e0 => bool_decide (ref e0 = r)) els)) as Hf
      by (rewrite E; by left).
    apply filter_In in Hf as [Hin Hr]. apply bool_decide_eq_true in Hr.
    apply list_elem_of_fmap. exists e. split; [done|by apply list_elem_of_In].
Qed.

(** C6. A click or fill given a ref looks up [Number(ref)] in the table.
    When the table holds an entry, both act on the selector stored
    there; they fail with the 400 "not found" reply, which prints the
    ref as it was sent and issues no protocol call, exactly when the
    table has no entry for it.  A successful snapshot replaces the
    table: afterwards a ref resolves iff the new snapshot assigned it,
    whatever the table held before; before the first snapshot no ref
    resolves. *)
Theorem ref_resolution :
  (forall st sent sel value,
      resolveTarget st (mkBody (Some sent) sel value)
      = match getRef (refMap st) (asNumber sent) with
        | Some refEntry => inr (selector refEntry)
        | None => inl (jsonError 400
                         ("Ref @" +:+ asText sent +:+ " not found. Run snapshot first."))
        end)
  /\ (forall st sent sel value eval,
        client st = true -> connected st = true ->
        getRef (refMap st) (asNumber sent) = None ->
        let stale := jsonError 400
                       ("Ref @" +:+ asText sent +:+ " not found. Run snapshot first.") in
        clickHandler st (mkBody (Some sent) sel value) eval = ([], stale)
        /\ fillHandler st (mkBody (Some sent) sel value) eval = ([], stale))
  /\ (forall st sent sel value filled eval refEntry,
        client st = true -> connected st = true ->
        getRef (refMap st) (asNumber sent) = Some refEntry ->
        clickHandler st (mkBody (Some sent) sel value) eval
        = ([RuntimeEnable; EvaluateClick (selector refEntry)],
           reply (selector refEntry) eval)
        /\ fillHandler st (mkBody (Some sent) sel (Some filled)) eval
           = ([RuntimeEnable; EvaluateFill (selector refEntry) filled],
              reply (selector refEntry) eval))
  /\ (forall st sent sel value eval,
        client st = true -> connected st = true ->
        (fst (clickHandler st (mkBody (Some sent) sel value) eval) = []
         <-> getRef (refMap st) (asNumber sent) = None))
  /\ (forall st snapshot r,
        client st = true -> connected st = true ->
        let st' := fst (fst (snapshotHandler st
                               (Resolved (SnapshotValue (Some snapshot))))) in
        refMap st' !! r = entryFor r (interactiveElements snapshot)
        /\ (getRef (refMap st') (JS.Num r) = None
            <-> r ∉ ref <$> interactiveElements snapshot))
  /\ (forall n, getRef (refMap initial) n = None).
Proof.
  split; [|split; [|split; [|split; [|split]]]].
  - intros st sent sel value. unfold resolveTarget; simpl.
    by destruct (getRef (refMap st) (asNumber sent)).
  - intros st sent sel value eval Hc Hn Hnone. simpl.
    unfold clickHandler, fillHandler, resolveTarget. simpl.
    by rewrite Hc, Hn, Hnone.
  - intros st sent sel value filled eval e Hc Hn Hsome.
    unfold clickHandler, fillHandler, resolveTarget. simpl.
    by rewrite Hc, Hn, Hsome.
  - intros st sent sel value eval Hc Hn.
    unfold clickHandler, resolveTarget. simpl. rewrite Hc, Hn. simpl.
    by destruct (getRef (refMap st) (asNumber sent)).
  - intros st snap r Hc Hn. unfold snapshotHandler. rewrite Hc, Hn. simpl.
    rewrite replaceRefs_lookup. split; [done|]. apply entryFor_None.
  - intros [|z]; simpl; [done|]. apply lookup_empty.
Qed.

End RefTable.

Lemma ref_resolution_witness :
  let x := Snapshot.mkRef 3 "button" None "X" "#x" None None None None in
  let y := Snapshot.mkRef 1 "a" None "Y" "#y" None None None None in
  let z := Snapshot.mkRef 2 "a" None "Z" "#z" None None None None in
  let A := Daemon.mkSnapshot "https://example.com" "A" "complete" [] [y; z; x] in
  let B := Daemon.mkSnapshot "https://example.com" "B" "complete" [] [y; z] in
  let st0 := Daemon.mkState true true ∅ in
  let st1 := fst (fst (Daemon.snapshotHandler st0
                         (Daemon.Resolved (Daemon.SnapshotValue (Some A))))) in
  let st2 := fst (fst (Daemon.snapshotHandler st1
                         (Daemon.Resolved (Daemon.SnapshotValue (Some B))))) in
  Daemon.getRef (Daemon.refMap st1) (JS.Num 3) = Some x
  /\ Daemon.fillHandler st1 (Daemon.mkBody (Some (Daemon.sentNumber 3)) None (Some "hi"))
       (Daemon.Resolved (Daemon.PageDone "button" None))
     = ([Daemon.RuntimeEnable; Daemon.EvaluateFill "#x" "hi"],
        Daemon.Json 200 (inr (Some "button", None, "#x")))
  /\ Daemon.getRef (Daemon.refMap st2) (JS.Num 3) = None
  /\ Daemon.clickHandler st2 (Daemon.mkBody (Some (Daemon.sentNumber 3)) None None)
       (Daemon.Resolved Daemon.PageUndefined)
     = ([], Daemon.jsonError 400 "Ref @3 not found. Run snapshot first.")
  /\ Daemon.clickHandler st2 (Daemon.mkBody (Some Daemon.sentNull) None None)
       (Daemon.Resolved Daemon.PageUndefined)
     = ([], Daemon.jsonError 400 "Ref @null not found. Run snapshot first.").
Proof.
  intros x y z A B st0 st1 st2.
  destruct ref_resolution as (_ & Hstale & Hfound & _ & Hsnap & _).
  assert (Daemon.getRef (Daemon.refMap st1) (JS.Num 3) = Some x) as Hsome.
  { exact (proj1 (Hsnap st0 A 3 eq_refl eq_refl)). }
  assert (Daemon.getRef (Daemon.refMap st2) (JS.Num 3) = None) as Hnone.
  { apply (Hsnap st1 B 3 eq_refl eq_refl). simpl.
    intros Hin. repeat (apply elem_of_cons in Hin as [Hin|Hin]; [discriminate Hin|]).
    by apply elem_of_nil in Hin. }
  assert (Daemon.getRef (Daemon.refMap st2) (JS.Num 0) = None) as Hnull.
  { apply (Hsnap st1 B 0 eq_refl eq_refl). simpl.
    intros Hin. repeat (apply elem_of_cons in Hin as [Hin|Hin]; [discriminate Hin|]).
    by apply elem_of_nil in Hin. }
  split; [exact Hsome|]. split; [|split; [exact Hnone|split]].
  - exact (proj2 (Hfound st1 (Daemon.sentNumber 3) None None "hi"
                    (Daemon.Resolved (Daemon.PageDone "button" None))
                    x eq_refl eq_refl Hsome)).
  - exact (proj1 (Hstale st2 (Daemon.sentNumber 3) None None
                    (Daemon.Resolved Daemon.PageUndefined) eq_refl eq_refl Hnone)).
  - exact (proj1 (Hstale st2 Daemon.sentNull None None
                    (Daemon.Resolved Daemon.PageUndefined) eq_refl eq_refl Hnull)).
Defined.

(** ** Snapshot capacity and numbering *)

Section SnapshotCapacity.
Import Dom Snapshot Spec.
Variable doc : document.
Variable querySelectorAll : option (list nat) -> string -> option (list (list nat)).

Abbreviation describeAll' := (describeAll doc querySelectorAll).
Abbreviation assignRefs' := (assignRefs doc querySelectorAll).

(** The loop numbers the candidates it is given and stops after the
    one that receives ref 75. *)
Lemma assignRefs_describeAll (cands : list Candidate) (r : Z) (acc : list SnapshotRef) :
  r <= 75 ->
  assignRefs' cands r acc
  = ds ← describeAll' (take (Z.to_nat (76 - r)) cands) r; Some (acc ++ ds).
Proof.
  revert r acc. induction cands as [|c rest IH]; intros r acc Hr.
  - rewrite take_nil. simpl. by rewrite app_nil_r.
  - replace (Z.to_nat (76 - r)) with (S (Z.to_nat (75 - r))) by lia.
    simpl. destruct (describe doc querySelectorAll c r) as [d|]; simpl; [|done].
    destruct (decide (r + 1 > 75)) as [Hstop|Hgo].
    + replace (Z.to_nat (75 - r)) with 0%nat by lia. by rewrite take_0.
    + rewrite IH by lia.
      replace (76 - (r + 1)) with (75 - r) by lia.
      destruct (describeAll' (take (Z.to_nat (75 - r)) rest) (r + 1)) as [ds|]; simpl; [|done].
      by rewrite <- app_assoc.
Qed.

Lemma describeAll_refs (cands : list Candidate) (r : Z) (ds : list SnapshotRef) :
  describeAll' cands r = Some ds ->
  length ds = length cands /\ ref <$> ds = seqZ r (Z.of_nat (length cands)).
Proof.
  revert r ds. induction cands as [|c rest IH]; intros r ds; simpl.
  - intros [= <-]. done.
  - unfold describe at 1.
    destruct (innerSelector _ _ _ _) as [inner|]; simpl; [|done].
    destruct (describeAll' rest (r + 1)) as [ds'|] eqn:E; simpl; [|done].
    intros [= <-]. destruct (IH _ _ E) as [Hlen Href].
    split; [simpl; by rewrite Hlen|].
    rewrite fmap_cons, Href. simpl ref. simpl length.
    rewrite (seqZ_cons r) by lia.
    replace (Z.pred (Z.of_nat (S (length rest)))) with (Z.of_nat (length rest)) by lia.
    by replace (Z.succ r) with (r + 1) by lia.
Qed.

Lemma describeAll_total (cands : list Candidate) (r : Z) :
  (forall h sel, is_Some (querySelectorAll h sel)) -> is_Some (describeAll' cands r).
Proof.
  intros Htot. revert r. induction cands as [|c rest IH]; intros r; simpl; [done|].
  assert (is_Some (describe doc querySelectorAll c r)) as [d ->].
  { unfold describe.
    assert (forall n, is_Some (innerSelector doc querySelectorAll c n)) as Hin.
    { intros n. unfold innerSelector.
      assert (forall tag cur, is_Some (globalNth querySelectorAll c tag cur)) as Hg.
      { intros tag cur. unfold globalNth.
        destruct (Htot (shadowHost c) tag) as [l ->]. done. }
      repeat case_match; try done; apply Hg. }
    destruct (Hin (default emptyNode (nodeAt (rootChildren doc (shadowHost c)) (el c))))
      as [inner ->]. done. }
  simpl. destruct (IH (r + 1)) as [ds ->]. done.
Qed.

(** C7. With at least one shadow-hosted candidate the kept candidates
    are the first 50 (at most) of the main document followed by the
    first 25 (at most) shadow-hosted ones; with none they are the first
    75 (at most) main-document candidates.  The emitted list describes
    exactly the kept candidates, never exceeds 75 entries, and its refs
    are 1, 2, 3, ... in that order, on every call. *)
Theorem snapshot_capacity_and_refs (allCandidates : list Candidate) :
  let main := List.filter (fun c => negb (isShadow c)) allCandidates in
  let shadow := List.filter isShadow allCandidates in
  let kept := finalCandidates allCandidates in
  (shadow <> [] -> kept = take 50 main ++ take 25 shadow)
  /\ (shadow = [] -> kept = take 75 main)
  /\ (length kept <= 75)%nat
  /\ interactiveElements doc querySelectorAll allCandidates = describeAll' kept 1
  /\ (forall els, interactiveElements doc querySelectorAll allCandidates = Some els ->
        length els = length kept
        /\ (length els <= 75)%nat
        /\ ref <$> els = seqZ 1 (Z.of_nat (length els)))
  /\ ((forall h sel, is_Some (querySelectorAll h sel)) ->
      is_Some (interactiveElements doc querySelectorAll allCandidates)).
Proof.
  intros main shadow kept.
  assert (length kept <= 75)%nat as Hlen.
  { unfold kept, finalCandidates. fold main shadow.
    rewrite length_app, !length_take. case_decide; lia. }
  assert (interactiveElements doc querySelectorAll allCandidates = describeAll' kept 1)
    as Hall.
  { unfold interactiveElements. fold kept.
    rewrite assignRefs_describeAll by lia.
    change (Z.to_nat (76 - 1)) with 75%nat.
    rewrite take_ge by lia.
    by destruct (describeAll' kept 1). }
  split; [|split; [|split; [done|split; [done|split]]]].
  - intros Hne. unfold kept, finalCandidates. fold main shadow.
    destruct shadow; [done|]. simpl length. case_decide; [done|lia].
  - intros Hnil. unfold kept, finalCandidates. fold main shadow.
    rewrite Hnil. simpl. by rewrite app_nil_r.
  - intros els Hels. rewrite Hall in Hels.
    destruct (describeAll_refs _ _ _ Hels) as [Hl Hr].
    rewrite Hl. split; [done|]. split; [done|]. exact Hr.
  - intros Htot. rewrite Hall. by apply describeAll_total.
Qed.

End SnapshotCapacity.

(** ** Selector synthesis *)

Section SelectorSynthesis.
Import Dom Snapshot.
Variable doc : document.
Variable querySelectorAll : option (list nat) -> string -> option (list (list nat)).











End SelectorSynthesis.

Lemma snapshot_capacity_and_refs_witness :
  let all := [Samples.goButton; Samples.fourthLink; Samples.secondItem] in
  List.filter Snapshot.isShadow all <> []
  /\ Snapshot.finalCandidates all
     = take 50 (List.filter (fun c => negb (Snapshot.isShadow c)) all)
       ++ take 25 (List.filter Snapshot.isShadow all).
Proof.
  intros all.
  assert (List.filter Snapshot.isShadow all <> []) as Hne by discriminate.
  split; [exact Hne|].
  exact (proj1 (snapshot_capacity_and_refs Samples.listPage Samples.listPageQuery all) Hne).
Defined.



(** ** Reconnection *)

Section Reconnection.
Import Reconnect Spec.

Lemma single_task (st : State) (i : nat) (t : Task) :
  invariant st -> tasks st !! i = Some t ->
  i = 0%nat /\ tasks st = [t] /\ listeners st = 0%nat.
Proof.
  intros (Hone & _ & _) Hi.
  destruct (tasks st) as [|t0 [|t1 l]] eqn:E; simpl in *; try done; try lia.
  destruct i as [|i]; simpl in Hi; [|done].
  injection Hi as ->. repeat split; try done. lia.
Qed.

Lemma invariant_step (st st' : State) (ev : Event) :
  invariant st -> step st ev = Some st' -> invariant st'.
Proof.
  intros Hinv Hstep. pose proof Hinv as (Hone & Hlive & Hen).
  destruct ev as [|i|i|i|i]; simpl in Hstep.
  - destruct (listeners st) as [|n] eqn:En; [done|].
    injection Hstep as <-.
    assert (n = 0%nat) as -> by lia.
    destruct (Hlive eq_refl) as [Hr _].
    assert (tasks st = []) as Ht by (destruct (tasks st); simpl in *; [done|lia]).
    unfold scheduleReconnect; simpl. rewrite Hr, Ht. simpl.
    split; [simpl; lia|]. split; [done|].
    intros t [= <-]. done.
  - destruct (tasks st !! i) as [t|] eqn:Ei; [|done].
    destruct (single_task st i t Hinv Ei) as (-> & Ht & Hl).
    destruct t as [ph|d|ph d]; try done. injection Hstep as <-.
    unfold setTask, invariant; simpl. rewrite Ht, Hl. simpl.
    split; [lia|]. split; [done|]. intros t [= <-]. done.
  - destruct (tasks st !! i) as [t|] eqn:Ei; [|done].
    destruct (single_task st i t Hinv Ei) as (-> & Ht & Hl).
    destruct t as [ph|d|ph d]; try done; injection Hstep as <-.
    + unfold scheduleReconnect, dropTask, invariant; simpl. rewrite Ht, Hl. simpl.
      destruct (reconnecting st); simpl; rewrite ?Ht, ?Hl; simpl.
      * split; [lia|]. split; [done|]. done.
      * split; [lia|]. split; [done|]. intros t [= <-]. done.
    + unfold invariant; simpl. rewrite Ht, Hl. simpl.
      split; [lia|]. split; [done|]. intros t [= <-]. done.
  - destruct (tasks st !! i) as [t|] eqn:Ei; [|done].
    destruct (single_task st i t Hinv Ei) as (-> & Ht & Hl).
    destruct t as [[|]|d|[|] d]; try done; injection Hstep as <-;
      unfold setTask, opened, invariant; simpl; rewrite Ht, Hl; simpl;
      (split; [lia|]); (split; [done|]); done.
  - destruct (tasks st !! i) as [t|] eqn:Ei; [|done].
    destruct (single_task st i t Hinv Ei) as (-> & Ht & Hl).
    destruct (Hen t Ht) as [Hr Hc];
      [destruct t as [[|]|d|[|] d]; done|].
    destruct t as [[|]|d|[|] d]; try done; injection Hstep as <-;
      unfold dropTask, invariant; simpl; rewrite Ht, Hl; simpl;
      (split; [lia|]); (split; [done|]); done.
Qed.

Lemma reachable_invariant (st : State) : reachable st -> invariant st.
Proof.
  induction 1 as [|st ev st' _ IH Hstep].
  - unfold invariant, initial; simpl. split; [lia|]. split; [done|].
    intros t [= <-]. done.
  - by apply (invariant_step st st' ev).
Qed.

Lemma nextDelay_backoff (k : nat) : nextDelay (backoff k) = backoff (S k).
Proof.
  unfold nextDelay, backoff, maxDelay.
  rewrite Nat2Z.inj_succ, Z.pow_succ_r by lia. lia.
Qed.

Lemma backoff_capped (k : nat) : (4 <= k)%nat -> backoff k = 10000.
Proof.
  intros Hk. unfold backoff.
  assert (2 ^ 4 <= 2 ^ Z.of_nat k) by (apply Z.pow_le_mono_r; lia).
  lia.
Qed.

Lemma run_app (st : State) (l1 l2 : list Event) :
  run st (l1 ++ l2) = st' ← run st l1; run st' l2.
Proof.
  revert st. induction l1 as [|ev l1 IH]; intros st; simpl; [done|].
  destruct (step st ev); simpl; [apply IH|done].
Qed.

(** One failing attempt re-arms the timer with the next delay. *)
Lemma run_failedAttempt (st : State) (d : Z) (afterOpen : bool) :
  tasks st = [Timer d] ->
  exists st', run st (failedAttempt afterOpen) = Some st'
    /\ tasks st' = [Timer (nextDelay d)]
    /\ timers st' = timers st ++ [nextDelay d]
    /\ listeners st' = listeners st.
Proof.
  intros Ht. destruct st as [c r cl l ts tm]. simpl in Ht. subst ts.
  destruct afterOpen; simpl; eexists; (split; [reflexivity|]); done.
Qed.

Lemma run_failedAttempts (kinds : list bool) (st : State) (k : nat) :
  tasks st = [Timer (backoff k)] ->
  exists st', run st (concat (failedAttempt <$> kinds)) = Some st'
    /\ tasks st' = [Timer (backoff (k + length kinds))]
    /\ timers st' = timers st ++ (backoff <$> seq (S k) (length kinds))
    /\ listeners st' = listeners st.
Proof.
  revert st k. induction kinds as [|b kinds IH]; intros st k Ht.
  - exists st. simpl. rewrite Nat.add_0_r, app_nil_r. done.
  - destruct (run_failedAttempt st (backoff k) b Ht) as (st1 & Hrun1 & Ht1 & Hl1 & Hn1).
    rewrite nextDelay_backoff in Ht1, Hl1.
    destruct (IH st1 (S k) Ht1) as (st2 & Hrun2 & Ht2 & Hl2 & Hn2).
    exists st2. rewrite fmap_cons. simpl concat. rewrite run_app, Hrun1. simpl.
    split; [done|]. split.
    { rewrite Ht2. simpl. do 3 f_equal. lia. }
    split; [|congruence].
    rewrite Hl2, Hl1, <- app_assoc. done.
Qed.

(** C9. After a disconnect the loop arms its timers with 1000, 2000,
    4000, 8000 and then 10000 ms for as long as the attempts fail; no
    reachable state has two loops in flight, and [scheduleReconnect] does
    nothing while [reconnecting] is set; a successful connect clears
    [reconnecting], and the loop of the next disconnect starts again at
    1000 ms. *)
Theorem reconnection_backoff :
  (forall st kinds, reachable st -> listeners st = 1%nat ->
      exists st',
        run st (Disconnect :: concat (failedAttempt <$> kinds)) = Some st'
        /\ timers st' = timers st ++ (backoff <$> seq 0 (S (length kinds)))
        /\ loopsInFlight st' = 1%nat)
  /\ (backoff 0 = 1000 /\ backoff 1 = 2000 /\ backoff 2 = 4000 /\ backoff 3 = 8000
      /\ forall k, (4 <= k)%nat -> backoff k = 10000)
  /\ (forall st, reachable st -> (loopsInFlight st <= 1)%nat)
  /\ (forall st, reconnecting st = true -> scheduleReconnect st = st)
  /\ (forall st i st', step st (Opened i) = Some st' ->
        reconnecting st' = false /\ connected st' = true)
  /\ (forall st i st', reachable st -> step st (Enabled i) = Some st' ->
        reconnecting st' = false /\ connected st' = true
        /\ loopsInFlight st' = 0%nat
        /\ exists st'', step st' Disconnect = Some st''
             /\ tasks st'' = [Timer 1000]
             /\ timers st'' = timers st' ++ [1000]
             /\ reconnecting st'' = true /\ connected st'' = false).
Proof.
  split; [|split; [|split; [|split; [|split]]]].
  - intros st kinds Hreach Hlive.
    pose proof (reachable_invariant st Hreach) as (Hone & Hl & _).
    destruct (Hl Hlive) as [Hr _].
    assert (tasks st = []) as Ht by (destruct (tasks st); simpl in *; [done|lia]).
    simpl run. rewrite Hlive. unfold scheduleReconnect at 1. simpl. rewrite Hr, Ht. simpl.
    match goal with |- exists st', run ?s _ = _ /\ _ =>
      destruct (run_failedAttempts kinds s 0%nat eq_refl) as (st' & Hrun & Ht' & Hl' & _)
    end.
    exists st'. split; [done|]. split.
    + rewrite Hl'. simpl. by rewrite <- app_assoc.
    + unfold loopsInFlight. by rewrite Ht'.
  - repeat split; try reflexivity. apply backoff_capped.
  - intros st Hreach.
    pose proof (reachable_invariant st Hreach) as (Hone & _ & _).
    unfold loopsInFlight.
    pose proof (filter_length isLoop (tasks st)). lia.
  - intros st Hr. unfold scheduleReconnect. by rewrite Hr.
  - intros st i st' Hstep. simpl in Hstep.
    destruct (tasks st !! i) as [[[|]|d|[|] d]|]; try done; by injection Hstep as <-.
  - intros st i st' Hreach Hstep.
    pose proof (reachable_invariant st Hreach) as Hinv.
    pose proof (invariant_step st st' (Enabled i) Hinv Hstep) as (Hone' & Hl' & _).
    simpl in Hstep.
    destruct (tasks st !! i) as [t|] eqn:Ei; [|done].
    destruct (single_task st i t Hinv Ei) as (-> & Ht & Hl).
    assert (listeners st' = 1%nat /\ tasks st' = []) as [Hls Hts].
    { destruct t as [[|]|d|[|] d]; try done; injection Hstep as <-;
        unfold dropTask; simpl; rewrite Ht, Hl; done. }
    destruct (Hl' Hls) as [Hr Hc].
    split; [done|]. split; [done|].
    split; [unfold loopsInFlight; by rewrite Hts|].
    simpl. rewrite Hls. eexists. split; [reflexivity|].
    unfold scheduleReconnect. simpl. rewrite Hr, Hts. simpl. done.
Qed.

End Reconnection.

(** A connected daemon loses its client and the next three attempts fail:
    they were preceded by waits of 1000, 2000 and 4000 ms, and the wait
    armed after the third failure is 8000 ms. *)
Lemma reconnection_backoff_witness :
  let st := Reconnect.mkState true false true 1 [] [] in
  Reconnect.reachable st /\ Reconnect.listeners st = 1%nat
  /\ exists st',
       Reconnect.run st (Reconnect.Disconnect
                           :: concat (Reconnect.failedAttempt <$> [false; true; false]))
       = Some st'
       /\ Reconnect.timers st' = [1000; 2000; 4000; 8000].
Proof.
  intros st.
  assert (Reconnect.reachable st) as Hreach.
  { apply (Reconnect.reachable_step
             (Reconnect.mkState true false true 0 [Reconnect.Boot Reconnect.Enabling] [])
             (Reconnect.Enabled 0)); [|reflexivity].
    apply (Reconnect.reachable_step Reconnect.initial (Reconnect.Opened 0));
      [apply Reconnect.reachable_initial|reflexivity]. }
  split; [exact Hreach|]. split; [reflexivity|].
  destruct (proj1 reconnection_backoff st [false; true; false] Hreach eq_refl)
    as (st' & Hrun & Htimers & _).
  exists st'. split; [exact Hrun|exact Htimers].
Defined.

(** ** More on the ring buffer *)

Section RingBufferMore.
Context {T : Type}.
Variable undefined : T.

Lemma filter_sublist (p : T -> bool) (l : list T) : List.filter p l `sublist_of` l.
Proof.
  induction l as [|x l IH]; simpl; [constructor|].
  destruct (p x); by constructor.
Qed.

Lemma filter_all (p : T -> bool) (l : list T) (x : T) :
  x ∈ List.filter p l -> p x = true.
Proof. intros Hx. by apply list_elem_of_In, filter_In in Hx as [_ Hp]. Qed.

Lemma slice_sublist (l : list T) (start : Z) : JS.array_slice l start `sublist_of` l.
Proof. unfold JS.array_slice. apply sublist_drop. Qed.

Lemma query_sublist_scan (rb : RingBuffer.t T) (filter : option (T -> bool))
    (limit : option JS.number) :
  RingBuffer.query undefined rb filter limit `sublist_of` RingBuffer.scan undefined rb filter.
Proof.
  unfold RingBuffer.query.
  destruct limit as [[|z]|]; simpl; try done.
  destruct (negb (z =? 0) && (0 <? z)); [apply slice_sublist|done].
Qed.

(** [clear()] forgets the history: the cleared buffer is empty, and
    pushes after it are kept exactly as in a new buffer of the same
    capacity. *)
Theorem clear_then_push (rb : RingBuffer.t T) (xs : list T) :
  1 <= RingBuffer.capacity rb ->
  let c := RingBuffer.capacity rb in
  let rb' := foldl (RingBuffer.push undefined) (RingBuffer.clear undefined rb) xs in
  RingBuffer.query undefined (RingBuffer.clear undefined rb) None None = []
  /\ RingBuffer.size (RingBuffer.clear undefined rb) = 0
  /\ RingBuffer.query undefined rb' None None = drop (length xs - Z.to_nat c) xs
  /\ RingBuffer.size rb' = Z.min (Z.of_nat (length xs)) c
  /\ RingBuffer.capacity rb' = c.
Proof.
  intros Hc c rb'.
  change rb' with (RingBuffer.pushed undefined c xs).
  pose proof (holds_pushed undefined c xs Hc) as Hh.
  split; [reflexivity|]. split; [reflexivity|].
  split; [unfold RingBuffer.query; by apply holds_scan|].
  destruct Hh as (Hcap & _ & _ & Hcount & _). done.
Qed.

(** Whatever the state of the buffer, a query returns held items only, in
    the order [query()] lists them, each satisfying the filter, and never
    more of them than [size]. *)
Theorem query_results_sound (rb : RingBuffer.t T) (filter : option (T -> bool))
    (limit : option JS.number) :
  let result := RingBuffer.query undefined rb filter limit in
  result `sublist_of` RingBuffer.query undefined rb None None
  /\ (forall f x, filter = Some f -> x ∈ result -> f x = true)
  /\ (length result <= Z.to_nat (RingBuffer.size rb))%nat.
Proof.
  intros result.
  pose proof (query_sublist_scan rb filter limit) as Hsub. fold result in Hsub.
  assert (RingBuffer.scan undefined rb filter
          `sublist_of` RingBuffer.scan undefined rb None) as Hscan.
  { destruct filter as [f|]; [|done]. rewrite scan_filter. apply filter_sublist. }
  split; [|split].
  - change (RingBuffer.query undefined rb None None)
      with (RingBuffer.scan undefined rb None). by etrans.
  - intros f x -> Hx.
    assert (x ∈ RingBuffer.scan undefined rb (Some f)) as Hin
      by (eapply elem_of_sublist; eauto).
    rewrite scan_filter in Hin. by apply filter_all in Hin.
  - apply sublist_length in Hsub, Hscan.
    assert (length (RingBuffer.scan undefined rb None)
            = Z.to_nat (RingBuffer.size rb)) as Hlen.
    { rewrite scan_unfold.
      match goal with |- length (List.filter ?p ?l) = _ =>
        assert (List.filter p l = l) as -> by (induction l; simpl; congruence) end.
      rewrite length_fmap, length_seqZ. done. }
    lia.
Qed.

End RingBufferMore.

Lemma clear_then_push_witness :
  1 <= 3 /\
  RingBuffer.query 0
    (foldl (RingBuffer.push 0)
       (RingBuffer.clear 0 (RingBuffer.pushed 0 3 [1; 2; 3; 4; 5])) [10; 20])
    None None = [10; 20].
Proof.
  split; [lia|].
  exact (proj1 (proj2 (proj2 (clear_then_push 0 (RingBuffer.pushed 0 3 [1; 2; 3; 4; 5])
                                [10; 20] ltac:(simpl; lia))))).
Defined.

(** ** HTTP router *)

Section RouterFacts.
Import Router.

Lemma append_snoc (s : string) (b : ascii) (t : string) :
  (s +:+ String b "") +:+ t = s +:+ String b t.
Proof. by rewrite append_assoc. Qed.

Lemma append_nonempty (s t : string) : t <> "" -> s +:+ t <> "".
Proof. destruct s, t; done. Qed.

Lemma noSlash_app (s t : string) :
  noSlash (s +:+ t) = noSlash s && noSlash t.
Proof.
  induction s as [|a s IH]; [done|].
  change (noSlash (String a (s +:+ t)) = noSlash (String a s) && noSlash t).
  simpl. by rewrite IH, andb_assoc.
Qed.

Lemma matchTokens_lits (p s : string) :
  matchTokens (lits p) (p +:+ s) = if matchTail s then Some [] else None.
Proof.
  induction p as [|a p IH]; [done|].
  change (matchTokens (Lit a :: lits p) (String a (p +:+ s)) = if matchTail s then Some [] else None).
  simpl. by rewrite bool_decide_eq_true_2.
Qed.

Lemma matchTokens_lits_inv (p url : string) (cs : list string) :
  matchTokens (lits p) url = Some cs ->
  cs = [] /\ exists s, url = p +:+ s /\ matchTail s = true.
Proof.
  revert url. induction p as [|a p IH]; intros url; simpl.
  - destruct (matchTail url) eqn:E; [|done]. intros [= <-]. split; [done|]. by exists url.
  - destruct url as [|b url]; [done|].
    case_bool_decide as Hab; [|done]. subst b.
    intros Hm. destruct (IH _ Hm) as (-> & s & -> & Hs).
    split; [done|]. by exists s.
Qed.

Lemma matchTail_cases (s : string) :
  matchTail s = true <-> s = "" \/ exists q, s = "?" +:+ q /\ oneLine q = true.
Proof.
  destruct s as [|a s]; simpl.
  - split; [by left|done].
  - rewrite andb_true_iff, bool_decide_eq_true. split.
    + intros [-> Hq]. right. by exists s.
    + intros [|(q & [= -> ->] & Hq)]; done.
Qed.

Lemma compile_plain (p : string) :
  plainPath p = true -> compile None p = Some (lits p, []).
Proof.
  induction p as [|a p IH]; [done|]. simpl.
  intros [[Hm Hc]%andb_true_iff Hp]%andb_true_iff.
  apply negb_true_iff in Hm, Hc. rewrite Hc, Hm. simpl.
  by rewrite (IH Hp).
Qed.

(** A route without parameter answers its own path, with or without a
    query string, and nothing else: a longer path, a trailing slash or
    another method do not match. *)
Theorem static_route_matches (m p : string) (h : Endpoint) (m' url : string) :
  plainPath p = true ->
  exists route,
    addRoute [] m p h = Some [route]
    /\ (matchRoute [route] m' url = Some (h, [])
        <-> m' = m /\ (url = p \/ exists q, url = p +:+ "?" +:+ q /\ oneLine q = true))
    /\ (matchRoute [route] m' url = Some (h, []) \/ matchRoute [route] m' url = None).
Proof.
  intros Hp. exists (mkRoute m (lits p) [] h).
  unfold addRoute. rewrite (compile_plain p Hp). simpl.
  split; [done|].
  destruct (decide (m = m')) as [<-|Hne].
  - rewrite bool_decide_eq_true_2 by done. simpl.
    destruct (matchTokens (lits p) url) as [cs|] eqn:E.
    + destruct (matchTokens_lits_inv p url cs E) as (-> & s & -> & Hs).
      split; [|by left]. split; [|done]. intros _. split; [done|].
      apply matchTail_cases in Hs as [->|(q & -> & Hq)].
      * left. apply append_empty_r.
      * right. by exists q.
    + split; [|by right]. split; [done|].
      intros [_ [->|(q & -> & Hq)]].
      * pose proof (matchTokens_lits p "") as Hp'. rewrite append_empty_r in Hp'.
        rewrite Hp' in E. done.
      * rewrite matchTokens_lits in E.
        change (matchTail ("?" +:+ q)) with (oneLine q) in E. by rewrite Hq in E.
  - rewrite bool_decide_eq_false_2 by done. simpl.
    split; [|by right]. split; [done|]. by intros [-> _].
Qed.

(** A group that meets no slash takes everything up to the end of the
    input. *)
Lemma grab_to_end (rest : string -> option (list string)) (cs : list string)
    (taken v : string) :
  rest "" = Some cs -> noSlash v = true -> taken +:+ v <> "" ->
  grab rest taken v = Some ((taken +:+ v) :: cs).
Proof.
  intros Hrest. revert taken. induction v as [|b v IH]; intros taken Hv Hne; simpl.
  - rewrite append_empty_r in *. rewrite bool_decide_eq_false_2 by done.
    by rewrite Hrest.
  - simpl in Hv. apply andb_true_iff in Hv as [Hb Hv]. apply negb_true_iff in Hb.
    rewrite Hb. rewrite IH; [by rewrite append_snoc|done|].
    rewrite append_snoc. by apply append_nonempty.
Qed.

(** A group stops at the first slash when the rest of the expression
    matches from there. *)
Lemma grab_to_slash (rest : string -> option (list string)) (cs : list string)
    (taken v s : string) :
  rest (String "/" s) = Some cs -> noSlash v = true -> taken +:+ v <> "" ->
  grab rest taken (v +:+ String "/" s) = Some ((taken +:+ v) :: cs).
Proof.
  intros Hrest. revert taken. induction v as [|b v IH]; intros taken Hv Hne.
  - change ("" +:+ String "/" s) with (String "/" s). simpl.
    rewrite append_empty_r in *. rewrite bool_decide_eq_false_2 by done.
    by rewrite Hrest.
  - change (String b v +:+ String "/" s) with (String b (v +:+ String "/" s)).
    simpl in Hv. apply andb_true_iff in Hv as [Hb Hv]. apply negb_true_iff in Hb.
    simpl. rewrite Hb. rewrite IH; [by rewrite append_snoc|done|].
    rewrite append_snoc. by apply append_nonempty.
Qed.

Lemma daemonRoutes_table :
  Forall2 (fun route '(m, p, h) =>
             method route = m /\ handler route = h
             /\ compile None p = Some (tokens route, paramNames route))
          daemonRoutes registered.
Proof. repeat constructor. Qed.

(** The parameter of [POST /reload-ext/:id] is everything after the last
    slash: a query string without a slash is part of it.  With
    [?inspect=true] appended the handler is given the id followed by
    [?inspect=true]. *)
Theorem reload_ext_param_takes_query (v : string) :
  v <> "" -> noSlash v = true ->
  matchRoute daemonRoutes "POST" ("/reload-ext/" +:+ v) = Some (ReloadExt, [("id", v)])
  /\ forall id q, v = id +:+ "?" +:+ q ->
       matchRoute daemonRoutes "POST" ("/reload-ext/" +:+ id +:+ "?" +:+ q)
       = Some (ReloadExt, [("id", id +:+ "?" +:+ q)]).
Proof.
  intros Hne Hv.
  assert (matchRoute daemonRoutes "POST" ("/reload-ext/" +:+ v)
          = Some (ReloadExt, [("id", v)])) as Hm.
  { change (match grab (matchTokens []) "" v with
            | Some captures => Some (ReloadExt, bindParams ["id"] captures)
            | None => matchRoute (drop 9 daemonRoutes) "POST" ("/reload-ext/" +:+ v)
            end = Some (ReloadExt, [("id", v)])).
    by rewrite (grab_to_end _ [] "" v eq_refl Hv Hne). }
  split; [done|]. by intros id q <-.
Qed.

(** [GET /extension/:id/errors] hands the id to its handler as it is, with
    or without a query string. *)
Theorem extension_errors_param (id s : string) :
  id <> "" -> noSlash id = true -> matchTail s = true ->
  matchRoute daemonRoutes "GET" ("/extension/" +:+ id +:+ "/errors" +:+ s)
  = Some (ExtensionErrors, [("id", id)]).
Proof.
  intros Hne Hid Hs.
  change (match grab (matchTokens (lits "/errors")) "" (id +:+ String "/" ("errors" +:+ s)) with
          | Some captures => Some (ExtensionErrors, bindParams ["id"] captures)
          | None => matchRoute (drop 8 daemonRoutes) "GET"
                      ("/extension/" +:+ id +:+ "/errors" +:+ s)
          end = Some (ExtensionErrors, [("id", id)])).
  rewrite (grab_to_slash _ [] "" id ("errors" +:+ s)); [done| |done|done].
  change (String "/" ("errors" +:+ s)) with ("/errors" +:+ s).
  by rewrite matchTokens_lits, Hs.
Qed.

End RouterFacts.

Lemma static_route_matches_witness :
  Router.plainPath "/errors/summary" = true
  /\ exists route,
       Router.addRoute [] "GET" "/errors/summary" Router.ErrorsSummary = Some [route]
       /\ Router.matchRoute [route] "GET" "/errors/summary?x=1"
          = Some (Router.ErrorsSummary, []).
Proof.
  split; [reflexivity|].
  destruct (static_route_matches "GET" "/errors/summary" Router.ErrorsSummary
              "GET" "/errors/summary?x=1" eq_refl) as (route & Hadd & Hiff & _).
  exists route. split; [exact Hadd|].
  apply Hiff. split; [reflexivity|]. right. by exists "x=1".
Defined.

Lemma reload_ext_param_takes_query_witness :
  "abc?inspect=true" <> "" /\ Router.noSlash "abc?inspect=true" = true
  /\ Router.matchRoute Router.daemonRoutes "POST" "/reload-ext/abc?inspect=true"
     = Some (Router.ReloadExt, [("id", "abc?inspect=true")]).
Proof.
  split; [discriminate|]. split; [reflexivity|].
  exact (proj1 (reload_ext_param_takes_query "abc?inspect=true"
                  ltac:(discriminate) eq_refl)).
Defined.

Lemma extension_errors_param_witness :
  "abc" <> "" /\ Router.noSlash "abc" = true /\ Router.matchTail "?verbose=1" = true
  /\ Router.matchRoute Router.daemonRoutes "GET" "/extension/abc/errors?verbose=1"
     = Some (Router.ExtensionErrors, [("id", "abc")]).
Proof.
  split; [discriminate|]. split; [reflexivity|]. split; [reflexivity|].
  exact (extension_errors_param "abc" "?verbose=1" ltac:(discriminate) eq_refl eq_refl).
Defined.

(** ** Event normaliser *)

Section NormalizerFacts.
Import Events Normalizer.
Variable undefined : BufferedEvent.

(** A stack trace makes an event an extension event exactly when one of
    its frames has a [chrome-extension://] URL; without [callFrames] the
    source is unknown; with frames, none of them from an extension (or
    with no frame at all), it is the page. *)
Theorem detectSource_classifies (stackTrace : option StackTrace) :
  (detectSource stackTrace = Extension <->
     exists frames frame,
       stackTrace = Some (mkStack (Some frames)) /\ frame ∈ frames
       /\ includes (url frame) "chrome-extension://" = true)
  /\ (detectSource stackTrace = Unknown <->
       stackTrace = None \/ stackTrace = Some (mkStack None))
  /\ (detectSource stackTrace = Page <->
       exists frames,
         stackTrace = Some (mkStack (Some frames))
         /\ forall frame, frame ∈ frames ->
              includes (url frame) "chrome-extension://" = false).
Proof.
  assert (forall frames,
    (scanFrames frames = Extension <->
       exists frame, frame ∈ frames /\ includes (url frame) "chrome-extension://" = true)
    /\ scanFrames frames <> Unknown
    /\ (scanFrames frames = Page <->
         forall frame, frame ∈ frames ->
           includes (url frame) "chrome-extension://" = false)) as Hscan.
  { induction frames as [|f frames (IHe & IHu & IHp)]; simpl.
    - split; [|split; [done|]].
      + split; [done|]. intros (frame & Hin & _). by apply elem_of_nil in Hin.
      + split; [|done]. intros _ frame Hin. by apply elem_of_nil in Hin.
    - destruct (includes (url f) "chrome-extension://") eqn:E.
      + split; [|split; [done|]].
        * split; [|done]. intros _. exists f. split; [by left|done].
        * split; [done|]. intros Hall. specialize (Hall f ltac:(by left)). congruence.
      + split; [|split; [done|]].
        * rewrite IHe. split.
          -- intros (frame & Hin & Hf). exists frame. split; [by right|done].
          -- intros (frame & [->|Hin]%elem_of_cons & Hf); [congruence|by exists frame].
        * rewrite IHp. split.
          -- intros Hall frame [->|Hin]%elem_of_cons; [done|by apply Hall].
          -- intros Hall frame Hin. apply Hall. by right. }
  destruct stackTrace as [[[frames|]]|]; simpl.
  - destruct (Hscan frames) as (He & Hu & Hp).
    split; [|split].
    + rewrite He. split.
      * intros (frame & Hin & Hf). by exists frames, frame.
      * intros (frames' & frame & [= <-] & Hin & Hf). by exists frame.
    + split; [done|]. by intros [|].
    + rewrite Hp. split.
      * intros Hall. by exists frames.
      * by intros (frames' & [= <-] & Hall).
  - split; [|split].
    + split; [done|]. by intros (? & ? & ? & _).
    + split; [by right|done].
    + split; [done|]. by intros (? & ? & _).
  - split; [|split].
    + split; [done|]. by intros (? & ? & ? & _).
    + split; [by left|done].
    + split; [done|]. by intros (? & ? & _).
Qed.

Lemma eventOf_wellShaped (st : Collector) (now : string) (cb : Callback) :
  wellShaped (eventOf st now cb).
Proof.
  destruct cb; unfold wellShaped; simpl; (split; [done|]); try done.
  case_bool_decide; [done|by intros ->].
Qed.

Lemma collecting_step (c : Z) (st : Collector) (s : Step) :
  1 <= c -> collecting c st -> collecting c (step undefined st s).
Proof.
  intros Hc (xs & Hh & Hlen & H1 & H2 & H3 & Hall).
  destruct s as [now cb| |]; simpl.
  - exists (xs ++ [eventOf st now cb]).
    assert (Forall wellShaped (xs ++ [eventOf st now cb])) as Hall'.
    { apply Forall_app. split; [done|]. constructor; [apply eventOf_wellShaped|done]. }
    destruct cb; simpl; unfold total in *; simpl;
      (split; [by apply holds_push|]); rewrite length_app; simpl;
      repeat split; try done; lia.
  - exists []. destruct Hh as (Hcap & _).
    split; [|repeat split; done].
    change (RingBuffer.holds c [] (RingBuffer.new undefined (RingBuffer.capacity (buffer st)))).
    rewrite Hcap. by apply holds_new.
  - by exists xs.
Qed.

Lemma collecting_run (c : Z) (steps : list Step) :
  1 <= c -> collecting c (run undefined c steps).
Proof.
  intros Hc. unfold run. induction steps as [|s steps IH] using rev_ind.
  - exists []. simpl. split; [by apply holds_new|]. repeat split; done.
  - rewrite foldl_app. simpl. by apply collecting_step.
Qed.

(** After any sequence of callbacks, clears and reconnections, the size
    of the buffer is the sum of the three counters, capped at the
    capacity; no counter is negative. *)
Theorem buffer_size_tracks_counters (c : Z) (steps : list Step) :
  1 <= c ->
  let st := run undefined c steps in
  RingBuffer.size (buffer st) = Z.min (total (eventCounts st)) c
  /\ 0 <= console (eventCounts st) /\ 0 <= network (eventCounts st)
  /\ 0 <= exception (eventCounts st)
  /\ RingBuffer.capacity (buffer st) = c.
Proof.
  intros Hc st.
  destruct (collecting_run c steps Hc) as (xs & Hh & Hlen & H1 & H2 & H3 & _).
  fold st in Hh, Hlen, H1, H2, H3.
  destruct Hh as (Hcap & _ & _ & Hcount & _).
  unfold RingBuffer.size. rewrite Hcount, Hlen. done.
Qed.

(** Every event the buffer holds has been normalised: it carries no
    label, a console event never has the level "warning" (it is stored as
    "warn"), and network events have an unknown source.  The event of the
    latest callback is the newest item. *)
Theorem held_events_normalised (c : Z) (steps : list Step) :
  1 <= c ->
  let st := run undefined c steps in
  (forall e, e ∈ RingBuffer.query undefined (buffer st) None None -> wellShaped e)
  /\ (forall now cb,
        last (RingBuffer.query undefined (buffer (handle undefined st now cb)) None None)
        = Some (eventOf st now cb)).
Proof.
  intros Hc st.
  destruct (collecting_run c steps Hc) as (xs & Hh & _ & _ & _ & _ & Hall).
  fold st in Hh. split.
  - intros e He. unfold RingBuffer.query in He.
    rewrite (holds_scan undefined c xs) in He by done.
    rewrite Forall_forall in Hall. apply Hall.
    eapply elem_of_sublist; [exact He|apply sublist_drop].
  - intros now cb.
    assert (RingBuffer.holds c (xs ++ [eventOf st now cb])
              (buffer (handle undefined st now cb))) as Hh'.
    { destruct cb; simpl; by apply holds_push. }
    unfold RingBuffer.query. rewrite (holds_scan undefined c _ _ Hc Hh').
    rewrite length_app. simpl.
    rewrite drop_app_le by lia.
    by rewrite last_snoc.
Qed.

Lemma requestUrls_pending (c : Z) (steps : list Step) (id : string) :
  requestUrls (run undefined c steps) !! id = pendingUrl steps id.
Proof.
  unfold run, pendingUrl. induction steps as [|s steps IH] using rev_ind; [done|].
  rewrite !foldl_app. simpl. rewrite <- IH.
  destruct s as [now [ | |rid m u|rid st u|rid e t]| |]; simpl; try done.
  - case_bool_decide as Heq; [subst; by rewrite lookup_insert_eq|by rewrite lookup_insert_ne].
  - case_bool_decide as Heq; [subst; by rewrite lookup_delete_eq|by rewrite lookup_delete_ne].
  - case_bool_decide as Heq; [subst; by rewrite lookup_delete_eq|by rewrite lookup_delete_ne].
Qed.

Lemma pendingUrl_quiet (steps mid : list Step) (id : string) :
  forallb (quietFor id) mid = true ->
  pendingUrl (steps ++ mid) id = pendingUrl steps id.
Proof.
  unfold pendingUrl. rewrite foldl_app.
  generalize (foldl (pendingAfter id) None steps) as p.
  induction mid as [|s mid IH]; intros p Hq; simpl; [done|].
  simpl in Hq. apply andb_true_iff in Hq as [Hs Hq].
  rewrite IH by done.
  destruct s as [now [ | |rid m u|rid st u|rid e t]| |]; simpl in *; try done;
    apply negb_true_iff, bool_decide_eq_false in Hs; by rewrite bool_decide_eq_false_2.
Qed.

(** A failure is given the URL of its request: when [requestWillBeSent]
    for an id is followed, with no response, failure or reconnection for
    that id in between, by [loadingFailed], the network_error event
    carries the URL of that request.  In general it carries the URL on
    record for the id, the empty string when there is none, and once a
    response or a failure has been seen the record for the id is gone. *)
Theorem failure_gets_request_url (c : Z) (steps mid : list Step)
    (id method u errorText type now1 now2 : string) :
  forallb (quietFor id) mid = true ->
  let before := steps ++ [Called now1 (RequestWillBeSent id method u)] ++ mid in
  eventOf (run undefined c before) now2 (LoadingFailed id errorText type)
  = mkEvent now2 None (NetworkError errorText type u) Unknown
  /\ (forall history,
        eventOf (run undefined c history) now2 (LoadingFailed id errorText type)
        = mkEvent now2 None
            (NetworkError errorText type (default "" (pendingUrl history id))) Unknown)
  /\ (forall history status url,
        requestUrls (run undefined c
                       (history ++ [Called now1 (ResponseReceived id status url)])) !! id
        = None)
  /\ (forall history,
        requestUrls (run undefined c
                       (history ++ [Called now1 (LoadingFailed id errorText type)])) !! id
        = None).
Proof.
  intros Hq before.
  assert (forall history,
    eventOf (run undefined c history) now2 (LoadingFailed id errorText type)
    = mkEvent now2 None
        (NetworkError errorText type (default "" (pendingUrl history id))) Unknown) as Hgen.
  { intros history. simpl. by rewrite requestUrls_pending. }
  split; [|split; [done|split]].
  - rewrite Hgen. unfold before. rewrite app_assoc, pendingUrl_quiet by done.
    unfold pendingUrl. rewrite foldl_app. simpl.
    by rewrite bool_decide_eq_true_2.
  - intros history status url. rewrite requestUrls_pending.
    unfold pendingUrl. rewrite foldl_app. simpl. by rewrite bool_decide_eq_true_2.
  - intros history. rewrite requestUrls_pending.
    unfold pendingUrl. rewrite foldl_app. simpl. by rewrite bool_decide_eq_true_2.
Qed.

End NormalizerFacts.

Lemma buffer_size_tracks_counters_witness :
  1 <= 3 /\
  RingBuffer.size (Normalizer.buffer (Normalizer.run Traffic.hole 3 Traffic.failing)) = 3
  /\ Normalizer.total (Normalizer.eventCounts (Normalizer.run Traffic.hole 3 Traffic.failing))
     = 4.
Proof.
  split; [lia|]. split; [|reflexivity].
  exact (proj1 (buffer_size_tracks_counters Traffic.hole 3 Traffic.failing ltac:(lia))).
Defined.

Lemma held_events_normalised_witness :
  1 <= 3 /\
  last (RingBuffer.query Traffic.hole
          (Normalizer.buffer
             (Normalizer.handle Traffic.hole
                (Normalizer.run Traffic.hole 3 Traffic.failing)
                "2026-01-01T00:00:05.000Z"
                (Normalizer.ConsoleAPICalled "warning" [] None))) None None)
  = Some (Events.mkEvent "2026-01-01T00:00:05.000Z" None (Events.Console "warn" "")
            Events.Unknown).
Proof.
  split; [lia|].
  exact (proj2 (held_events_normalised Traffic.hole 3 Traffic.failing ltac:(lia))
           "2026-01-01T00:00:05.000Z" (Normalizer.ConsoleAPICalled "warning" [] None)).
Defined.

Lemma failure_gets_request_url_witness :
  forallb (quietFor "7") (drop 1 Traffic.failing) = true
  /\ Normalizer.eventOf (Normalizer.run Traffic.hole 3 Traffic.failing)
       "2026-01-01T00:00:05.000Z" (Normalizer.LoadingFailed "7" "net::ERR_FAILED" "XHR")
     = Events.mkEvent "2026-01-01T00:00:05.000Z" None
         (Events.NetworkError "net::ERR_FAILED" "XHR" "https://example.com/a")
         Events.Unknown.
Proof.
  split; [reflexivity|].
  exact (proj1 (failure_gets_request_url Traffic.hole 3 [] (drop 1 Traffic.failing)
                  "7" "GET" "https://example.com/a" "net::ERR_FAILED" "XHR"
                  "2026-01-01T00:00:01.000Z" "2026-01-01T00:00:05.000Z" eq_refl)).
Defined.

(** ** The error endpoints *)

Section EndpointFacts.
Import Events Query Endpoints.
Variable undefined : BufferedEvent.
Variable cutoffFor : Z -> string.

Lemma addFrequency_events (thirtySecsAgo : string) (events : list BufferedEvent) :
  event <$> addFrequency thirtySecsAgo events = events.
Proof.
  unfold addFrequency. generalize (countByText (List.filter (isRecentError thirtySecsAgo) events)).
  intros counts. rewrite <- list_fmap_compose.
  induction events as [|e events IH]; [done|].
  rewrite fmap_cons. f_equal; [|done]. simpl. by repeat case_match.
Qed.

Lemma scan_all (rb : RingBuffer.t BufferedEvent) (f : BufferedEvent -> bool)
    (e : BufferedEvent) :
  e ∈ RingBuffer.scan undefined rb (Some f) ->
  f e = true /\ e ∈ RingBuffer.scan undefined rb None.
Proof.
  rewrite scan_filter. intros He.
  apply list_elem_of_In, filter_In in He as [Hin Hf].
  split; [done|by apply list_elem_of_In].
Qed.

Lemma error_classes (l : list BufferedEvent) :
  Forall (fun e => errorsFilter e = true) l ->
  length l = (length (List.filter isConsoleError l)
              + length (List.filter isException l)
              + length (List.filter isFailedRequest l))%nat.
Proof.
  induction 1 as [|e l He _ IH]; [done|]. simpl.
  assert (Nat.b2n (isConsoleError e) + Nat.b2n (isException e)
          + Nat.b2n (isFailedRequest e) = 1)%nat as Hone.
  { unfold errorsFilter in He. unfold isConsoleError, isException, isFailedRequest.
    destruct (body e); try done; by rewrite He. }
  destruct (isConsoleError e), (isException e), (isFailedRequest e);
    simpl in *; lia.
Qed.

Lemma pretty_N_go_head (x : N) (s : string) :
  (exists a r, s = String a r /\ a <> "n"%char) ->
  exists a r, pretty_N_go x s = String a r /\ a <> "n"%char.
Proof.
  revert s. induction (N.lt_wf_0 x) as [x _ IH]; intros s Hs.
  destruct (decide (x = 0%N)) as [->|Hx].
  - by rewrite pretty_N_go_0.
  - rewrite pretty_N_go_step by lia.
    apply IH; [apply N.div_lt; lia|].
    eexists _, _. split; [done|].
    unfold pretty_N_char. by repeat case_match.
Qed.

Lemma counted_head (n : Z) (noun : string) :
  0 < n -> exists a r, counted n noun = String a r /\ a <> "n"%char.
Proof.
  intros Hn. unfold counted. destruct n as [|p|p]; try lia.
  change (pretty (Z.pos p)) with (pretty_N_go (N.pos p) "").
  rewrite pretty_N_go_step by lia.
  destruct (pretty_N_go_head (N.pos p `div` 10)
              (String (pretty_N_char (N.pos p `mod` 10)) "")) as (a & r & -> & Ha).
  { eexists _, _. split; [done|]. unfold pretty_N_char. by repeat case_match. }
  by exists a, (r +:+ " " +:+ noun +:+ (if decide (1 < Z.pos p) then "s" else "")).
Qed.

(** The summary counts every held error once: the numbers of console
    errors, exceptions and failed requests add up to the total, and the
    summary is "no errors" exactly when the total is 0. *)
Theorem summary_counts_every_error (rb : RingBuffer.t BufferedEvent) :
  let errors := RingBuffer.query undefined rb (Some errorsSummaryFilter) None in
  let summary := fst (summaryHandler undefined rb) in
  let total := snd (summaryHandler undefined rb) in
  total = Z.of_nat (length (List.filter isConsoleError errors))
          + Z.of_nat (length (List.filter isException errors))
          + Z.of_nat (length (List.filter isFailedRequest errors))
  /\ total = Z.of_nat (length (List.filter errorsFilter
                                 (RingBuffer.query undefined rb None None)))
  /\ (summary = "no errors" <-> total = 0).
Proof.
  intros errors summary total.
  assert (Forall (fun e => errorsFilter e = true) errors) as Hall.
  { apply Forall_forall. intros e He. by apply (scan_all rb errorsSummaryFilter) in He as [He _]. }
  pose proof (error_classes errors Hall) as Hsum.
  assert (total = Z.of_nat (length errors)) as Htotal by done.
  split; [lia|]. split.
  { rewrite Htotal. unfold errors, RingBuffer.query. by rewrite scan_filter. }
  unfold summary, summaryHandler. fold errors. simpl.
  set (c := Z.of_nat (length (List.filter isConsoleError errors))) in *.
  set (x := Z.of_nat (length (List.filter isException errors))) in *.
  set (f := Z.of_nat (length (List.filter isFailedRequest errors))) in *.
  assert (0 <= c /\ 0 <= x /\ 0 <= f) as (Hc & Hx & Hf) by (unfold c, x, f; lia).
  unfold summaryParts.
  destruct (decide (0 < c)) as [Hc'|Hc'].
  - destruct (counted_head c "error" Hc') as (a & r & Hr & Ha).
    split; [|lia]. simpl. rewrite Hr.
    repeat case_decide; simpl; intros [= ? _]; done.
  - destruct (decide (0 < x)) as [Hx'|Hx'].
    + destruct (counted_head x "exception" Hx') as (a & r & Hr & Ha).
      split; [|lia]. simpl. rewrite Hr.
      repeat case_decide; simpl; intros [= ? _]; done.
    + destruct (decide (0 < f)) as [Hf'|Hf'].
      * destruct (counted_head f "failed request" Hf') as (a & r & Hr & Ha).
        split; [|lia]. simpl. rewrite Hr. intros [= ? _]; done.
      * simpl. split; [lia|done].
Qed.

(** The recent errors of [GET /inspect] are the events [GET /errors?last=5]
    returns, in the same order, five at most; its three error counts add
    up to the total of [GET /errors/summary]. *)
Theorem inspect_recent_errors (thirtySecsAgo : string) (rb : RingBuffer.t BufferedEvent) :
  let recent := snd (inspectErrors undefined rb) in
  recent = recentError <$>
             (event <$> errorsHandler undefined cutoffFor thirtySecsAgo rb
                          (Some "5") None None)
  /\ (length recent <= 5)%nat
  /\ (let '(c, x, f) := fst (inspectErrors undefined rb) in
      c + x + f = snd (summaryHandler undefined rb)).
Proof.
  intros recent.
  assert (recent = recentError <$>
            (event <$> errorsHandler undefined cutoffFor thirtySecsAgo rb
                         (Some "5") None None)) as Heq.
  { unfold errorsHandler. by rewrite addFrequency_events. }
  split; [done|]. split.
  - unfold recent, inspectErrors. simpl. rewrite length_fmap.
    unfold JS.array_slice. rewrite length_drop. simpl. lia.
  - simpl.
    assert (Forall (fun e => errorsFilter e = true)
              (RingBuffer.query undefined rb (Some inspectFilter) None)) as Hall.
    { apply Forall_forall. intros e He. by apply (scan_all rb inspectFilter) in He as [He _]. }
    pose proof (error_classes _ Hall) as Hsum.
    change (RingBuffer.query undefined rb (Some inspectFilter) None)
      with (RingBuffer.scan undefined rb (Some inspectFilter)) in Hsum.
    change (RingBuffer.scan undefined rb (Some errorsSummaryFilter))
      with (RingBuffer.scan undefined rb (Some inspectFilter)).
    lia.
Qed.

(** A [last] parameter that does not begin with a positive whole number
    ([0], a negative number, text) does not limit [GET /errors]: the
    reply is the one given without the parameter. *)
Theorem errors_last_ignored (thirtySecsAgo : string) (rb : RingBuffer.t BufferedEvent)
    (last : string) (minutes source : option string) :
  (forall z, Str.parseInt last = JS.Num z -> z <= 0) ->
  errorsHandler undefined cutoffFor thirtySecsAgo rb (Some last) minutes source
  = errorsHandler undefined cutoffFor thirtySecsAgo rb None minutes source.
Proof.
  intros Hlast. unfold errorsHandler. f_equal.
  unfold intParam at 2 4. simpl JS.truthy_opt.
  destruct (JS.truthy_string last); [|done]. simpl default.
  unfold RingBuffer.query.
  destruct (Str.parseInt last) as [|z]; [done|].
  specialize (Hlast z eq_refl). simpl.
  destruct (0 <? z) eqn:E; [lia|]. by rewrite andb_false_r.
Qed.

(** Every event [GET /errors] returns is a held error event; they come in
    the order of the buffer, have the requested source when one is given,
    and there are at most [last] of them when [last] is a positive
    number. *)
Theorem errors_reply_sound (thirtySecsAgo : string) (rb : RingBuffer.t BufferedEvent)
    (last minutes source : option string) :
  let reply := event <$> errorsHandler undefined cutoffFor thirtySecsAgo rb
                           last minutes source in
  reply `sublist_of` RingBuffer.query undefined rb None None
  /\ (forall e, e ∈ reply -> errorsFilter e = true)
  /\ (forall e s, e ∈ reply -> source = Some s -> s <> "" -> sourceName (src e) = s)
  /\ (forall n, intParam last = Some (JS.Num n) -> 0 < n ->
        (length reply <= Z.to_nat n)%nat).
Proof.
  intros reply. unfold reply, errorsHandler. rewrite addFrequency_events.
  set (filter := errorsQueryFilter cutoffFor (intParam minutes) source).
  pose proof (query_sublist_scan undefined rb (Some filter) (intParam last)) as Hsub.
  assert (forall e, filter e = true ->
            errorsFilter e = true
            /\ forall s, source = Some s -> s <> "" -> sourceName (src e) = s) as Hf.
  { intros e. unfold filter, errorsQueryFilter.
    destruct source as [[|a s]|]; simpl.
    - intros He. split; [|by intros ? [= <-]].
      destruct (intParam minutes) as [[|m]|]; try done.
      destruct (negb (m =? 0)); [by apply andb_true_iff in He as [? _]|done].
    - intros [He Hs]%andb_true_iff. apply bool_decide_eq_true in Hs.
      split; [|by intros ? [= <-]].
      destruct (intParam minutes) as [[|m]|]; try done.
      destruct (negb (m =? 0)); [by apply andb_true_iff in He as [? _]|done].
    - intros He. split; [|done].
      destruct (intParam minutes) as [[|m]|]; try done.
      destruct (negb (m =? 0)); [by apply andb_true_iff in He as [? _]|done]. }
  split; [|split; [|split]].
  - etrans; [exact Hsub|]. rewrite scan_filter. apply filter_sublist.
  - intros e He. apply (elem_of_sublist _ _ _ He) in Hsub.
    apply scan_all in Hsub as [Hfe _]. by apply Hf.
  - intros e s He Hs Hne. apply (elem_of_sublist _ _ _ He) in Hsub.
    apply scan_all in Hsub as [Hfe _]. by apply (Hf e Hfe).
  - intros n -> Hn. unfold RingBuffer.query. simpl.
    destruct (n =? 0) eqn:E0; [lia|]. destruct (0 <? n) eqn:E1; [|lia]. simpl.
    unfold JS.array_slice. rewrite length_drop.
    destruct (decide (- n < 0)); lia.
Qed.

End EndpointFacts.

Lemma errors_last_ignored_witness :
  let reply := fun last =>
    Query.event <$>
      Endpoints.errorsHandler Traffic.hole (fun _ => "") "2026-01-01T00:00:00.000Z"
        Traffic.mixedBuffer last None None in
  (forall z, Str.parseInt "-2" = JS.Num z -> z <= 0)
  /\ (forall z, Str.parseInt "abc" = JS.Num z -> z <= 0)
  /\ reply (Some "-2") = reply None
  /\ reply (Some "abc") = reply None
  /\ length (reply None) = 3%nat
  /\ length (reply (Some "2")) = 2%nat
  /\ length (reply (Some (Str.nbsp +:+ "2"))) = 2%nat.
Proof.
  intros reply.
  assert (forall z, Str.parseInt "-2" = JS.Num z -> z <= 0) as Hneg
    by (intros z [= <-]; lia).
  assert (forall z, Str.parseInt "abc" = JS.Num z -> z <= 0) as Hword by (intros z [=]).
  split; [exact Hneg|]. split; [exact Hword|]. split; [|split; [|split; [|split]]].
  - exact (f_equal (fmap Query.event)
             (errors_last_ignored Traffic.hole (fun _ => "") "2026-01-01T00:00:00.000Z"
                Traffic.mixedBuffer "-2" None None Hneg)).
  - exact (f_equal (fmap Query.event)
             (errors_last_ignored Traffic.hole (fun _ => "") "2026-01-01T00:00:00.000Z"
                Traffic.mixedBuffer "abc" None None Hword)).
  - reflexivity.
  - reflexivity.
  - reflexivity.
Defined.

(** ** A snapshot followed by clicks and fills *)

Section SessionFacts.
Import Dom Snapshot Daemon Spec.
Variable doc : document.
Variable querySelectorAll : option (list nat) -> string -> option (list (list nat)).

Lemma interactiveElements_refs (allCandidates : list Candidate) (els : list SnapshotRef) :
  Snapshot.interactiveElements doc querySelectorAll allCandidates = Some els ->
  (length els <= 75)%nat /\ ref <$> els = seqZ 1 (Z.of_nat (length els)).
Proof.
  unfold Snapshot.interactiveElements. rewrite assignRefs_describeAll by lia.
  change (Z.to_nat (76 - 1)) with 75%nat.
  destruct (describeAll _ _ _ _) as [ds|] eqn:E; simpl; [|done].
  intros [= <-]. apply describeAll_refs in E as [Hlen Hrefs].
  rewrite length_take in Hlen. rewrite length_take in Hrefs.
  split; [lia|]. by rewrite Hrefs, Hlen.
Qed.

Lemma entryFor_numbered (els : list SnapshotRef) (i : nat) (el : SnapshotRef) :
  ref <$> els = seqZ 1 (Z.of_nat (length els)) ->
  els !! i = Some el ->
  entryFor (Z.of_nat i + 1) els = Some el.
Proof.
  intros Hrefs Hi.
  assert ((ref <$> els) !! i = Some (ref el)) as Hri by (by rewrite list_lookup_fmap, Hi).
  assert (ref el = Z.of_nat i + 1) as Hel.
  { rewrite Hrefs in Hri. apply lookup_seqZ in Hri. lia. }
  destruct (entryFor (Z.of_nat i + 1) els) as [e|] eqn:E.
  - apply entryFor_Some in E as [Hin Hre].
    apply list_elem_of_lookup in Hin as [j Hj].
    assert ((ref <$> els) !! j = Some (ref el)) as Hrj.
    { rewrite list_lookup_fmap, Hj. simpl. by rewrite Hre, Hel. }
    assert (NoDup (ref <$> els)) as Hnd by (rewrite Hrefs; apply NoDup_seqZ).
    assert (i = j) as -> by exact (NoDup_lookup _ _ _ _ Hnd Hri Hrj).
    congruence.
  - apply entryFor_None in E. exfalso. apply E.
    rewrite <- Hel. apply list_elem_of_fmap. exists el. split; [done|].
    by apply list_elem_of_lookup_2 in Hi.
Qed.

Lemma entryFor_out_of_range (els : list SnapshotRef) (k : Z) :
  ref <$> els = seqZ 1 (Z.of_nat (length els)) ->
  ~ (1 <= k <= Z.of_nat (length els)) ->
  entryFor k els = None.
Proof.
  intros Hrefs Hk. apply entryFor_None. rewrite Hrefs. intros Hin.
  apply elem_of_seqZ in Hin. lia.
Qed.

(** After a successful snapshot the ref [i + 1] stands for the [i]-th
    element the snapshot listed: a click or fill whose ref has that
    number acts on that element's selector.  A ref whose number is not
    one of 1..n (another number, or no number at all) is answered with
    the 400 "not found" reply, which prints the ref as it was sent, and
    no protocol call.  At most 75 refs exist. *)
Theorem snapshot_then_click (st : State) (allCandidates : list Candidate)
    (els : list SnapshotRef) (page_url page_title ready : string)
    (watch : list (string * string * bool)) :
  client st = true -> connected st = true ->
  Snapshot.interactiveElements doc querySelectorAll allCandidates = Some els ->
  let snapshot := mkSnapshot page_url page_title ready watch els in
  let st' := fst (fst (snapshotHandler st (Resolved (SnapshotValue (Some snapshot))))) in
  (forall i el sent sel value filled eval,
      els !! i = Some el ->
      asNumber sent = JS.Num (Z.of_nat i + 1) ->
      fst (clickHandler st' (mkBody (Some sent) sel value) eval)
      = [RuntimeEnable; EvaluateClick (selector el)]
      /\ fst (fillHandler st' (mkBody (Some sent) sel (Some filled)) eval)
         = [RuntimeEnable; EvaluateFill (selector el) filled])
  /\ (forall sent sel value eval,
        (forall k, asNumber sent = JS.Num k -> ~ (1 <= k <= Z.of_nat (length els))) ->
        let stale := jsonError 400
                       ("Ref @" +:+ asText sent +:+ " not found. Run snapshot first.") in
        clickHandler st' (mkBody (Some sent) sel value) eval = ([], stale)
        /\ fillHandler st' (mkBody (Some sent) sel value) eval = ([], stale))
  /\ (length els <= 75)%nat.
Proof.
  intros Hc Hn Hels snapshot st'.
  destruct (interactiveElements_refs _ _ Hels) as [Hlen Hrefs].
  assert (client st' = true /\ connected st' = true) as [Hc' Hn'].
  { unfold st', snapshotHandler. by rewrite Hc, Hn. }
  assert (forall r, refMap st' !! r = entryFor r els) as Hmap.
  { intros r. unfold st', snapshotHandler. rewrite Hc, Hn. simpl.
    apply replaceRefs_lookup. }
  split; [|split; [|done]].
  - intros i el sent sel value filled eval Hi Hsent.
    pose proof (entryFor_numbered els i el Hrefs Hi) as He.
    unfold clickHandler, fillHandler, resolveTarget. rewrite Hc', Hn'. simpl.
    rewrite Hsent. simpl. by rewrite Hmap, He.
  - intros sent sel value eval Hk stale.
    assert (getRef (refMap st') (asNumber sent) = None) as He.
    { destruct (asNumber sent) as [|k] eqn:E; [done|]. simpl.
      rewrite Hmap. apply (entryFor_out_of_range els k Hrefs). by apply Hk. }
    unfold clickHandler, fillHandler, resolveTarget. rewrite Hc', Hn'. simpl.
    by rewrite He.
Qed.

End SessionFacts.

(** ** Shadow-qualified selectors *)

Section ResolveFacts.
Import Dom Snapshot Resolve.
Variable doc : document.
Variable querySelectorAll : option (list nat) -> string -> option (list (list nat)).
Variable Element : Type.
Variable querySelector : option Element -> string -> option (option Element).
Variable hasShadowRoot : Element -> bool.

Lemma prefix_cons (x y : ascii) (p s : string) :
  Stdlib.Strings.String.prefix (String x p) (String y s)
  = if ascii_dec x y then Stdlib.Strings.String.prefix p s else false.
Proof. done. Qed.

Lemma split_no_separator (sep s : string) :
  Normalizer.includes s sep = false -> split sep 0 s = [s].
Proof.
  induction s as [|a s IH]; [done|].
  intros H.
  change (Normalizer.includes (String a s) sep)
    with (Stdlib.Strings.String.prefix sep (String a s) || Normalizer.includes s sep) in H.
  apply orb_false_iff in H as [Hp Hi].
  change (split sep 0 (String a s))
    with (if Stdlib.Strings.String.prefix sep (String a s)
          then EmptyString :: split sep (Stdlib.Strings.String.length sep - 1) s
          else match split sep 0 s with
               | [] => [String a EmptyString]
               | w :: ws => String a w :: ws
               end).
  by rewrite Hp, (IH Hi).
Qed.

Lemma endsWith_tail (a b : ascii) (s : string) :
  Str.endsWith (String a (String b s)) ">" = Str.endsWith (String b s) ">".
Proof.
  unfold Str.endsWith. simpl Stdlib.Strings.String.length.
  destruct (decide (1 <= S (S (Stdlib.Strings.String.length s)))%nat); [|lia].
  destruct (decide (1 <= S (Stdlib.Strings.String.length s))%nat); [|lia].
  replace (S (S (Stdlib.Strings.String.length s)) - 1)%nat
    with (S (S (Stdlib.Strings.String.length s) - 1))%nat by lia.
  done.
Qed.

Lemma includes_joined (host inner : string) :
  Normalizer.includes (host +:+ ">>>" +:+ inner) ">>>" = true.
Proof.
  induction host as [|a host IH].
  - change (EmptyString +:+ ">>>" +:+ inner) with (String ">" (String ">" (String ">" inner))).
    simpl. by destruct inner.
  - change (String a host +:+ ">>>" +:+ inner)
      with (String a (host +:+ ">>>" +:+ inner)).
    change (Normalizer.includes (String a (host +:+ ">>>" +:+ inner)) ">>>")
      with (Stdlib.Strings.String.prefix ">>>" (String a (host +:+ ">>>" +:+ inner))
            || Normalizer.includes (host +:+ ">>>" +:+ inner) ">>>").
    rewrite IH. apply orb_true_r.
Qed.

Lemma split_joined (host inner : string) :
  Normalizer.includes host ">>>" = false ->
  Str.endsWith host ">" = false ->
  Normalizer.includes inner ">>>" = false ->
  split ">>>" 0 (host +:+ ">>>" +:+ inner) = [host; inner].
Proof.
  intros Hh He Hi. induction host as [|a host IH].
  - destruct inner as [|x inner]; [done|].
    change (EmptyString +:+ ">>>" +:+ String x inner)
      with (String ">" (String ">" (String ">" (String x inner)))).
    change (split ">>>" 0 (String ">" (String ">" (String ">" (String x inner)))))
      with (EmptyString :: split ">>>" 0 (String x inner)).
    by rewrite (split_no_separator _ _ Hi).
  - change (Normalizer.includes (String a host) ">>>")
      with (Stdlib.Strings.String.prefix ">>>" (String a host)
            || Normalizer.includes host ">>>") in Hh.
    apply orb_false_iff in Hh as [Hp Hh].
    assert (Str.endsWith host ">" = false) as He'.
    { destruct host as [|b host]; [done|]. by rewrite <- (endsWith_tail a). }
    change (String a host +:+ ">>>" +:+ inner)
      with (String a (host +:+ ">>>" +:+ inner)).
    change (split ">>>" 0 (String a (host +:+ ">>>" +:+ inner)))
      with (if Stdlib.Strings.String.prefix ">>>" (String a (host +:+ ">>>" +:+ inner))
            then EmptyString :: split ">>>" 2 (host +:+ ">>>" +:+ inner)
            else match split ">>>" 0 (host +:+ ">>>" +:+ inner) with
                 | [] => [String a EmptyString]
                 | w :: ws => String a w :: ws
                 end).
    rewrite (IH Hh He').
    assert (Stdlib.Strings.String.prefix ">>>" (String a (host +:+ ">>>" +:+ inner)) = false)
      as ->; [|done].
    destruct host as [|b [|c host]].
    + change (String a (EmptyString +:+ ">>>" +:+ inner))
        with (String a (String ">" (String ">" (String ">" inner)))).
      rewrite prefix_cons. destruct (ascii_dec ">" a) as [<-|]; [|done].
      by vm_compute in He.
    + change (String a (String b EmptyString +:+ ">>>" +:+ inner))
        with (String a (String b (String ">" (String ">" (String ">" inner))))).
      rewrite !prefix_cons. destruct (ascii_dec ">" a) as [<-|]; [|done].
      destruct (ascii_dec ">" b) as [<-|]; [|done].
      by vm_compute in He.
    + change (String a (String b (String c host) +:+ ">>>" +:+ inner))
        with (String a (String b (String c (host +:+ ">>>" +:+ inner)))).
      rewrite !prefix_cons in Hp. rewrite !prefix_cons.
      destruct (ascii_dec ">" a); [|done].
      destruct (ascii_dec ">" b); [|done].
      destruct (ascii_dec ">" c); [|done].
      by destruct host.
Qed.

(** The selector the snapshot gives an element inside a shadow root is
    its host's selector, [>>>], and the element's selector inside that
    root.  When the host part holds no [>>>] and does not end in [>],
    and the inner part holds no [>>>], a click or fill splits the
    selector back into these two parts: it looks the host up in the
    document and the inner part in the host's shadow root. *)
Theorem shadow_selector_resolves (c : Candidate) (r : Z) (h : list nat) (inner : string) :
  shadowHost c = Some h ->
  innerSelector doc querySelectorAll c
    (default emptyNode (nodeAt (rootChildren doc (shadowHost c)) (el c))) = Some inner ->
  let hs := hostSelector (default emptyNode (nodeAt doc h)) in
  Normalizer.includes hs ">>>" = false ->
  Str.endsWith hs ">" = false ->
  Normalizer.includes inner ">>>" = false ->
  exists d,
    describe doc querySelectorAll c r = Some d
    /\ selector d = hs +:+ ">>>" +:+ inner
    /\ resolve Element querySelector hasShadowRoot (selector d)
       = host ← querySelector None hs;
         match host with
         | None => Some None
         | Some e => if hasShadowRoot e then querySelector (Some e) inner else Some None
         end.
Proof.
  intros Hh Hinner hs H1 H2 H3.
  unfold describe. rewrite Hinner, Hh. simpl.
  eexists. split; [done|]. simpl. split; [done|].
  fold hs. unfold resolve.
  by rewrite includes_joined, (split_joined hs inner H1 H2 H3).
Qed.

End ResolveFacts.

Lemma snapshot_then_click_witness :
  let st := Daemon.mkState true true ∅ in
  let all := [Samples.goButton; Samples.firstItem; Samples.secondItem] in
  exists els el,
    let st' := fst (fst (Daemon.snapshotHandler st
                           (Daemon.Resolved (Daemon.SnapshotValue
                              (Some (Daemon.mkSnapshot "https://example.com" "List"
                                       "complete" [] els)))))) in
    Snapshot.interactiveElements Samples.listPage Samples.listPageQuery all = Some els
    /\ els !! 1%nat = Some el
    /\ Snapshot.selector el = "body > ul > li:nth-of-type(1)"
    /\ fst (Daemon.clickHandler st'
              (Daemon.mkBody (Some (Daemon.sentNumber 2)) None None)
              (Daemon.Resolved Daemon.PageUndefined))
       = [Daemon.RuntimeEnable; Daemon.EvaluateClick (Snapshot.selector el)]
    /\ Daemon.clickHandler st'
         (Daemon.mkBody (Some Daemon.sentNull) None None)
         (Daemon.Resolved Daemon.PageUndefined)
       = ([], Daemon.jsonError 400 "Ref @null not found. Run snapshot first.").
Proof.
  intros st all.
  destruct (Snapshot.interactiveElements Samples.listPage Samples.listPageQuery all)
    as [els|] eqn:E; [|discriminate E].
  destruct (els !! 1%nat) as [el|] eqn:E1;
    [|revert E1; vm_compute in E; injection E as <-; discriminate].
  exists els, el. intros st'.
  pose proof (snapshot_then_click Samples.listPage Samples.listPageQuery st all els
                "https://example.com" "List" "complete" []
                eq_refl eq_refl E) as (Hfound & Hstale & _).
  split; [reflexivity|]. split; [exact E1|]. split.
  { revert E1. vm_compute in E. injection E as <-. intros [= <-]. reflexivity. }
  split.
  - exact (proj1 (Hfound 1%nat el (Daemon.sentNumber 2) None None ""
                    (Daemon.Resolved Daemon.PageUndefined) E1 eq_refl)).
  - refine (proj1 (Hstale Daemon.sentNull None None
                     (Daemon.Resolved Daemon.PageUndefined) _)).
    intros k [= <-]. lia.
Defined.

Lemma shadow_selector_resolves_witness :
  exists d,
    Snapshot.describe Samples.widgetPage Samples.widgetQuery Samples.fourthLink 1 = Some d
    /\ Snapshot.selector d = "my-widget" +:+ ">>>" +:+ "a:nth-of-type(4)"
    /\ Resolve.resolve (list nat) (fun _ _ => Some (Some [])) (fun _ => true)
         (Snapshot.selector d)
       = Some (Some []).
Proof.
  exact (shadow_selector_resolves Samples.widgetPage Samples.widgetQuery (list nat)
           (fun _ _ => Some (Some [])) (fun _ => true)
           Samples.fourthLink 1 Samples.widgetHost "a:nth-of-type(4)"
           eq_refl eq_refl eq_refl eq_refl eq_refl).
Defined.

(** ** Reloading an extension *)

Section ReloadFacts.
Import ReloadExt.

Lemma setAdd_fold (l acc : list string) :
  NoDup acc ->
  NoDup (foldl setAdd acc l)
  /\ forall x, x ∈ foldl setAdd acc l <-> x ∈ acc \/ x ∈ l.
Proof.
  revert acc. induction l as [|y l IH]; intros acc Hacc; simpl.
  - split; [done|]. intros x. rewrite elem_of_nil. tauto.
  - assert (NoDup (setAdd acc y)) as Hnd.
    { unfold setAdd. case_bool_decide; [done|].
      apply NoDup_app. split; [done|]. split; [|apply NoDup_singleton].
      intros x Hx ->%list_elem_of_singleton. done. }
    destruct (IH _ Hnd) as [Hnd' Hin]. split; [done|].
    intros x. rewrite Hin, elem_of_cons. unfold setAdd.
    case_bool_decide as Hy.
    + split; [tauto|]. intros [?|[->|?]]; tauto.
    + rewrite elem_of_app, list_elem_of_singleton. tauto.
Qed.

Lemma setOf_NoDup (l : list string) : NoDup (setOf l).
Proof. apply (setAdd_fold l []). constructor. Qed.

Lemma setOf_elem (l : list string) (x : string) : x ∈ setOf l <-> x ∈ l.
Proof.
  unfold setOf. rewrite (proj2 (setAdd_fold l [] (NoDup_nil_2))). rewrite elem_of_nil. tauto.
Qed.

Lemma setOf_size (l : list string) :
  size (list_to_set (C:=gset string) l) = length (setOf l).
Proof.
  rewrite <- (size_list_to_set (C:=gset string) (setOf l)) by apply setOf_NoDup.
  f_equal. apply set_eq. intros x. rewrite !elem_of_list_to_set. by rewrite setOf_elem.
Qed.

Lemma filter_elem (f : string -> bool) (l : list string) (x : string) :
  x ∈ List.filter f l <-> x ∈ l /\ f x = true.
Proof. by rewrite !list_elem_of_In, filter_In. Qed.

Lemma filter_split (f : string -> bool) (l : list string) :
  length l = (length (List.filter (fun x => negb (f x)) l) + length (List.filter f l))%nat.
Proof.
  induction l as [|x l IH]; [done|]. simpl. destruct (f x); simpl; lia.
Qed.

(** The diff of a reload accounts for every distinct error message once:
    [newErrors] are the messages present after and not before,
    [resolvedErrors] those present before and not after, neither list
    repeats a message, and [unchanged] is the number of the remaining
    distinct messages on either side. *)
Theorem reload_diff_accounts (extBefore : ExtensionInfo) (extAfter : option ExtensionInfo) :
  let d := diff extBefore extAfter in
  let before := message <$> runtimeErrors extBefore in
  let after := messagesOf extAfter in
  NoDup (newErrors d) /\ NoDup (resolvedErrors d)
  /\ (forall m, m ∈ newErrors d <-> m ∈ after /\ m ∉ before)
  /\ (forall m, m ∈ resolvedErrors d <-> m ∈ before /\ m ∉ after)
  /\ Z.of_nat (size (list_to_set (C:=gset string) after))
     = Z.of_nat (length (newErrors d)) + unchanged d
  /\ Z.of_nat (size (list_to_set (C:=gset string) before))
     = Z.of_nat (length (resolvedErrors d)) + unchanged d.
Proof.
  intros d before after. unfold d, diff. fold before after. simpl.
  set (B := setOf before). set (A := setOf after).
  assert (NoDup A) as HA by apply setOf_NoDup.
  assert (NoDup B) as HB by apply setOf_NoDup.
  assert (forall s x, has s x = true <-> x ∈ s) as Hhas.
  { intros s x. unfold has. apply bool_decide_eq_true. }
  assert (forall s x, negb (has s x) = true <-> x ∉ s) as Hnot.
  { intros s x. rewrite negb_true_iff, <- not_true_iff_false. by rewrite Hhas. }
  split; [|split; [|split; [|split; [|split]]]].
  - eapply sublist_NoDup; [|apply filter_sublist]; done.
  - eapply sublist_NoDup; [|apply filter_sublist]; done.
  - intros m. rewrite filter_elem, Hnot. unfold A, B. by rewrite !setOf_elem.
  - intros m. rewrite filter_elem, Hnot. unfold A, B. by rewrite !setOf_elem.
  - rewrite setOf_size. fold A. pose proof (filter_split (has B) A) as Hs.
    change (fun e => has B e) with (has B). lia.
  - rewrite setOf_size. fold B. pose proof (filter_split (has A) B) as Hs.
    change (fun e => has B e) with (has B).
    assert (length (List.filter (has A) B) = length (List.filter (has B) A)) as Hsame; [|lia].
    apply Permutation_length, NoDup_Permutation.
    + eapply sublist_NoDup; [|apply filter_sublist]; done.
    + eapply sublist_NoDup; [|apply filter_sublist]; done.
    + intros x. rewrite !filter_elem, !Hhas. tauto.
Qed.

Lemma includes_question (pid q : string) :
  Normalizer.includes (pid +:+ "?" +:+ q) "?" = true.
Proof.
  induction pid as [|a pid IH].
  - change ("" +:+ "?" +:+ q) with (String "?" q).
    change (Normalizer.includes (String "?" q) "?")
      with (Stdlib.Strings.String.prefix "?" (String "?" q) || Normalizer.includes q "?").
    rewrite prefix_cons. by destruct q.
  - change (String a pid +:+ "?" +:+ q) with (String a (pid +:+ "?" +:+ q)).
    change (Normalizer.includes (String a (pid +:+ "?" +:+ q)) "?")
      with (Stdlib.Strings.String.prefix "?" (String a (pid +:+ "?" +:+ q))
            || Normalizer.includes (pid +:+ "?" +:+ q) "?").
    rewrite IH. apply orb_true_r.
Qed.

(** A reload request that carries a query string (as the command line
    sends with [--inspect]) looks for an extension whose id is the id
    followed by [?] and the query.  When no installed extension has a
    [?] in its id the answer is the 404 "not found" reply, and the
    extension is not reloaded. *)
Theorem reload_with_query_not_found (pid q : string) (exts afterExts : list ExtensionInfo) :
  Router.noSlash pid = true -> Router.noSlash q = true ->
  (forall e, e ∈ exts -> Normalizer.includes (id e) "?" = false) ->
  serve "POST" ("/reload-ext/" +:+ pid +:+ "?" +:+ q) exts afterExts
  = Some ([QueryExtensions],
          NotFound ("Extension " +:+ (pid +:+ "?" +:+ q) +:+ " not found")).
Proof.
  intros Hpid Hq Hexts. unfold serve.
  set (v := pid +:+ "?" +:+ q).
  assert (Router.noSlash v = true) as Hv.
  { unfold v. rewrite !noSlash_app, Hpid, Hq. done. }
  assert (v <> "") as Hne by (unfold v; by apply append_nonempty).
  assert (Router.matchRoute Router.daemonRoutes "POST" ("/reload-ext/" +:+ v)
          = Some (Router.ReloadExt, [("id", v)])) as ->.
  { change (match Router.grab (Router.matchTokens []) "" v with
            | Some captures => Some (Router.ReloadExt, Router.bindParams ["id"] captures)
            | None => Router.matchRoute (drop 9 Router.daemonRoutes) "POST"
                        ("/reload-ext/" +:+ v)
            end = Some (Router.ReloadExt, [("id", v)])).
    by rewrite (grab_to_end _ [] "" v eq_refl Hv Hne). }
  unfold reloadExt.
  destruct (findExt exts v) as [e|] eqn:E; [|done].
  apply find_some in E as [Hin He]. apply bool_decide_eq_true in He.
  apply list_elem_of_In, Hexts in Hin.
  rewrite He in Hin. unfold v in Hin. by rewrite includes_question in Hin.
Qed.

End ReloadFacts.

(** ** Connection retries *)

Section ConnectFacts.
Import Connect.
Variable C : Type.
Variable attempt : Z -> Outcome C.

Lemma loop_spec (retries : Z) (fuel : nat) (i : Z) :
  0 <= i < retries -> (Z.to_nat (retries - i) <= fuel)%nat ->
  exists k res,
    i <= k < retries
    /\ (forall j, i <= j < k -> exists err, attempt j = Refused err)
    /\ loop C attempt retries fuel i
       = Some (mkRun (seqZ i (k - i + 1))
                 ((fun j => 200 * (j + 1)) <$> seqZ i (k - i)) res)
    /\ match attempt k with
       | Opened c => res = Returned c
       | Refused err => k = retries - 1 /\ res = Thrown err
       end.
Proof.
  revert i. induction fuel as [|fuel IH]; intros i Hi Hfuel; [lia|].
  simpl. destruct (i <? retries) eqn:Elt; [|lia].
  destruct (attempt i) as [c|err] eqn:Ea.
  - exists i, (Returned c). split; [lia|]. split; [intros; lia|].
    rewrite Ea. replace (i - i + 1) with 1 by lia. replace (i - i) with 0 by lia. done.
  - destruct (i =? retries - 1) eqn:Elast.
    + exists i, (Thrown err). split; [lia|]. split; [intros; lia|].
      rewrite Ea. replace (i - i + 1) with 1 by lia. replace (i - i) with 0 by lia.
      split; [done|]. split; [lia|done].
    + destruct (IH (i + 1)) as (k & res & Hk & Hrefused & -> & Hres); [lia|lia|].
      exists k, res. split; [lia|]. split.
      { intros j Hj. destruct (decide (j = i)) as [->|]; [by exists err|].
        apply Hrefused. lia. }
      split; [|done]. simpl.
      rewrite (seqZ_cons i (k - i + 1)) by lia.
      rewrite (seqZ_cons i (k - i)) by lia.
      replace (Z.succ i) with (i + 1) by lia.
      replace (Z.pred (k - i + 1)) with (k - (i + 1) + 1) by lia.
      replace (Z.pred (k - i)) with (k - (i + 1)) by lia.
      done.
Qed.

(** With at least one try allowed, [cdpConnect] calls [CDP] with the
    counters 0, 1, ..., k, where k is the first counter at which the
    call succeeds, or the last one allowed when all fail.  It sleeps
    200, 400, ..., 200 * k ms between the calls (not after the last),
    returns the client of call k or throws the error of the last call. *)
Theorem cdpConnect_retries (retries : Z) :
  1 <= retries ->
  exists k,
    0 <= k < retries
    /\ (forall j, 0 <= j < k -> exists err, attempt j = Refused err)
    /\ cdpConnect C attempt retries
       = Some (mkRun (seqZ 0 (k + 1))
                 ((fun j => 200 * (j + 1)) <$> seqZ 0 k)
                 match attempt k with
                 | Opened c => Returned c
                 | Refused err => Thrown err
                 end)
    /\ (forall err, attempt k = Refused err -> k = retries - 1).
Proof.
  intros Hr. unfold cdpConnect.
  destruct (loop_spec retries (Z.to_nat retries) 0) as (k & res & Hk & Hrefused & -> & Hres);
    [lia|lia|].
  exists k. split; [lia|]. split; [done|].
  replace (k - 0 + 1) with (k + 1) by lia. replace (k - 0) with k by lia.
  destruct (attempt k) as [c|err].
  - subst res. split; [done|]. intros ? [=].
  - destruct Hres as [-> ->]. split; [done|]. done.
Qed.

End ConnectFacts.

(** ** Configuration file lookup *)

Section ConfigFacts.
Import Config.
Variable existsSync : list string -> string -> bool.

Lemma candidateIn_spec (dir : list string) :
  match candidateIn existsSync dir with
  | Some filename =>
      existsSync dir filename = true /\ filename ∈ CONFIG_FILENAMES
      /\ (filename = "agent-crx.config.json" -> existsSync dir "agent-crx.json" = false)
  | None => forall name, name ∈ CONFIG_FILENAMES -> existsSync dir name = false
  end.
Proof.
  unfold candidateIn, CONFIG_FILENAMES. simpl.
  destruct (existsSync dir "agent-crx.json") eqn:E1.
  { split; [done|]. split; [set_solver|]. intros [=]. }
  destruct (existsSync dir "agent-crx.config.json") eqn:E2.
  { split; [done|]. split; [set_solver|done]. }
  intros name Hin.
  apply elem_of_cons in Hin as [->|Hin]; [done|].
  apply elem_of_cons in Hin as [->|Hin]; [done|].
  by apply elem_of_nil in Hin.
Qed.

(** [findConfigFile] returns the configuration file of the nearest
    directory that has one, going from the start directory up; the
    root directory itself is never looked at.  In a directory that holds
    both names, [agent-crx.json] is the one returned.  It returns
    nothing exactly when no directory below the root on the way up has
    a file of either name. *)
Theorem findConfigFile_nearest (start : list string) :
  match findConfigFile existsSync start with
  | Some (dir, filename) =>
      exists k : nat,
        (k < length start)%nat /\ dir = drop k start
        /\ existsSync dir filename = true /\ filename ∈ CONFIG_FILENAMES
        /\ (filename = "agent-crx.config.json" -> existsSync dir "agent-crx.json" = false)
        /\ forall (j : nat) name, (j < k)%nat -> name ∈ CONFIG_FILENAMES ->
             existsSync (drop j start) name = false
  | None =>
      forall (j : nat) name, (j < length start)%nat -> name ∈ CONFIG_FILENAMES ->
        existsSync (drop j start) name = false
  end.
Proof.
  induction start as [|d parent IH]; [simpl; intros; lia|].
  change (findConfigFile existsSync (d :: parent))
    with (match candidateIn existsSync (d :: parent) with
          | Some filename => Some (d :: parent, filename)
          | None => findConfigFile existsSync parent
          end).
  pose proof (candidateIn_spec (d :: parent)) as Hc.
  destruct (candidateIn existsSync (d :: parent)) as [filename|].
  - destruct Hc as (He & Hin & Hpref).
    exists 0%nat. simpl. split; [lia|]. repeat split; try done. intros; lia.
  - destruct (findConfigFile existsSync parent) as [[dir filename]|].
    + destruct IH as (k & Hk & -> & He & Hin & Hpref & Hnear).
      exists (S k). simpl. split; [lia|]. repeat split; try done.
      intros [|j] name Hj Hname; [by apply Hc|]. apply Hnear; [lia|done].
    + intros [|j] name Hj Hname; [by apply Hc|]. simpl in *. apply IH; [lia|done].
Qed.

End ConfigFacts.

(** ** Text output *)

Section FormatFacts.
Import Snapshot Format Events Query Endpoints.

Lemma inspectElementLine_formatElementRef (el : SnapshotRef) :
  inspectElementLine el = "  @" +:+ pretty (ref el) +:+ " " +:+ formatElementRef el.
Proof.
  unfold inspectElementLine, formatElementRef, shownHref.
  by destruct (JS.truthy_opt (role el)).
Qed.

(** [formatInspect] prints what [formatSnapshot] prints for the same
    page, with the error lines put in after the header (the URL, the
    title and the extension line): the watchlist and the element lines
    of the two commands are the same. *)
Theorem inspect_extends_snapshot (result : InspectResult) :
  let header := match iextension result with Some _ => 3%nat | None => 2%nat end in
  let snapshot := snapshotLines (snapshotOf result) (iextension result) in
  inspectLines result = take header snapshot ++ errorLines result ++ drop header snapshot.
Proof.
  intros header snapshot. unfold header, snapshot, inspectLines, snapshotLines, snapshotOf.
  simpl.
  assert (inspectElementLine <$> iinteractiveElements result
          = (fun el => "  @" +:+ pretty (ref el) +:+ " " +:+ formatElementRef el)
              <$> iinteractiveElements result) as ->.
  { apply list_fmap_ext. intros _ el _. apply inspectElementLine_formatElementRef. }
  destruct (iextension result); repeat case_decide; simpl;
    by rewrite <- ?app_assoc, ?app_nil_r.
Qed.

(** How [formatInspect] shows a recent error of [GET /inspect]: a
    console error or exception by its text, an error response as status
    and URL, a failed request as its error text and URL.  ["unknown"]
    is printed only for a failed request with an empty error text. *)
Theorem recent_error_message (e : BufferedEvent) :
  errorsFilter e = true ->
  recentMessage (recentError e)
  = match body e with
    | Console _ t | Exception t => t
    | Response status u => pretty status +:+ " " +:+ u
    | NetworkError err _ u =>
        if decide (err = "") then "unknown"
        else err +:+ (if decide (u = "") then "" else " " +:+ u)
    | _ => "unknown"
    end.
Proof.
  unfold errorsFilter, recentError, recentMessage.
  destruct (body e) as [level t|t|m u|status u|err rt u|p]; simpl; try done.
  - intros Hs. apply bool_decide_eq_true in Hs.
    destruct (status =? 0) eqn:E; [lia|done].
  - intros _. destruct err; [done|]. simpl. by destruct u.
Qed.

End FormatFacts.

(** ** The console endpoint *)

Section ConsoleFacts.
Import Events Query Endpoints ConsoleEndpoint.
Variable undefined : BufferedEvent.
Variable cutoffFor : Z -> string.

(** Every event [GET /console] returns is a held console or exception
    event; they come in the order of the buffer.  With a non-empty [q]
    the text of each contains it, with a [source] each has that source,
    and with a positive [last] there are at most that many. *)
Theorem console_reply_sound (rb : RingBuffer.t BufferedEvent)
    (pattern last minutes source : option string) :
  let reply := consoleHandler undefined cutoffFor rb pattern last minutes source in
  reply `sublist_of` RingBuffer.query undefined rb None None
  /\ (forall e, e ∈ reply -> has_text e = true)
  /\ (forall e p, e ∈ reply -> pattern = Some p -> p <> "" ->
        Normalizer.includes (text_or_empty e) p = true)
  /\ (forall e s, e ∈ reply -> source = Some s -> s <> "" -> sourceName (src e) = s)
  /\ (forall n, intParam last = Some (JS.Num n) -> 0 < n ->
        (length reply <= Z.to_nat n)%nat).
Proof.
  intros reply. unfold reply, consoleHandler.
  set (filter := consoleFilter cutoffFor pattern (intParam minutes) source).
  pose proof (query_sublist_scan undefined rb (Some filter) (intParam last)) as Hsub.
  assert (forall e, filter e = true ->
            has_text e = true
            /\ (forall p, pattern = Some p -> p <> "" ->
                  Normalizer.includes (text_or_empty e) p = true)
            /\ forall s, source = Some s -> s <> "" -> sourceName (src e) = s) as Hf.
  { intros e. unfold filter, consoleFilter.
    assert (baseFilter e = true -> has_text e = true) as Hbase.
    { unfold baseFilter, has_text. by destruct (body e). }
    set (f1 := if JS.truthy_opt pattern
               then fun e => baseFilter e && has_text e
                             && Normalizer.includes (text_or_empty e) (default "" pattern)
               else baseFilter).
    assert (f1 e = true ->
            has_text e = true
            /\ forall p, pattern = Some p -> p <> "" ->
                 Normalizer.includes (text_or_empty e) p = true) as H1.
    { unfold f1. destruct pattern as [[|a p]|]; simpl.
      - intros He. split; [by apply Hbase|]. by intros ? [= <-].
      - intros [[Hb Ht]%andb_true_iff Hi]%andb_true_iff.
        split; [done|]. by intros ? [= <-].
      - intros He. split; [by apply Hbase|done]. }
    set (f2 := match intParam minutes with
               | Some (JS.Num m) =>
                   if JS.truthy (JS.Num m)
                   then fun e => f1 e && minutesFilter (cutoffFor m) e
                   else f1
               | _ => f1
               end).
    assert (f2 e = true -> f1 e = true) as H2.
    { unfold f2. destruct (intParam minutes) as [[|m]|]; try done.
      destruct (JS.truthy (JS.Num m)); [|done]. by intros [? _]%andb_true_iff. }
    destruct source as [[|a s]|]; simpl.
    - intros He. destruct (H1 (H2 He)) as [? ?]. repeat split; try done. by intros ? [= <-].
    - intros [He Hs]%andb_true_iff. apply bool_decide_eq_true in Hs.
      destruct (H1 (H2 He)) as [? ?]. repeat split; try done. by intros ? [= <-].
    - intros He. destruct (H1 (H2 He)) as [? ?]. repeat split; done. }
  assert (forall e, e ∈ RingBuffer.query undefined rb (Some filter) (intParam last) ->
            filter e = true) as Hall.
  { intros e He. apply (elem_of_sublist _ _ _ He) in Hsub.
    by apply scan_all in Hsub as [Hfe _]. }
  split; [|split; [|split; [|split]]].
  - etrans; [exact Hsub|]. rewrite scan_filter. apply filter_sublist.
  - intros e He. by apply Hf, Hall.
  - intros e p He. by apply Hf, Hall.
  - intros e s He. by apply Hf, Hall.
  - intros n -> Hn. unfold RingBuffer.query. simpl.
    destruct (n =? 0) eqn:E0; [lia|]. destruct (0 <? n) eqn:E1; [|lia]. simpl.
    unfold JS.array_slice. rewrite length_drop.
    destruct (decide (- n < 0)); lia.
Qed.

End ConsoleFacts.

Lemma reload_with_query_not_found_witness :
  let installed := [ReloadExt.mkExt "abc" "Demo" "1.0" true 0 []] in
  Router.noSlash "abc" = true /\ Router.noSlash "inspect=true" = true
  /\ (forall e, e ∈ installed -> Normalizer.includes (ReloadExt.id e) "?" = false)
  /\ ReloadExt.serve "POST" "/reload-ext/abc?inspect=true" installed installed
     = Some ([ReloadExt.QueryExtensions],
             ReloadExt.NotFound "Extension abc?inspect=true not found").
Proof.
  intros installed.
  assert (forall e, e ∈ installed -> Normalizer.includes (ReloadExt.id e) "?" = false) as H.
  { intros e He. apply list_elem_of_singleton in He. subst e. reflexivity. }
  split; [reflexivity|]. split; [reflexivity|]. split; [exact H|].
  exact (reload_with_query_not_found "abc" "inspect=true" installed installed
           eq_refl eq_refl H).
Defined.

Lemma cdpConnect_retries_witness :
  let attempt := fun i : Z =>
    if i <? 2 then Connect.Refused "ECONNREFUSED" else Connect.Opened tt in
  1 <= 3
  /\ exists k,
       0 <= k < 3
       /\ Connect.cdpConnect unit attempt 3
          = Some (Connect.mkRun (seqZ 0 (k + 1))
                    ((fun j => 200 * (j + 1)) <$> seqZ 0 k)
                    match attempt k with
                    | Connect.Opened c => Connect.Returned c
                    | Connect.Refused err => Connect.Thrown err
                    end).
Proof.
  intros attempt. split; [lia|].
  destruct (cdpConnect_retries unit attempt 3 ltac:(lia)) as (k & Hk & _ & Hrun & _).
  exists k. split; [exact Hk|exact Hrun].
Defined.

Lemma recent_error_message_witness :
  let e := Events.mkEvent "2026-01-01T00:00:00.000Z" None
             (Events.Response 404 "https://example.com/a") Events.Page in
  Query.errorsFilter e = true
  /\ Format.recentMessage (Endpoints.recentError e) = "404 https://example.com/a".
Proof.
  intros e. split; [reflexivity|].
  exact (recent_error_message e eq_refl).
Defined.

(** ** The route table as a whole *)

Section RouteTableFacts.
Import Router.

Lemma matchRoute_skip (r : Route Endpoint) (rs : list (Route Endpoint)) (m url : string) :
  (if negb (bool_decide (method r = m)) then true
   else match matchTokens (tokens r) url with Some _ => false | None => true end) = true ->
  matchRoute (r :: rs) m url = matchRoute rs m url.
Proof.
  simpl. destruct (negb (bool_decide (method r = m))); [done|].
  by destruct (matchTokens (tokens r) url).
Qed.

Lemma matchRoute_hit (r : Route Endpoint) (rs : list (Route Endpoint)) (m url : string)
    (cs : list string) :
  method r = m -> matchTokens (tokens r) url = Some cs ->
  matchRoute (r :: rs) m url = Some (handler r, bindParams (paramNames r) cs).
Proof.
  intros Hm Hcs. simpl. rewrite bool_decide_eq_true_2 by done. simpl. by rewrite Hcs.
Qed.

Ltac find_route Ht :=
  let t := eval vm_compute in daemonRoutes in
  change daemonRoutes with t;
  repeat (rewrite matchRoute_skip by reflexivity);
  etrans;
  [ apply (matchRoute_hit _ _ _ _ []); [reflexivity|];
    match goal with
    | |- matchTokens _ (?p +:+ ?tail) = _ =>
        let E := fresh in
        pose proof (matchTokens_lits p tail) as E; rewrite Ht in E; exact E
    end
  | reflexivity ].

(** No registered route hides another: every endpoint registered under
    a path without parameter is the one chosen for that path, alone or
    followed by a query string, with the method it was registered for. *)
Theorem static_routes_reachable (m p : string) (h : Endpoint) (tail : string) :
  (m, p, h) ∈ registered -> plainPath p = true -> matchTail tail = true ->
  matchRoute daemonRoutes m (p +:+ tail) = Some (h, []).
Proof.
  intros Hin Hp Ht. unfold registered in Hin.
  repeat (apply elem_of_cons in Hin as [Hin|Hin];
          [injection Hin as -> -> ->; first [discriminate Hp | find_route Ht]|]).
  by apply elem_of_nil in Hin.
Qed.

End RouteTableFacts.

Lemma static_routes_reachable_witness :
  ("GET", "/errors/summary", Router.ErrorsSummary) ∈ Router.registered
  /\ Router.plainPath "/errors/summary" = true /\ Router.matchTail "?x=1" = true
  /\ Router.matchRoute Router.daemonRoutes "GET" "/errors/summary?x=1"
     = Some (Router.ErrorsSummary, []).
Proof.
  assert (("GET", "/errors/summary", Router.ErrorsSummary) ∈ Router.registered) as Hin.
  { unfold Router.registered. do 2 (apply elem_of_cons; right). apply elem_of_cons. by left. }
  split; [exact Hin|]. split; [reflexivity|]. split; [reflexivity|].
  exact (static_routes_reachable "GET" "/errors/summary" Router.ErrorsSummary "?x=1"
           Hin eq_refl eq_refl).
Defined.
